(** * Pytorch-UNet, [train.py]: the training script's control logic

    A shallow embedding of [train.py]: the train/validation split, the two
    data loaders, the construction of the optimizer, the composite loss,
    the training loop with its periodic validation round, the per-epoch
    checkpoint, the checkpoint load path and the out-of-memory recovery
    wrapper of [__main__].

    Python integers are [Z], Python floats are IEEE binary64 values
    ([spec_float] at precision 53), dictionaries are [gmap]s, and the
    calls into torch and wandb that the script does not define are either
    modelled by what the library does (samplers, [random_split], the
    checks of [DataLoader], [RMSprop] and [load_state_dict], [nn.Module]
    attribute lookup and state dictionaries) or taken from an
    oracle that says, batch by batch, what each collaborator returns or
    raises. *)

From Stdlib Require Import ZArith Lia Bool String Ascii List Permutation.
From Stdlib Require Import Floats.SpecFloat.
From Stdlib Require Import QArith Qround Qpower.
From stdpp Require Import gmap strings list list_monad pretty.

Local Open Scope Z_scope.

(** ** Python: exceptions, results, strings, integer and float arithmetic *)

Module Py.

(** The exception classes the script raises, catches or lets through.
    [RuntimeError] is the only class the recovery wrapper names;
    [OtherError] stands for any class that is not listed. *)
Inductive exn :=
| AssertionError (msg : string)
| AttributeError (attr : string)
| RuntimeError (msg : string)
| ValueError (msg : string)
| OverflowError (msg : string)
| ZeroDivisionError
| KeyError (key : string)
| FileNotFoundError (path : string)
| OtherError (name : string).

(** [isinstance(e, RuntimeError)] *)
Definition is_RuntimeError (e : exn) : bool :=
  match e with RuntimeError _ => true | _ => false end.

(** [str(e)] *)
Definition str (e : exn) : string :=
  match e with
  | AssertionError m | RuntimeError m | ValueError m | OverflowError m => m
  | AttributeError a => a
  | ZeroDivisionError => "division by zero"
  | KeyError k => k
  | FileNotFoundError p => p
  | OtherError n => n
  end.

Inductive result (A : Type) :=
| Ok (a : A)
| Raise (e : exn).
Arguments Ok {A} a.
Arguments Raise {A} e.

(** [sub in s] on strings *)
Fixpoint contains (sub s : string) : bool :=
  String.prefix sub s ||
  match s with
  | EmptyString => false
  | String _ s' => contains sub s'
  end.

(** [a // b] and [a % b]: floor division, the remainder has the sign of
    the divisor, and a zero divisor raises. *)
Definition floordiv (a b : Z) : result Z :=
  if b =? 0 then Raise ZeroDivisionError else Ok (a / b).

Definition mod_ (a b : Z) : result Z :=
  if b =? 0 then Raise ZeroDivisionError else Ok (a mod b).

(** *** Floats: IEEE 754 binary64 *)

Definition prec : Z := 53.
Definition emax : Z := 1024.

Abbreviation float := spec_float.

(** [float(n)] for an integer: the nearest binary64 value, ties to even;
    an integer beyond the largest float raises. *)
Definition float_of_int (n : Z) : result float :=
  match binary_normalize prec emax n 0 false with
  | S754_infinity _ => Raise (OverflowError "int too large to convert to float")
  | x => Ok x
  end.

Definition float_mul (x y : float) : float := SFmul prec emax x y.

(** [n * y] with [n] an integer and [y] a float *)
Definition int_mul_float (n : Z) (y : float) : result float :=
  match float_of_int n with
  | Ok x => Ok (float_mul x y)
  | Raise e => Raise e
  end.

(** [int(x)] on a float: truncation towards zero; NaN and the infinities
    raise. *)
Definition int_of_float (x : float) : result Z :=
  match x with
  | S754_zero _ => Ok 0
  | S754_nan => Raise (ValueError "cannot convert float NaN to integer")
  | S754_infinity _ => Raise (OverflowError "cannot convert float infinity to integer")
  | S754_finite s m e =>
      let a := match e with
               | Z0 => Zpos m
               | Zpos p => Zpos m * 2 ^ Zpos p
               | Zneg p => Zpos m / 2 ^ Zpos p
               end in
      Ok (if s then - a else a)
  end.

(** [1.0] *)
Definition float_one : float := S754_finite false 4503599627370496 (-52).

(** The rational a float stands for (0 for what is not finite). *)
Definition float_value (x : float) : Q :=
  match x with
  | S754_finite s m e => (inject_Z (if s then Zneg m else Zpos m) * Qpower 2 e)%Q
  | _ => 0%Q
  end.

(** Zeros and positive finite floats. *)
Definition nonneg_finite (x : float) : Prop :=
  match x with
  | S754_zero _ | S754_finite false _ _ => True
  | _ => False
  end.

(** The state of a right shift of [M] by [j] bits in the rounding of a
    float operation: the quotient, with [loc_ok] relating the round bit
    [r] and the sticky bit [s] to the remainder [R] of the division by
    [W]. *)
Definition loc_ok (R W : Z) (r s : bool) : Prop :=
  match r, s with
  | false, false => R = 0
  | false, true => 0 < 2 * R < W
  | true, false => 2 * R = W
  | true, true => W < 2 * R
  end.

Definition shifted (M j : Z) (mrs : shr_record) : Prop :=
  shr_m mrs = M / 2 ^ j /\ loc_ok (M mod 2 ^ j) (2 ^ j) (shr_r mrs) (shr_s mrs).

(** The state of a division of [N] by [W] in the rounding of a float
    operation: the quotient, the round and the sticky bit. *)
Definition shifted_by (N W : Z) (mrs : shr_record) : Prop :=
  0 < W /\ shr_m mrs = N / W /\ loc_ok (N mod W) W (shr_r mrs) (shr_s mrs).

(** [100.0] *)
Definition float_100 : float := S754_finite false 7036874417766400 (-46).

(** [l[a:b]] with Python's treatment of negative and out-of-range
    bounds. *)
Definition clamp_index (len i : Z) : Z :=
  if i <? 0 then Z.max (i + len) 0 else Z.min i len.

Definition slice {A} (l : list A) (a b : Z) : list A :=
  let len := Z.of_nat (length l) in
  let a' := clamp_index len a in
  let b' := clamp_index len b in
  take (Z.to_nat (b' - a')) (drop (Z.to_nat a') l).

End Py.

Export Py.

(** ** torch: what the script uses of the framework *)

Module Torch.

(** *** Tensor operations

    The tensor type, the loss primitives and the shape of a tensor are
    the framework's (and [dice_loss] is [utils.dice_score]'s): the
    script only composes them, so they are an interface. *)
Class TensorOps (tensor : Type) := {
  squeeze1 : tensor -> tensor;                   (* [t.squeeze(1)] *)
  to_float : tensor -> tensor;                   (* [t.float()] *)
  sigmoid : tensor -> tensor;                    (* [F.sigmoid(t)] *)
  softmax1 : tensor -> tensor;                   (* [F.softmax(t, dim=1)] *)
  one_hot : tensor -> Z -> tensor;               (* [F.one_hot(t, n)] *)
  permute0312 : tensor -> tensor;                (* [t.permute(0, 3, 1, 2)] *)
  bce_with_logits : tensor -> tensor -> tensor;  (* [nn.BCEWithLogitsLoss()(x, y)] *)
  cross_entropy : tensor -> tensor -> tensor;    (* [nn.CrossEntropyLoss()(x, y)] *)
  dice_loss : tensor -> tensor -> bool -> tensor; (* [dice_loss(x, y, multiclass=b)] *)
  tadd : tensor -> tensor -> tensor;             (* [loss += t] *)
  shape : tensor -> list Z;                      (* [t.shape] *)
}.

Inductive criterion := CrossEntropyLoss | BCEWithLogitsLoss.

Definition apply_criterion {tensor} `{!TensorOps tensor} (c : criterion) (x y : tensor) : tensor :=
  match c with
  | CrossEntropyLoss => cross_entropy x y
  | BCEWithLogitsLoss => bce_with_logits x y
  end.

(** *** Modules: attribute lookup and state dictionaries

    The network is a [UNet]; [__main__] wraps it in [nn.DataParallel].
    A wrapper keeps the wrapped module under its attribute [module] and
    has none of the wrapped module's own attributes or methods; its
    state dictionary names every entry of the wrapped one with the
    prefix ["module."]. *)
Section Modules.
Context {tensor : Type} `{!TensorOps tensor}.

Record unet := {
  n_channels : Z;
  n_classes : Z;
  bilinear : bool;
  parameters : gmap string tensor;
  checkpointing : bool;
}.

Inductive module :=
| UNet (u : unet)
| DataParallel (inner : module).

(** [m.module] *)
Definition get_module (m : module) : result module :=
  match m with
  | DataParallel inner => Ok inner
  | UNet _ => Raise (AttributeError "module")
  end.

(** [m.n_channels], [m.n_classes] *)
Definition get_n_channels (m : module) : result Z :=
  match m with
  | UNet u => Ok (n_channels u)
  | DataParallel _ => Raise (AttributeError "n_channels")
  end.

Definition get_n_classes (m : module) : result Z :=
  match m with
  | UNet u => Ok (n_classes u)
  | DataParallel _ => Raise (AttributeError "n_classes")
  end.

(** [m.use_checkpointing()] *)
Definition use_checkpointing (m : module) : result module :=
  match m with
  | UNet u =>
      Ok (UNet {| n_channels := n_channels u; n_classes := n_classes u;
                  bilinear := bilinear u; parameters := parameters u;
                  checkpointing := true |})
  | DataParallel _ => Raise (AttributeError "use_checkpointing")
  end.

(** [m.state_dict()]: a fresh dictionary at every call *)
Fixpoint state_dict (m : module) : gmap string tensor :=
  match m with
  | UNet u => parameters u
  | DataParallel inner => kmap (String.append "module.") (state_dict inner)
  end.

(** The parameters an optimizer step or a load writes, in place. *)
Fixpoint map_parameters (f : gmap string tensor -> gmap string tensor) (m : module) : module :=
  match m with
  | UNet u =>
      UNet {| n_channels := n_channels u; n_classes := n_classes u;
              bilinear := bilinear u; parameters := f (parameters u);
              checkpointing := checkpointing u |}
  | DataParallel inner => DataParallel (map_parameters f inner)
  end.

(** The entries of a checkpoint file: parameter tensors, and the list
    of mask values under its own key. *)
Inductive entry :=
| Tensor (t : tensor)
| MaskValues (vs : list Z).

Definition entry_tensor (e : entry) : option tensor :=
  match e with Tensor t => Some t | MaskValues _ => None end.

(** The keys of [sd] that start with [p], with [p] removed. *)
Fixpoint drop_prefix (p s : string) : option string :=
  match p, s with
  | EmptyString, _ => Some s
  | String a p', String b s' => if Ascii.eqb a b then drop_prefix p' s' else None
  | String _ _, EmptyString => None
  end.

Definition strip_entries {A} (p : string) (l : list (string * A)) : list (string * A) :=
  omap (fun kv => match drop_prefix p (fst kv) with
                  | Some k => Some (k, snd kv)
                  | None => None
                  end) l.

Definition strip_prefix {A} (p : string) (sd : gmap string A) : gmap string A :=
  list_to_map (strip_entries p (map_to_list sd)).

Fixpoint set_state (m : module) (sd : gmap string tensor) : module :=
  match m with
  | UNet u =>
      UNet {| n_channels := n_channels u; n_classes := n_classes u;
              bilinear := bilinear u; parameters := sd;
              checkpointing := checkpointing u |}
  | DataParallel inner => DataParallel (set_state inner (strip_prefix "module." sd))
  end.

(** The tensor loaded under the name [k] has the shape of the
    module's own tensor of that name. *)
Definition same_shape (own : gmap string tensor) (k : string) (t : tensor) : bool :=
  match own !! k with
  | Some p => bool_decide (shape t = shape p)
  | None => true
  end.

(** [m.load_state_dict(sd)], strict: the keys of [sd] must be exactly
    the keys of [m.state_dict()], every entry a tensor, and every
    tensor of the shape of the one it replaces; anything else is a
    [RuntimeError], whose message lists the keys first. *)
Definition load_state_dict (m : module) (sd : gmap string entry) : result module :=
  if decide (dom sd = dom (state_dict m)) then
    if decide (map_Forall (fun _ e => is_Some (entry_tensor e)) sd) then
      if decide (map_Forall (fun k t => same_shape (state_dict m) k t = true)
                            (omap entry_tensor sd)) then
        Ok (set_state m (omap entry_tensor sd))
      else Raise (RuntimeError "Error(s) in loading state_dict: size mismatch")
    else Raise (RuntimeError "Error(s) in loading state_dict: expected torch.Tensor")
  else Raise (RuntimeError "Error(s) in loading state_dict: Missing or unexpected key(s)").

(** [optim.RMSprop(m.parameters(), lr=lr, weight_decay=weight_decay,
    momentum=momentum)]: the constructor checks its numbers in this
    order ([not 0.0 <= x], which a NaN fails as well) and then that it
    has been given a parameter. *)
Definition RMSprop (m : module) (lr weight_decay momentum : float) : result unit :=
  if negb (SFleb (S754_zero false) lr) then
    Raise (ValueError "Invalid learning rate")
  else if negb (SFleb (S754_zero false) momentum) then
    Raise (ValueError "Invalid momentum value")
  else if negb (SFleb (S754_zero false) weight_decay) then
    Raise (ValueError "Invalid weight_decay value")
  else if decide (dom (state_dict m) = ∅) then
    Raise (ValueError "optimizer got an empty parameter list")
  else Ok tt.

End Modules.
Arguments unet : clear implicits.
Arguments module : clear implicits.
Arguments entry : clear implicits.

(** *** Random generators

    [torch.Generator().manual_seed(s)] and [torch.randperm(n,
    generator=g)]: the permutation is a function of the generator's
    state and [n]; which permutation is the framework's business. *)
Class Random (gen : Type) := {
  manual_seed : Z -> gen;
  randperm : gen -> nat -> list nat;
  randperm_perm : forall g n, randperm g n ≡ₚ seq 0 n;
}.

(** [itertools.accumulate] *)
Fixpoint accumulate_from (acc : Z) (l : list Z) : list Z :=
  match l with
  | [] => []
  | x :: l' => (acc + x) :: accumulate_from (acc + x) l'
  end.

Definition accumulate (l : list Z) : list Z := accumulate_from 0 l.

Definition sum (l : list Z) : Z := fold_right Z.add 0 l.

(** Lengths that add up to 1 are taken as fractions of the dataset:
    each must be between 0 and 1 and stands for [floor (n * frac)]
    samples; what the floors leave over goes to the subsets one by one,
    from the first. The lengths the script passes are integers, so that
    [math.isclose(sum(lengths), 1) and sum(lengths) <= 1] is
    [sum(lengths) == 1]. *)
Definition distribute (remainder : Z) (subset_lengths : list Z) : list Z :=
  foldl (fun ls i => alter (Z.add 1) (i mod length ls)%nat ls) subset_lengths
        (seq 0 (Z.to_nat remainder)).

Definition fractions (n : Z) (lengths : list Z) : result (list Z) :=
  if forallb (fun frac => (0 <=? frac) && (frac <=? 1)) lengths then
    let subset_lengths := map (fun frac => n * frac) lengths in
    Ok (distribute (n - sum subset_lengths) subset_lengths)
  else Raise (ValueError "Fraction is not between 0 and 1").

(** [torch.utils.data.random_split(dataset, lengths, generator)] (torch
    1.13 and later), on the indices [0 .. n-1] of the dataset: each
    subset is the list of the dataset indices it holds. *)
Definition random_split {gen} `{!Random gen} (n : nat) (lengths : list Z) (g : gen)
  : result (list (list nat)) :=
  match (if sum lengths =? 1 then fractions (Z.of_nat n) lengths else Ok lengths) with
  | Raise e => Raise e
  | Ok lengths =>
      if sum lengths =? Z.of_nat n then
        let indices := randperm g (Z.to_nat (sum lengths)) in
        Ok (zip_with (fun offset length => slice indices (offset - length) offset)
                     (accumulate lengths) lengths)
      else Raise (ValueError "Sum of input lengths does not equal the length of the input dataset!")
  end.

(** *** Data loaders

    [DataLoader(dataset, shuffle, drop_last, batch_size)]. A loader that
    shuffles draws a new order at every iteration; the order comes from
    the process-wide generator, so it is an input here. The constructor
    makes the sampler first, and a [RandomSampler] refuses a dataset
    with no sample; then the [BatchSampler], which refuses a batch size
    that is not positive. *)
Record data_loader := {
  dl_dataset : list nat;
  dl_shuffle : bool;
  dl_drop_last : bool;
  dl_batch_size : Z;
}.

Definition DataLoader (dataset : list nat) (shuffle drop_last : bool) (batch_size : Z)
  : result data_loader :=
  if shuffle && (length dataset =? 0)%nat then
    Raise (ValueError "num_samples should be a positive integer value, but got num_samples=0")
  else if batch_size <=? 0 then
    Raise (ValueError "batch_size should be a positive integer value")
  else Ok {| dl_dataset := dataset; dl_shuffle := shuffle;
             dl_drop_last := drop_last; dl_batch_size := batch_size |}.

(** [BatchSampler.__iter__]: indices are appended to the current batch;
    a batch that reaches [batch_size] is yielded and a new one started;
    what is left at the end is yielded unless [drop_last]. *)
Fixpoint batch_sampler {A} (batch_size : nat) (drop_last : bool)
         (sampler : list A) (batch : list A) : list (list A) :=
  match sampler with
  | [] => if negb drop_last && (0 <? length batch)%nat then [batch] else []
  | idx :: rest =>
      let batch' := batch ++ [idx] in
      if (length batch' =? batch_size)%nat
      then batch' :: batch_sampler batch_size drop_last rest []
      else batch_sampler batch_size drop_last rest batch'
  end.

(** One iteration over a loader, [order] being what its sampler yields:
    the dataset itself without shuffling, the drawn order with. *)
Definition sampler_order (dl : data_loader) (drawn : list nat) : list nat :=
  if dl_shuffle dl then drawn else dl_dataset dl.

Definition batches (dl : data_loader) (drawn : list nat) : list (list nat) :=
  batch_sampler (Z.to_nat (dl_batch_size dl)) (dl_drop_last dl) (sampler_order dl drawn) [].

End Torch.

Export Torch.

(** ** The script *)

Module Train.

Section Script.
Context {tensor gen : Type} `{!TensorOps tensor} `{!Random gen}.

(** *** Data *)

(** The dataset, as far as the script looks into it: [len(dataset)]
    and [dataset.mask_values]. *)
Record dataset := {
  ds_len : nat;
  mask_values : list Z;
}.

(** The keyword arguments of [train_model] (lines 28-37). The script
    passes [img_scale] to the dataset, [amp] to the forward pass and the
    gradient scaler and [gradient_clipping] to the optimizer step, which
    are the collaborators'. *)
Record args := {
  epochs : Z;
  batch_size : Z;
  learning_rate : float;
  val_percent : float;
  save_checkpoint : bool;
  img_scale : float;
  amp : bool;
  weight_decay : float;
  momentum : float;
  gradient_clipping : float;
}.

(** What the collaborators return or raise at one training batch:
    the channel count of the collated images, the true masks, the
    forward pass, the backward pass with the optimizer step (the
    update it applies to the parameters), and the calls of the
    validation round. [None] is a call that returns. *)
Record outcome := {
  o_channels : Z;
  o_true_masks : tensor;
  o_forward : result tensor;
  o_backward : result (gmap string tensor -> gmap string tensor);
  o_train_log : option exn;
  o_histograms : option exn;
  o_evaluate : option exn;
  o_diag_log : option exn;
}.

(** The surroundings of one call of [train_model]: the dataset that
    lines 41-47 build from the files on disk, what a shuffling sampler
    draws at the iteration numbered [i] (the epoch, for the training
    loader; the global step, for a loader iterated in a validation
    round), and the collaborators' behaviour at the batch that follows
    [g] completed steps. The calls that are not listed ([wandb.init],
    [experiment.config.update], [logging.info], the scheduler and the
    gradient scaler) return. *)
Record env := {
  env_dataset : dataset;
  env_shuffle : Z -> list nat -> list nat;
  env_oracle : Z -> list nat -> outcome;
}.

(** The calls of a validation round (lines 185-221): building the
    parameter and gradient histograms, [evaluate], [scheduler.step],
    [logging.info] of the score, and the [experiment.log] of the
    diagnostic record (learning rate, score, sample image, true and
    predicted mask, histograms). *)
Inductive validation_call :=
| Histograms
| Evaluate
| SchedulerStep
| ValidationInfo
| DiagnosticLog.

(** Calls of collaborators, in the order they are made. An event is
    recorded when the call is made, before it returns or raises.
    [EvEvaluate] is the call [evaluate(model, val_loader, device, amp)]
    of line 199, with the batches an iteration over the loader it is
    given yields; the other calls of a validation round are
    [EvValidation]. *)
Inductive event :=
| EvEpoch (epoch : Z)
| EvForward (epoch : Z) (samples : list nat)
| EvOptimizerStep
| EvTrainLog (loss : tensor) (step epoch : Z)
| EvValidation (c : validation_call) (step : Z)
| EvEvaluate (step : Z) (val_batches : list (list nat))
| EvCheckpoint (epoch : Z) (path : string)
| EvLogError
| EvEmptyCache
| EvModelLoaded (path : string).

(** The objects that outlive a call: the model (one object, shared by
    [__main__] and [train_model] and updated in place), the files
    written by [torch.save], and the calls made so far. *)
Record world := {
  w_model : module tensor;
  w_files : gmap string (gmap string (entry tensor));
  w_trace : list event;
}.

(** *** Statements: state and exceptions *)

Definition M (A : Type) : Type := world -> result A * world.

Definition ret {A} (a : A) : M A := fun w => (Ok a, w).

Definition bind {A B} (m : M A) (k : A -> M B) : M B :=
  fun w => match m w with
           | (Ok a, w') => k a w'
           | (Raise e, w') => (Raise e, w')
           end.

Definition raise {A} (e : exn) : M A := fun w => (Raise e, w).

Definition lift {A} (r : result A) : M A := fun w => (r, w).

Definition call (o : option exn) : M unit :=
  match o with
  | None => ret tt
  | Some e => raise e
  end.

Definition emit (ev : event) : M unit :=
  fun w => (Ok tt, {| w_model := w_model w; w_files := w_files w;
                      w_trace := w_trace w ++ [ev] |}).

Definition get_model : M (module tensor) := fun w => (Ok (w_model w), w).

Definition set_model (m : module tensor) : M unit :=
  fun w => (Ok tt, {| w_model := m; w_files := w_files w; w_trace := w_trace w |}).

Definition write_file (path : string) (d : gmap string (entry tensor)) : M unit :=
  fun w => (Ok tt, {| w_model := w_model w; w_files := <[path := d]> (w_files w);
                      w_trace := w_trace w |}).

Definition read_file (path : string) : M (gmap string (entry tensor)) :=
  fun w => match w_files w !! path with
           | Some d => (Ok d, w)
           | None => (Raise (FileNotFoundError path), w)
           end.

(** [try: m  except: pass] *)
Definition try_except_pass (m : M unit) : M unit :=
  fun w => match m w with
           | (Ok a, w') => (Ok a, w')
           | (Raise _, w') => (Ok tt, w')
           end.

(** [try: m  except RuntimeError as e: h e] *)
Definition try_except_RuntimeError (m : M unit) (h : exn -> M unit) : M unit :=
  fun w => match m w with
           | (Ok a, w') => (Ok a, w')
           | (Raise e, w') => if is_RuntimeError e then h e w' else (Raise e, w')
           end.

Notation "x <- m ;; k" := (bind m (fun x => k))
  (at level 100, m at next level, right associativity).
Notation "m ;;; k" := (bind m (fun _ => k))
  (at level 100, right associativity).

(** [for x in xs: g = body g x], with [g] the loop-carried local *)
Fixpoint for_each {A} (body : Z -> A -> M Z) (xs : list A) (g : Z) : M Z :=
  match xs with
  | [] => ret g
  | x :: rest => g' <- body g x ;; for_each body rest g'
  end.

(** *** [train_model] *)

(** Lines 150-165: the loss of one batch. *)
Definition batch_loss (ncl : Z) (crit : criterion) (masks_pred true_masks : tensor) : tensor :=
  if ncl =? 1 then
    tadd (apply_criterion crit (squeeze1 masks_pred) (to_float true_masks))
         (dice_loss (sigmoid (squeeze1 masks_pred)) (to_float true_masks) false)
  else
    tadd (apply_criterion crit masks_pred true_masks)
         (dice_loss (to_float (softmax1 masks_pred))
                    (to_float (permute0312 (one_hot true_masks ncl)))
                    true).

(** Line 105. *)
Definition make_criterion (ncl : Z) : criterion :=
  if ncl >? 1 then CrossEntropyLoss else BCEWithLogitsLoss.

(** Lines 50-54: the sizes and the two subsets. *)
Definition split_sizes (len : Z) (vp : float) : result (Z * Z) :=
  match int_mul_float len vp with
  | Raise e => Raise e
  | Ok p =>
      match int_of_float p with
      | Raise e => Raise e
      | Ok n_val => Ok (len - n_val, n_val)
      end
  end.

Definition split_dataset (ds : dataset) (vp : float) : result (Z * Z * list nat * list nat) :=
  match split_sizes (Z.of_nat (ds_len ds)) vp with
  | Raise e => Raise e
  | Ok (n_train, n_val) =>
      match random_split (ds_len ds) [n_train; n_val] (manual_seed 0) with
      | Raise e => Raise e
      | Ok [train_set; val_set] => Ok (n_train, n_val, train_set, val_set)
      | Ok _ => Raise (ValueError "not enough values to unpack")
      end
  end.

(** Lines 185-223: the validation round. *)
Definition validation_round (e : env) (val_loader : data_loader) (o : outcome) (g : Z)
  : M unit :=
  emit (EvValidation Histograms g) ;;;
  call (o_histograms o) ;;;
  emit (EvEvaluate g (batches val_loader (env_shuffle e g (dl_dataset val_loader)))) ;;;
  call (o_evaluate o) ;;;
  emit (EvValidation SchedulerStep g) ;;;
  emit (EvValidation ValidationInfo g) ;;;
  try_except_pass (emit (EvValidation DiagnosticLog g) ;;; call (o_diag_log o)).

(** Lines 123-223: one training batch; [g] is [global_step] before
    the batch, the result is [global_step] after it. *)
Definition train_batch (a : args) (e : env) (n_train : Z) (crit : criterion)
           (val_loader : data_loader) (epoch : Z) (g : Z) (samples : list nat) : M Z :=
  let o := env_oracle e g samples in
  model <- get_model ;;
  inner <- lift (get_module model) ;;
  nch <- lift (get_n_channels inner) ;;
  (if o_channels o =? nch then ret tt
   else (declared <- lift (get_n_channels model) ;;
         raise (AssertionError "Network has been defined with a different number of input channels"))) ;;;
  emit (EvForward epoch samples) ;;;
  masks_pred <- lift (o_forward o) ;;
  ncl <- lift (get_n_classes inner) ;;
  let loss := batch_loss ncl crit masks_pred (o_true_masks o) in
  emit EvOptimizerStep ;;;
  update <- lift (o_backward o) ;;
  set_model (map_parameters update model) ;;;
  let g := g + 1 in
  emit (EvTrainLog loss g epoch) ;;;
  call (o_train_log o) ;;;
  division_step <- lift (floordiv n_train (200 * batch_size a)) ;;
  (if division_step >? 0 then
     r <- lift (mod_ g division_step) ;;
     if r =? 0 then validation_round e val_loader o g else ret tt
   else ret tt) ;;;
  ret g.

(** [dir_checkpoint / "checkpoint_epoch{}.pth".format(epoch)] *)
Definition checkpoint_path (epoch : Z) : string :=
  String.append "checkpoints/checkpoint_epoch" (String.append (pretty epoch) ".pth").

(** Lines 225-232. *)
Definition write_checkpoint (ds : dataset) (epoch : Z) : M unit :=
  model <- get_model ;;
  let state_dict := Tensor <$> state_dict model in
  let state_dict := <["mask_values" := MaskValues (mask_values ds)]> state_dict in
  emit (EvCheckpoint epoch (checkpoint_path epoch)) ;;;
  write_file (checkpoint_path epoch) state_dict.

(** Lines 109-232: one epoch. *)
Definition train_epoch (a : args) (e : env) (n_train : Z) (crit : criterion)
           (train_loader val_loader : data_loader) (g : Z) (epoch : Z) : M Z :=
  emit (EvEpoch epoch) ;;;
  g' <- for_each (train_batch a e n_train crit val_loader epoch)
                 (batches train_loader (env_shuffle e epoch (dl_dataset train_loader))) g ;;
  (if save_checkpoint a then write_checkpoint (env_dataset e) epoch else ret tt) ;;;
  ret g'.

(** [range(1, epochs + 1)] *)
Definition epoch_range (epochs : Z) : list Z :=
  map Z.of_nat (seq 1 (Z.to_nat epochs)).

(** The function (lines 49-232); its result is the final
    [global_step], which the Python function drops. *)
Definition train_model_steps (a : args) (e : env) : M Z :=
  split <- lift (split_dataset (env_dataset e) (val_percent a)) ;;
  let '(n_train, n_val, train_set, val_set) := split in
  train_loader <- lift (DataLoader train_set true false (batch_size a)) ;;
  val_loader <- lift (DataLoader val_set false true (batch_size a)) ;;
  model <- get_model ;;
  optimizer <- lift (RMSprop model (learning_rate a) (weight_decay a) (momentum a)) ;;
  inner <- lift (get_module model) ;;
  ncl <- lift (get_n_classes inner) ;;
  let crit := make_criterion ncl in
  let global_step := 0 in
  for_each (train_epoch a e n_train crit train_loader val_loader)
           (epoch_range (epochs a)) global_step.

Definition train_model (a : args) (e : env) : M unit :=
  train_model_steps a e ;;; ret tt.

(** *** [__main__] *)

(** The parsed command line. *)
Record cli := {
  cli_epochs : Z;
  cli_batch_size : Z;
  cli_lr : float;
  cli_load : option string;
  cli_scale : float;
  cli_val : float;
  cli_amp : bool;
}.

(** [args.val / 100] *)
Definition percent (v : float) : float :=
  SFdiv prec emax v (binary_normalize prec emax 100 0 false).

(** The defaults of lines 35-37: [1e-8], [0.999] and [1.0]. *)
Definition default_weight_decay : float := S754_finite false 6044629098073146 (-79).
Definition default_momentum : float := S754_finite false 8998192055486251 (-53).
Definition default_gradient_clipping : float := float_one.

(** The arguments of both calls of [train_model] (lines 326-335 and
    346-355); [save_checkpoint], [weight_decay], [momentum] and
    [gradient_clipping] keep their defaults. *)
Definition train_args (c : cli) : args :=
  {| epochs := cli_epochs c;
     batch_size := cli_batch_size c;
     learning_rate := cli_lr c;
     val_percent := percent (cli_val c);
     save_checkpoint := true;
     img_scale := cli_scale c;
     amp := cli_amp c;
     weight_decay := default_weight_decay;
     momentum := default_momentum;
     gradient_clipping := default_gradient_clipping |}.

(** [del d[k]] *)
Definition del {A} (k : string) (d : gmap string A) : result (gmap string A) :=
  match d !! k with
  | Some _ => Ok (delete k d)
  | None => Raise (KeyError k)
  end.

(** Lines 313-317. *)
Definition load_checkpoint (path : string) : M unit :=
  state_dict <- read_file path ;;
  state_dict <- lift (del "mask_values" state_dict) ;;
  model <- get_model ;;
  model' <- lift (load_state_dict model state_dict) ;;
  set_model model' ;;;
  emit (EvModelLoaded path).

(** Lines 338-355: the handler of the [except RuntimeError] clause. *)
Definition on_RuntimeError (c : cli) (retry : env) (e : exn) : M unit :=
  if contains "out of memory" (str e) then
    emit EvLogError ;;;
    emit EvEmptyCache ;;;
    model <- get_model ;;
    model' <- lift (use_checkpointing model) ;;
    set_model model' ;;;
    train_model (train_args c) retry
  else ret tt.

(** Lines 325-355. *)
Definition recovery_wrapper (c : cli) (first retry : env) : M unit :=
  try_except_RuntimeError (train_model (train_args c) first) (on_RuntimeError c retry).

(** Lines 302-355; [pretrained] is what [unet_carvana] returns. *)
Definition main (c : cli) (pretrained : unet tensor) (first retry : env) : M unit :=
  set_model (UNet pretrained) ;;;
  match cli_load c with
  | Some (String a p) => load_checkpoint (String a p)
  | _ => ret tt
  end ;;;
  model <- get_model ;;
  set_model (DataParallel model) ;;;
  recovery_wrapper c first retry.

(** *** Observations on a run *)

(** The calls a statement makes from [w]: what it adds to the trace. *)
Definition events_of {A} (m : M A) (w : world) : list event :=
  drop (length (w_trace w)) (w_trace (snd (m w))).

(** The [step] fields of the per-batch log records, in order. *)
Definition log_step (ev : event) : option Z :=
  match ev with EvTrainLog _ g _ => Some g | _ => None end.

Definition log_steps (t : list event) : list Z := omap log_step t.

(** The calls of validation rounds with the global step they are made
    at, in order. *)
Definition validation_call_of (ev : event) : option (validation_call * Z) :=
  match ev with
  | EvValidation c g => Some (c, g)
  | EvEvaluate g _ => Some (Evaluate, g)
  | _ => None
  end.

Definition validation_calls (t : list event) : list (validation_call * Z) :=
  omap validation_call_of t.

(** Line 182. *)
Definition division_step (a : args) (n_train : Z) : Z :=
  n_train / (200 * batch_size a).

(** Lines 183-184 at global step [g]. *)
Definition validation_due (a : args) (n_train g : Z) : bool :=
  (0 <? division_step a n_train) && (g mod division_step a n_train =? 0).

(** The calls of a validation round in which nothing is raised. *)
Definition round_calls (g : Z) : list (validation_call * Z) :=
  [(Histograms, g); (Evaluate, g); (SchedulerStep, g); (ValidationInfo, g);
   (DiagnosticLog, g)].

(** The global steps [g0 + 1, ..., g0 + k]. *)
Definition steps (g0 : Z) (k : nat) : list Z :=
  map (fun i => g0 + Z.of_nat i) (seq 1 k).

Definition rounds_due (a : args) (n_train : Z) (gs : list Z) : list (validation_call * Z) :=
  flat_map (fun g => if validation_due a n_train g then round_calls g else []) gs.

(** The batches of the epochs [eps], counted. *)
Definition batches_of_epoch (e : env) (train_loader : data_loader) (epoch : Z) : list (list nat) :=
  batches train_loader (env_shuffle e epoch (dl_dataset train_loader)).

Definition planned_steps (e : env) (train_loader : data_loader) (eps : list Z) : nat :=
  sum_list (map (fun epoch => length (batches_of_epoch e train_loader epoch)) eps).

(** The validation calls due at global step [g]. *)
Definition due_calls (a : args) (n_train g : Z) : list (validation_call * Z) :=
  if validation_due a n_train g then round_calls g else [].

(** What a piece of the loop that is to run [k] batches from global
    step [g0] adds to the trace: the log records and validation rounds
    of the steps [g0 + 1 .. g0 + k] when it returns, a prefix of them
    when it raises. *)
Definition run_post (a : args) (n_train g0 : Z) (k : nat) (r : result Z)
           (w w' : world) : Prop :=
  exists t, w_trace w' = w_trace w ++ t /\
    match r with
    | Ok g' => g' = g0 + Z.of_nat k /\ log_steps t = steps g0 k
               /\ validation_calls t = rounds_due a n_train (steps g0 k)
    | Raise _ => log_steps t `prefix_of` steps g0 k
                 /\ validation_calls t `prefix_of` rounds_due a n_train (steps g0 k)
    end.

(** Every log record of the trace [t] is the record of the batch
    whose forward pass and optimizer step come just before it: the
    record of step [g] logs the loss of lines 150-165, for the
    network's class count [ncl], on what the forward pass returned for
    the samples of that batch (the batch that follows [g - 1] completed
    steps) and on the true masks of the same batch. *)
Definition logs_loss_of_batch (e : env) (ncl : Z) (t : list event) : Prop :=
  forall loss g epoch,
    EvTrainLog loss g epoch ∈ t ->
    exists samples masks_pred before after,
      t = before ++ EvForward epoch samples :: EvOptimizerStep
                 :: EvTrainLog loss g epoch :: after
      /\ o_forward (env_oracle e (g - 1) samples) = Ok masks_pred
      /\ loss = batch_loss ncl (make_criterion ncl) masks_pred
                           (o_true_masks (env_oracle e (g - 1) samples)).

(** The model is the wrapped network with [ncl] classes. *)
Definition wrapped_with_classes (ncl : Z) (w : world) : Prop :=
  exists u, w_model w = DataParallel (UNet u) /\ n_classes u = ncl.

(** Either no validation round is entered, or the failure of the
    histograms is what the piece ends with. *)
Definition no_round_or_raises (ex : exn) (r : result Z) (t : list event) : Prop :=
  validation_calls t = [] \/ r = Raise ex.

(** The surroundings [e] with every diagnostic [experiment.log] made
    to return. *)
Definition mute_diag_log (o : outcome) : outcome :=
  {| o_channels := o_channels o; o_true_masks := o_true_masks o;
     o_forward := o_forward o; o_backward := o_backward o;
     o_train_log := o_train_log o; o_histograms := o_histograms o;
     o_evaluate := o_evaluate o; o_diag_log := None |}.

Definition with_quiet_diag_log (e : env) : env :=
  {| env_dataset := env_dataset e; env_shuffle := env_shuffle e;
     env_oracle := fun g samples => mute_diag_log (env_oracle e g samples) |}.

(** The samples passed to the forward pass in epoch [ep], in the order
    they are passed. *)
Definition forward_of (ep : Z) (ev : event) : option (list nat) :=
  match ev with
  | EvForward ep' samples => if ep' =? ep then Some samples else None
  | _ => None
  end.

Definition forwarded (ep : Z) (t : list (event)) : list nat :=
  concat (omap (forward_of ep) t).

(** The batches passed to the forward pass in epoch [ep], in order. *)
Definition forward_batches (ep : Z) (t : list event) : list (list nat) :=
  omap (forward_of ep) t.

(** The calls of [evaluate]: the global step and the batches of the
    loader passed. *)
Definition evaluate_of (ev : event) : option (Z * list (list nat)) :=
  match ev with EvEvaluate g val_batches => Some (g, val_batches) | _ => None end.

Definition evaluations (t : list event) : list (Z * list (list nat)) :=
  omap evaluate_of t.

(** The checkpoints written, by epoch and path. *)
Definition checkpoint_of (ev : event) : option (Z * string) :=
  match ev with EvCheckpoint ep p => Some (ep, p) | _ => None end.

Definition checkpoints (t : list (event)) : list (Z * string) :=
  omap checkpoint_of t.

(** What line 227-231 save for the model [m]. *)
Definition checkpoint_file (ds : dataset) (m : module tensor) : gmap string (entry tensor) :=
  <["mask_values" := MaskValues (mask_values ds)]> (Tensor <$> state_dict m).

(** The training loader of lines 57-61. *)
Definition train_loader_of (a : args) (train_set : list nat) : data_loader :=
  {| dl_dataset := train_set; dl_shuffle := true; dl_drop_last := false;
     dl_batch_size := batch_size a |}.

(** The validation loader of line 62. *)
Definition val_loader_of (a : args) (val_set : list nat) : data_loader :=
  {| dl_dataset := val_set; dl_shuffle := false; dl_drop_last := true;
     dl_batch_size := batch_size a |}.

(** Every call of [evaluate] in the trace is given the batches of the
    loader [val_loader]. *)
Definition evaluates_on (e : env) (val_loader : data_loader) (ev : event) : Prop :=
  match ev with
  | EvEvaluate g val_batches =>
      val_batches = batches val_loader (env_shuffle e g (dl_dataset val_loader))
  | _ => True
  end.

(** The batches of epoch [ep] among the epochs [eps]. *)
Definition batches_of_epochs (e : env) (dl : data_loader) (eps : list Z) (ep : Z)
  : list (list nat) :=
  concat (map (fun ep' => if ep' =? ep then batches_of_epoch e dl ep' else []) eps).

End Script.

End Train.

Export Train.

(** ** Concrete surroundings

    Symbolic tensors (every operation is its own constructor, so two
    losses are equal only when they are built the same way), a generator
    whose permutation is a rotation by the seed, and collaborators that
    return. *)

Module Example.

Inductive term :=
| Var (name : string)
| Squeeze1 (t : term)
| ToFloat (t : term)
| Sigmoid (t : term)
| Softmax1 (t : term)
| OneHot (t : term) (n : Z)
| Permute0312 (t : term)
| BCE (x y : term)
| CE (x y : term)
| Dice (x y : term) (multiclass : bool)
| Add (x y : term)
| Weight (name : string) (dims : list Z).

(** A named weight has the shape it is declared with; the shapes of
    the other tensors play no part. *)
Definition term_shape (t : term) : list Z :=
  match t with Weight _ dims => dims | _ => [] end.

#[export] Instance term_ops : TensorOps term :=
  {| squeeze1 := Squeeze1; to_float := ToFloat; sigmoid := Sigmoid;
     softmax1 := Softmax1; one_hot := OneHot; permute0312 := Permute0312;
     bce_with_logits := BCE; cross_entropy := CE; dice_loss := Dice; tadd := Add;
     shape := term_shape |}.

Definition rotate (k n : nat) : list nat := drop k (seq 0 n) ++ take k (seq 0 n).

Lemma rotate_perm k n : rotate k n ≡ₚ seq 0 n.
Proof. unfold rotate. rewrite Permutation_app_comm. by rewrite take_drop. Qed.

#[export] Instance seed_random : Random Z :=
  {| manual_seed := fun s => s;
     randperm := fun g n => rotate (Z.to_nat (g + 3)) n;
     randperm_perm := fun g n => rotate_perm _ n |}.

(** 10.0, 0.0 and 0.5 *)
Definition f10 : float := S754_finite false 5 1.
Definition f0 : float := S754_zero false.
Definition fhalf : float := S754_finite false 4503599627370496 (-53).

(** A batch at which every collaborator returns. *)
Definition quiet : outcome (tensor:=term) :=
  {| o_channels := 3; o_true_masks := Var "true_masks"; o_forward := Ok (Var "masks_pred");
     o_backward := Ok (fun p => p); o_train_log := None; o_histograms := None;
     o_evaluate := None; o_diag_log := None |}.

Definition quiet_env (n : nat) : env (tensor:=term) :=
  {| env_dataset := {| ds_len := n; mask_values := [0; 1] |};
     env_shuffle := fun _ l => rev l;
     env_oracle := fun _ _ => quiet |}.

Definition net (classes : Z) : unet term :=
  {| n_channels := 3; n_classes := classes; bilinear := false;
     parameters := {[ "inc.weight" := Var "w" ]}; checkpointing := false |}.

Definition start (classes : Z) : world (tensor:=term) :=
  {| w_model := DataParallel (UNet (net classes)); w_files := ∅; w_trace := [] |}.

Definition some_args (epochs batch_size : Z) (vp : float) : args :=
  {| epochs := epochs; batch_size := batch_size; learning_rate := f10;
     val_percent := vp; save_checkpoint := true; img_scale := fhalf; amp := false;
     weight_decay := default_weight_decay; momentum := default_momentum;
     gradient_clipping := default_gradient_clipping |}.

(** The same with the learning rate [-1.0], as [-l -1] gives it. *)
Definition negative_rate_args (epochs batch_size : Z) (vp : float) : args :=
  {| epochs := epochs; batch_size := batch_size;
     learning_rate := S754_finite true 4503599627370496 (-52);
     val_percent := vp; save_checkpoint := true; img_scale := fhalf; amp := false;
     weight_decay := default_weight_decay; momentum := default_momentum;
     gradient_clipping := default_gradient_clipping |}.

Definition some_cli (epochs batch_size : Z) (load : option string) : cli :=
  {| cli_epochs := epochs; cli_batch_size := batch_size; cli_lr := f10;
     cli_load := load; cli_scale := fhalf; cli_val := f10; cli_amp := false |}.

(** 200 samples of which the histograms cannot be built (a parameter
    without gradient, say): everything else returns. *)
Definition no_histograms_env : env (tensor:=term) :=
  {| env_dataset := {| ds_len := 200; mask_values := [0; 1] |};
     env_shuffle := fun _ l => l;
     env_oracle := fun _ _ =>
       {| o_channels := 3; o_true_masks := Var "true_masks";
          o_forward := Ok (Var "masks_pred"); o_backward := Ok (fun p => p);
          o_train_log := None; o_histograms := Some (OtherError "TypeError");
          o_evaluate := None; o_diag_log := None |} |}.

(** A first forward pass that fails on the device, with a message that
    is not about memory; and one that runs out of memory. *)
Definition failing_forward_env (msg : string) : env (tensor:=term) :=
  {| env_dataset := {| ds_len := 10; mask_values := [0; 1] |};
     env_shuffle := fun _ l => l;
     env_oracle := fun _ _ =>
       {| o_channels := 3; o_true_masks := Var "true_masks";
          o_forward := Raise (RuntimeError msg); o_backward := Ok (fun p => p);
          o_train_log := None; o_histograms := None;
          o_evaluate := None; o_diag_log := None |} |}.

Definition device_assert_env : env (tensor:=term) :=
  failing_forward_env "CUDA error: device-side assert triggered".

Definition oom_env : env (tensor:=term) :=
  failing_forward_env "CUDA out of memory. Tried to allocate 2.00 GiB".

(** Grayscale images for a network that declares three channels. *)
Definition gray_env : env (tensor:=term) :=
  {| env_dataset := {| ds_len := 10; mask_values := [0; 1] |};
     env_shuffle := fun _ l => l;
     env_oracle := fun _ _ =>
       {| o_channels := 1; o_true_masks := Var "true_masks";
          o_forward := Ok (Var "masks_pred"); o_backward := Ok (fun p => p);
          o_train_log := None; o_histograms := None;
          o_evaluate := None; o_diag_log := None |} |}.

(** The world before [__main__] has run. *)
Definition blank : world (tensor:=term) :=
  {| w_model := UNet (net 2); w_files := ∅; w_trace := [] |}.

(** The world after one run of [__main__] that trains for one epoch on
    two samples and writes its checkpoint. *)
Definition after_first_run : world (tensor:=term) :=
  snd (main (gen:=Z) (some_cli 1 1 None) (net 2) (quiet_env 2) (quiet_env 2) blank).

(** Surroundings in which every per-batch log record fails (the
    logging service cannot be reached, say). *)
Definition failing_log_env : env (tensor:=term) :=
  {| env_dataset := {| ds_len := 10; mask_values := [0; 1] |};
     env_shuffle := fun _ l => l;
     env_oracle := fun _ _ =>
       {| o_channels := 3; o_true_masks := Var "true_masks";
          o_forward := Ok (Var "masks_pred"); o_backward := Ok (fun p => p);
          o_train_log := Some (OtherError "CommError"); o_histograms := None;
          o_evaluate := None; o_diag_log := None |} |}.

(** A checkpoint of the bare network, and the same file without its
    mask values. *)
Definition bare_weights : gmap string term := {[ "inc.weight" := Var "w1" ]}.

Definition bare_checkpoint : gmap string (entry term) :=
  <["mask_values" := MaskValues [0; 1]]> (Tensor <$> bare_weights).

Definition with_file (path : string) (d : gmap string (entry term)) : world (tensor:=term) :=
  {| w_model := UNet (net 2); w_files := {[ path := d ]}; w_trace := [] |}.

(** A checkpoint of a network for grayscale images: its weight has
    another shape than the weight of [net]. *)
Definition gray_weights : gmap string term := {[ "inc.weight" := Weight "w1" [64; 1; 3; 3] ]}.

Definition gray_checkpoint : gmap string (entry term) :=
  <["mask_values" := MaskValues [0; 1]]> (Tensor <$> gray_weights).

(** The command line with no option given: the defaults of [get_args]
    (lines 239-286), with [1e-5], [0.5] and [10.0] as binary64 values. *)
Definition default_cli : cli :=
  {| cli_epochs := 5; cli_batch_size := 2;
     cli_lr := S754_finite false 5902958103587057 (-69);
     cli_load := None;
     cli_scale := S754_finite false 4503599627370496 (-53);
     cli_val := S754_finite false 5629499534213120 (-49);
     cli_amp := false |}.

End Example.

(** * Facts

    ** Floats: rounding a product below an integer *)

Section Rounding.

Lemma digits2_pos_bounds (m : positive) :
  2 ^ (Zpos (digits2_pos m) - 1) <= Zpos m < 2 ^ Zpos (digits2_pos m).
Proof.
  induction m as [m IH|m IH|]; simpl digits2_pos.
  - rewrite Pos2Z.inj_succ. replace (Z.succ (Zpos (digits2_pos m)) - 1) with (Zpos (digits2_pos m)) by lia.
    rewrite Z.pow_succ_r by lia.
    assert (2 ^ Zpos (digits2_pos m) = 2 * 2 ^ (Zpos (digits2_pos m) - 1)) as Hp.
    { rewrite <- Z.pow_succ_r by lia. f_equal. lia. }
    lia.
  - rewrite Pos2Z.inj_succ. replace (Z.succ (Zpos (digits2_pos m)) - 1) with (Zpos (digits2_pos m)) by lia.
    rewrite Z.pow_succ_r by lia.
    assert (2 ^ Zpos (digits2_pos m) = 2 * 2 ^ (Zpos (digits2_pos m) - 1)) as Hp.
    { rewrite <- Z.pow_succ_r by lia. f_equal. lia. }
    lia.
  - simpl. lia.
Qed.

Lemma digits2_le (m : positive) (n : Z) :
  0 <= n -> Zpos m < 2 ^ n -> Zpos (digits2_pos m) <= n.
Proof.
  intros Hn Hm. destruct (digits2_pos_bounds m) as [Hlo _].
  destruct (Z_le_gt_dec (Zpos (digits2_pos m)) n) as [|Hgt]; [done|].
  assert (2 ^ n <= 2 ^ (Zpos (digits2_pos m) - 1)) by (apply Z.pow_le_mono_r; lia).
  lia.
Qed.

(** Shifting right by [p] bits divides the mantissa by [2 ^ p]. *)
Lemma shr_1_m mrs : 0 <= shr_m mrs -> shr_m (shr_1 mrs) = shr_m mrs / 2.
Proof.
  destruct mrs as [m r s]. simpl. intros Hm.
  destruct m as [|[p|p|]|p]; simpl shr_m.
  - reflexivity.
  - apply (Z.div_unique _ _ _ 1); lia.
  - apply (Z.div_unique _ _ _ 0); lia.
  - reflexivity.
  - lia.
Qed.

Lemma pow2_xO (p : positive) : 2 ^ Zpos p~0 = 2 ^ Zpos p * 2 ^ Zpos p.
Proof. rewrite Pos2Z.inj_xO, <- Z.pow_add_r by lia. f_equal. lia. Qed.

Lemma pow2_xI (p : positive) : 2 ^ Zpos p~1 = 2 * (2 ^ Zpos p * 2 ^ Zpos p).
Proof.
  rewrite Pos2Z.inj_xI, <- Z.pow_add_r, <- Z.pow_succ_r by lia. f_equal. lia.
Qed.

Lemma iter_shr_1_m (p : positive) mrs :
  0 <= shr_m mrs -> shr_m (SpecFloat.iter_pos shr_1 p mrs) = shr_m mrs / 2 ^ Zpos p.
Proof.
  revert mrs. induction p as [p IH|p IH|]; intros mrs Hm; simpl SpecFloat.iter_pos.
  - assert (H1 : 0 <= shr_m (shr_1 mrs)) by (rewrite shr_1_m by done; apply Z.div_pos; lia).
    assert (H2 : 0 <= shr_m (SpecFloat.iter_pos shr_1 p (shr_1 mrs)))
      by (rewrite IH by done; apply Z.div_pos; lia).
    rewrite IH, IH, shr_1_m by done. rewrite !Z.div_div by lia.
    by rewrite pow2_xI.
  - assert (H2 : 0 <= shr_m (SpecFloat.iter_pos shr_1 p mrs))
      by (rewrite IH by done; apply Z.div_pos; lia).
    rewrite IH, IH by done. rewrite !Z.div_div by lia.
    by rewrite pow2_xO.
  - rewrite shr_1_m by done. done.
Qed.

Lemma shr_fexp_exact (m e : Z) mrs e' :
  0 <= m ->
  shr_fexp prec emax m e loc_Exact = (mrs, e') ->
  e' = Z.max e (fexp prec emax (Zdigits2 m + e)) /\ shr_m mrs = m / 2 ^ (e' - e).
Proof.
  unfold shr_fexp, shr. intros Hm.
  destruct (fexp prec emax (Zdigits2 m + e) - e) as [|p|p] eqn:Hk; intros [= <- <-]; simpl.
  - split; [lia|]. replace (e - e) with 0 by lia. by rewrite Z.div_1_r.
  - split; [lia|]. rewrite iter_shr_1_m by done. simpl. f_equal. f_equal. lia.
  - split; [lia|]. replace (e - e) with 0 by lia. by rewrite Z.div_1_r.
Qed.

Lemma round_nearest_even_bounds m l : m <= round_nearest_even m l <= m + 1.
Proof. destruct l as [|[]]; simpl; try lia. destruct (Z.even m); lia. Qed.


(** Rounding a positive product [M * 2^-S] that lies below an integer
    [L] of at most 53 bits: the result is finite, and truncating it
    gives at most [L]. *)
Lemma round_below_integer (M : positive) (S L : Z) :
  0 <= S -> 0 < L <= 2 ^ 53 -> Zpos M < L * 2 ^ S ->
  let r := binary_round_aux prec emax false (Zpos M) (- S) loc_Exact in
  nonneg_finite r /\ exists n, int_of_float r = Ok n /\ 0 <= n <= L.
Proof.
  intros HS HL HM. unfold binary_round_aux.
  destruct (shr_fexp prec emax (Zpos M) (- S) loc_Exact) as [mrs1 e1] eqn:H1.
  apply shr_fexp_exact in H1 as [He1 Hm1]; [|lia].
  set (m2 := round_nearest_even (shr_m mrs1) (loc_of_shr_record mrs1)).
  pose proof (round_nearest_even_bounds (shr_m mrs1) (loc_of_shr_record mrs1)) as Hm2.
  fold m2 in Hm2.
  assert (Hpos1 : 0 <= shr_m mrs1) by (rewrite Hm1; apply Z.div_pos; lia).
  destruct (shr_fexp prec emax m2 e1 loc_Exact) as [mrs2 e2] eqn:H2.
  apply shr_fexp_exact in H2 as [He2 Hm3]; [|lia].
  (* the exponent after the first shift is at most 0 *)
  assert (Hd : Zpos (digits2_pos M) <= 53 + S).
  { apply digits2_le; [lia|]. rewrite Z.pow_add_r by lia.
    assert (0 < 2 ^ S) by (apply Z.pow_pos_nonneg; lia). nia. }
  unfold fexp, emin, prec, emax in He1, He2. simpl Zdigits2 in He1.
  set (k := e1 - - S) in *. set (a := - e1).
  assert (Hk : 0 <= k <= S) by lia.
  assert (Ha : 0 <= a /\ S = k + a) by lia. destruct Ha as [Ha HSka].
  assert (H2k : 0 < 2 ^ k) by (apply Z.pow_pos_nonneg; lia).
  assert (H2a : 0 < 2 ^ a) by (apply Z.pow_pos_nonneg; lia).
  assert (H2S : 2 ^ S = 2 ^ k * 2 ^ a) by (rewrite HSka, Z.pow_add_r by lia; done).
  (* the rounded mantissa, scaled back, stays below L + 1 *)
  assert (Hm2L : m2 < (L + 1) * 2 ^ a).
  { assert (shr_m mrs1 * 2 ^ k <= Zpos M).
    { rewrite Hm1, Z.mul_comm. apply Z.mul_div_le. lia. }
    assert (m2 * 2 ^ k < (L + 1) * 2 ^ a * 2 ^ k) by nia.
    nia. }
  assert (Hfloor : m2 / 2 ^ a <= L).
  { assert (m2 / 2 ^ a < L + 1); [|lia]. apply Z.div_lt_upper_bound; lia. }
  (* the second shift moves the exponent by at most one *)
  assert (He2' : e1 <= e2 <= 1).
  { split; [lia|]. destruct m2 as [|p2|p2] eqn:Hp2; simpl Zdigits2 in He2; [lia| |lia].
    assert (Zpos (digits2_pos p2) <= 54 + a); [|lia].
    apply digits2_le; [lia|]. rewrite Z.pow_add_r by lia.
    assert (L + 1 <= 2 ^ 54) by (change (2 ^ 54) with (2 * 2 ^ 53); lia). nia. }
  assert (Hpos3 : 0 <= shr_m mrs2) by (rewrite Hm3; apply Z.div_pos; [lia|apply Z.pow_pos_nonneg; lia]).
  destruct (shr_m mrs2) as [|m3|m3] eqn:Hs3; [simpl; split; [done|exists 0; split; [done|lia]]| |lia].
  destruct (e2 <=? emax - prec) eqn:Hle; [|apply Z.leb_gt in Hle; unfold emax, prec in Hle; lia].
  split; [done|]. simpl. eexists. split; [reflexivity|].
  destruct e2 as [|p|p] eqn:He2z.
  - replace (0 - e1) with a in Hm3 by lia. lia.
  - split; [lia|]. 
    replace (Zpos p - e1) with (a + Zpos p) in Hm3 by lia.
    rewrite Z.pow_add_r, <- Z.div_div in Hm3 by lia.
    assert (m2 / 2 ^ a / 2 ^ Zpos p * 2 ^ Zpos p <= m2 / 2 ^ a).
    { rewrite Z.mul_comm. apply Z.mul_div_le. apply Z.pow_pos_nonneg; lia. }
    lia.
  - assert (Zpos m3 / 2 ^ Zpos p = m2 / 2 ^ a) as ->.
    { rewrite Hm3, Z.div_div by (try apply Z.pow_pos_nonneg; lia).
      rewrite <- Z.pow_add_r by lia. do 2 f_equal. lia. }
    split; [apply Z.div_pos; lia|lia].
Qed.


Lemma binary_round_aux_exact (s : bool) (M : positive) (E : Z) :
  fexp prec emax (Zpos (digits2_pos M) + E) <= E -> E <= emax - prec ->
  binary_round_aux prec emax s (Zpos M) E loc_Exact = S754_finite s M E.
Proof.
  intros Hf HE. unfold binary_round_aux.
  assert (Hs : shr_fexp prec emax (Zpos M) E loc_Exact
               = ({| shr_m := Zpos M; shr_r := false; shr_s := false |}, E)).
  { unfold shr_fexp, shr. simpl Zdigits2.
    destruct (fexp prec emax (Zpos (digits2_pos M) + E) - E) eqn:Hk; try done. lia. }
  rewrite Hs. simpl. rewrite Hs. simpl.
  destruct (E <=? emax - prec) eqn:Hle; [done|]. apply Z.leb_gt in Hle. lia.
Qed.

Lemma pos_iter_xO (m d : positive) :
  Zpos (Pos.iter xO m d) = Zpos m * 2 ^ Zpos d
  /\ digits2_pos (Pos.iter xO m d) = (digits2_pos m + d)%positive.
Proof.
  induction d as [|d [IH1 IH2]] using Pos.peano_ind.
  - simpl. split; [lia|]. by rewrite Pos.add_1_r.
  - rewrite Pos.iter_succ. simpl digits2_pos. rewrite Pos2Z.inj_xO, IH1, IH2.
    rewrite Pos2Z.inj_succ, Z.pow_succ_r by lia. split; [ring|]. lia.
Qed.

(** An integer of at most 53 bits is a float, exactly. *)
Lemma binary_normalize_small (len : positive) :
  Zpos len < 2 ^ 53 ->
  exists mx ex,
    binary_normalize prec emax (Zpos len) 0 false = S754_finite false mx ex
    /\ ex <= 0 /\ Zpos mx = Zpos len * 2 ^ (- ex).
Proof.
  intros Hlen. simpl. unfold binary_round.
  pose proof (digits2_le len 53 ltac:(lia) Hlen) as Hd.
  unfold shl_align.
  assert (Hfexp : fexp prec emax (Zpos (digits2_pos len) + 0) = Zpos (digits2_pos len) - 53).
  { unfold fexp, emin, prec, emax. lia. }
  rewrite Hfexp.
  destruct (Zpos (digits2_pos len) - 53 - 0) as [|d|d] eqn:Hk; [|lia|].
  - exists len, 0. rewrite binary_round_aux_exact; [|rewrite Hfexp; lia|unfold emax, prec; lia].
    split; [done|]. split; [done|]. simpl. lia.
  - destruct (pos_iter_xO len d) as [Hv Hdig].
    exists (Pos.iter xO len d), (Zpos (digits2_pos len) - 53).
    rewrite binary_round_aux_exact.
    + split; [done|]. split; [lia|]. rewrite Hv. do 2 f_equal. lia.
    + rewrite Hdig. unfold fexp, emin, prec, emax. lia.
    + unfold emax, prec. lia.
Qed.

(** A float in [[0, 1)] is a zero or a positive [m * 2^e] with
    [m < 2^-e]. *)
Lemma unit_interval_float (vp : float) :
  valid_binary prec emax vp = true ->
  SFleb (S754_zero false) vp = true ->
  SFltb vp float_one = true ->
  (exists s, vp = S754_zero s)
  \/ (exists my ey, vp = S754_finite false my ey /\ ey < 0 /\ Zpos my < 2 ^ (- ey)).
Proof.
  destruct vp as [s|s| |s my ey]; [eauto|destruct s; done|done|].
  destruct s; [done|]. intros Hvalid _ Hlt. right. exists my, ey. split; [done|].
  unfold SFltb, float_one, SFcompare in Hlt.
  unfold valid_binary, bounded, canonical_mantissa in Hvalid.
  apply andb_prop in Hvalid as [Hcan _]. apply Z.eqb_eq in Hcan.
  unfold fexp, emin, prec, emax in Hcan.
  destruct (ey ?= -52) eqn:Hc; [| |done].
  - apply Z.compare_eq in Hc. subst ey.
    by destruct (Pos.compare_cont Eq my 4503599627370496) eqn:Hm.
  - change (ey < -52) in Hc. split; [lia|].
    destruct (digits2_pos_bounds my) as [_ Hhi].
    assert (2 ^ Zpos (digits2_pos my) <= 2 ^ (- ey)) by (apply Z.pow_le_mono_r; lia). lia.
Qed.


Lemma int_of_float_floor (x : float) (n : Z) :
  nonneg_finite x -> int_of_float x = Ok n -> n = Qfloor (float_value x).
Proof.
  destruct x as [s|s| |s m e]; try done.
  - intros _ [= <-]. reflexivity.
  - destruct s; [done|]. intros _ [= <-]. unfold float_value.
    destruct e as [|p|p].
    + change (Qpower 2 0) with 1%Q. rewrite Qmult_1_r. symmetry. apply Qfloor_Z.
    + rewrite <- (Zpower_Qpower 2 (Zpos p)) by lia.
      rewrite <- inject_Z_mult. symmetry. apply Qfloor_Z.
    + change (Qpower 2 (Zneg p)) with (/ Qpower 2 (Zpos p))%Q.
      rewrite <- (Zpower_Qpower 2 (Zpos p)) by lia. apply Zdiv_Qdiv.
Qed.

(** [int(len * vp)] for [0 <= len < 2^53] and [0 <= vp < 1]: the
    product is a finite float that is not negative, and its integer
    part is between 0 and [len]. *)
Lemma int_mul_float_unit_small (len : Z) (vp : float) :
  0 <= len < 2 ^ 53 ->
  valid_binary prec emax vp = true ->
  SFleb (S754_zero false) vp = true ->
  SFltb vp float_one = true ->
  exists p n,
    int_mul_float len vp = Ok p /\ nonneg_finite p
    /\ int_of_float p = Ok n /\ 0 <= n <= len.
Proof.
  intros Hlen Hvalid H0 H1. unfold int_mul_float, float_of_int.
  destruct (unit_interval_float vp Hvalid H0 H1) as [[s ->]|(my & ey & -> & Hey & Hmy)].
  - destruct len as [|l|l]; [| |lia].
    + simpl. exists (S754_zero (xorb false s)), 0. repeat split; try done; lia.
    + destruct (binary_normalize_small l) as (mx & ex & -> & _); [lia|].
      exists (S754_zero (xorb false s)), 0. simpl. repeat split; try done; lia.
  - destruct len as [|l|l]; [| |lia].
    + simpl. exists (S754_zero false), 0. repeat split; try done; lia.
    + destruct (binary_normalize_small l) as (mx & ex & -> & Hex & Hmx); [lia|].
      unfold float_mul, SFmul. simpl xorb.
      replace (ex + ey) with (- (- ex + - ey)) by lia.
      destruct (round_below_integer (mx * my) (- ex + - ey) (Zpos l)) as (Hnn & n & Hn & Hb);
        [lia|lia| |eauto 10].
      rewrite Pos2Z.inj_mul, Hmx, Z.pow_add_r by lia.
      assert (0 < 2 ^ (- ex)) by (apply Z.pow_pos_nonneg; lia). nia.
Qed.

(** ** Floats: round to nearest even, with the round and sticky bits *)

Lemma shr_1_r mrs : 0 <= shr_m mrs -> shr_r (shr_1 mrs) = Z.odd (shr_m mrs).
Proof. destruct mrs as [[|[p|p|]|p] r s]; simpl; intros H; try reflexivity; lia. Qed.

Lemma shr_1_s mrs : shr_s (shr_1 mrs) = orb (shr_r mrs) (shr_s mrs).
Proof. destruct mrs as [[|[p|p|]|[p|p|]] r s]; reflexivity. Qed.

Lemma shifted_step (M j : Z) mrs :
  0 <= M -> 0 <= j -> shifted M j mrs -> shifted M (j + 1) (shr_1 mrs).
Proof.
  intros HM Hj [Hm Hloc].
  assert (HW : 0 < 2 ^ j) by (apply Z.pow_pos_nonneg; lia).
  assert (Hpos : 0 <= shr_m mrs) by (rewrite Hm; apply Z.div_pos; lia).
  assert (HR : 0 <= M mod 2 ^ j < 2 ^ j) by (apply Z.mod_pos_bound; lia).
  split.
  - rewrite shr_1_m, Hm, Z.div_div, Z.pow_add_r by lia. done.
  - rewrite shr_1_r, shr_1_s, Hm by done.
    rewrite Z.pow_add_r, Z.rem_mul_r by lia. change (2 ^ 1) with 2.
    pose proof (Z.mod_pos_bound (M / 2 ^ j) 2 ltac:(lia)) as Hbit.
    rewrite Zodd_mod.
    destruct (Z.eqb_spec ((M / 2 ^ j) mod 2) 1) as [Hodd|Heven].
    + rewrite Hodd. unfold loc_ok in *.
      destruct (shr_r mrs), (shr_s mrs); simpl; lia.
    + assert (Hz : (M / 2 ^ j) mod 2 = 0) by lia. rewrite Hz. unfold loc_ok in *.
      destruct (shr_r mrs), (shr_s mrs); simpl; lia.
Qed.

Lemma shifted_iter (p : positive) (M j : Z) mrs :
  0 <= M -> 0 <= j -> shifted M j mrs ->
  shifted M (j + Zpos p) (SpecFloat.iter_pos shr_1 p mrs).
Proof.
  intros HM. revert j mrs.
  induction p as [p IH|p IH|]; intros j mrs Hj Hs; simpl SpecFloat.iter_pos.
  - replace (j + Zpos p~1) with (j + 1 + Zpos p + Zpos p) by lia.
    apply IH; [lia|]. apply IH; [lia|]. by apply shifted_step.
  - replace (j + Zpos p~0) with (j + Zpos p + Zpos p) by lia.
    apply IH; [lia|]. by apply IH.
  - by apply shifted_step.
Qed.

Lemma shr_fexp_shifted (M E : Z) mrs e1 :
  0 <= M ->
  shr_fexp prec emax M E loc_Exact = (mrs, e1) ->
  e1 = Z.max E (fexp prec emax (Zdigits2 M + E)) /\ shifted M (e1 - E) mrs.
Proof.
  intros HM H.
  assert (H0 : shifted M 0 (shr_record_of_loc M loc_Exact)).
  { split; simpl; [by rewrite Z.div_1_r|]. by rewrite Z.mod_1_r. }
  revert H. unfold shr_fexp, shr.
  destruct (fexp prec emax (Zdigits2 M + E) - E) as [|p|p] eqn:Hk; intros [= <- <-].
  - split; [lia|]. by replace (E - E) with 0 by lia.
  - split; [lia|]. replace (E + Zpos p - E) with (0 + Zpos p) by lia.
    by apply shifted_iter.
  - split; [lia|]. by replace (E - E) with 0 by lia.
Qed.

(** Round to nearest: down below the midpoint, up above it. *)
Lemma round_nearest_even_shifted (M j : Z) mrs :
  shifted M j mrs ->
  let m2 := round_nearest_even (shr_m mrs) (loc_of_shr_record mrs) in
  M / 2 ^ j <= m2 <= M / 2 ^ j + 1
  /\ (2 * (M mod 2 ^ j) < 2 ^ j -> m2 = M / 2 ^ j)
  /\ (2 ^ j < 2 * (M mod 2 ^ j) -> m2 = M / 2 ^ j + 1).
Proof.
  intros [Hm Hloc]. destruct mrs as [m r s]. simpl in *. subst m.
  unfold loc_ok in Hloc. destruct r, s; simpl.
  - repeat split; lia.
  - destruct (Z.even (M / 2 ^ j)); repeat split; lia.
  - repeat split; lia.
  - repeat split; lia.
Qed.

(** [binary_round_aux] on an exact positive [M * 2^E]: the mantissa is
    cut at the exponent [e1] of the format, rounded to nearest, and
    cut again where rounding has carried into a new bit. *)
Lemma binary_round_aux_spec (M : positive) (E : Z) :
  let e1 := Z.max E (fexp prec emax (Zpos (digits2_pos M) + E)) in
  let W := 2 ^ (e1 - E) in
  exists m2 m3 e3,
    Zpos M / W <= m2 <= Zpos M / W + 1
    /\ (2 * (Zpos M mod W) < W -> m2 = Zpos M / W)
    /\ (W < 2 * (Zpos M mod W) -> m2 = Zpos M / W + 1)
    /\ e3 = Z.max e1 (fexp prec emax (Zdigits2 m2 + e1))
    /\ m3 = m2 / 2 ^ (e3 - e1)
    /\ binary_round_aux prec emax false (Zpos M) E loc_Exact
       = match m3 with
         | Z0 => S754_zero false
         | Zpos m => if e3 <=? emax - prec then S754_finite false m e3
                     else S754_infinity false
         | Zneg _ => S754_nan
         end.
Proof.
  intros e1 W. subst W. unfold binary_round_aux.
  destruct (shr_fexp prec emax (Zpos M) E loc_Exact) as [mrs1 e1'] eqn:H1.
  apply shr_fexp_shifted in H1 as [He1 Hs1]; [|lia]. simpl Zdigits2 in He1.
  fold e1 in He1. subst e1'.
  destruct (round_nearest_even_shifted _ _ _ Hs1) as (Hb & Hdown & Hup).
  set (m2 := round_nearest_even (shr_m mrs1) (loc_of_shr_record mrs1)) in *.
  assert (0 < 2 ^ (e1 - E)) by (apply Z.pow_pos_nonneg; lia).
  assert (0 <= Zpos M / 2 ^ (e1 - E)) by (apply Z.div_pos; lia).
  destruct (shr_fexp prec emax m2 e1 loc_Exact) as [mrs2 e3] eqn:H2.
  apply shr_fexp_exact in H2 as [He3 Hm3]; [|lia].
  exists m2, (shr_m mrs2), e3. repeat split; try done; lia.
Qed.

(** The integer part of a rounded product, from a bound on the rounded
    mantissa [m2] at exponent [e1], in units of [2^-S]. *)
Lemma int_of_rounded_le (m2 m3 e1 e3 S len : Z) :
  0 <= m2 -> 0 <= S -> 0 <= e1 + S -> 0 <= len ->
  e1 <= e3 <= emax - prec ->
  m3 = m2 / 2 ^ (e3 - e1) ->
  m2 * 2 ^ (e1 + S) < (len + 1) * 2 ^ S ->
  let r := match m3 with
           | Z0 => S754_zero false
           | Zpos m => if e3 <=? emax - prec then S754_finite false m e3
                       else S754_infinity false
           | Zneg _ => S754_nan
           end in
  nonneg_finite r /\ exists n, int_of_float r = Ok n /\ 0 <= n <= len.
Proof.
  intros Hm2 HS He1S Hlen He3 Hm3 HP.
  assert (H2S : 0 < 2 ^ S) by (apply Z.pow_pos_nonneg; lia).
  assert (H2j : 0 < 2 ^ (e3 - e1)) by (apply Z.pow_pos_nonneg; lia).
  assert (Hpos3 : 0 <= m3) by (subst m3; apply Z.div_pos; lia).
  (* the value [m2 * 2^e1], cut to an integer, is at most [len] *)
  assert (Hcut : (0 <= e1 -> m2 * 2 ^ e1 <= len)
                 /\ (e1 <= 0 -> m2 / 2 ^ (- e1) <= len)).
  { split; intros Hsign.
    - rewrite Z.pow_add_r in HP by lia.
      assert (0 < 2 ^ e1) by (apply Z.pow_pos_nonneg; lia). nia.
    - assert (0 < 2 ^ (- e1)) by (apply Z.pow_pos_nonneg; lia).
      assert (0 < 2 ^ (e1 + S)) by (apply Z.pow_pos_nonneg; lia).
      assert (2 ^ S = 2 ^ (e1 + S) * 2 ^ (- e1))
        by (rewrite <- Z.pow_add_r by lia; f_equal; lia).
      assert (m2 < (len + 1) * 2 ^ (- e1)) by nia.
      assert (m2 / 2 ^ (- e1) < len + 1); [|lia]. apply Z.div_lt_upper_bound; lia. }
  destruct Hcut as [Hcut_pos Hcut_neg]. intros r. subst r.
  destruct m3 as [|m|m]; [simpl; split; [done|exists 0; split; [done|lia]]| |lia].
  destruct (e3 <=? emax - prec) eqn:Hle; [|apply Z.leb_gt in Hle; lia].
  split; [done|]. simpl. eexists. split; [reflexivity|].
  destruct e3 as [|p|p] eqn:He3z.
  - (* e3 = 0, so e1 <= 0 *)
    replace (0 - e1) with (- e1) in Hm3 by lia. specialize (Hcut_neg ltac:(lia)). lia.
  - split; [lia|].
    assert (Zpos m * 2 ^ (Zpos p - e1) <= m2).
    { rewrite Hm3, Z.mul_comm. apply Z.mul_div_le. lia. }
    destruct (Z_le_gt_dec 0 e1) as [Hge|Hlt].
    + specialize (Hcut_pos Hge).
      assert (2 ^ Zpos p = 2 ^ (Zpos p - e1) * 2 ^ e1)
        by (rewrite <- Z.pow_add_r by lia; f_equal; lia).
      assert (0 < 2 ^ e1) by (apply Z.pow_pos_nonneg; lia). nia.
    + specialize (Hcut_neg ltac:(lia)).
      assert (2 ^ (Zpos p - e1) = 2 ^ Zpos p * 2 ^ (- e1))
        by (rewrite <- Z.pow_add_r by lia; f_equal; lia).
      assert (0 < 2 ^ (- e1)) by (apply Z.pow_pos_nonneg; lia).
      assert (0 < 2 ^ Zpos p) by (apply Z.pow_pos_nonneg; lia).
      assert (Zpos m * 2 ^ Zpos p <= m2 / 2 ^ (- e1)); [|lia].
      apply Z.div_le_lower_bound; [lia|]. nia.
  - specialize (Hcut_neg ltac:(lia)).
    assert (Zpos m / 2 ^ Zpos p = m2 / 2 ^ (- e1)) as ->.
    { rewrite Hm3, Z.div_div by (try apply Z.pow_pos_nonneg; lia).
      rewrite <- Z.pow_add_r by lia. do 2 f_equal. lia. }
    split; [apply Z.div_pos; [lia|apply Z.pow_pos_nonneg; lia]|lia].
Qed.

Lemma unit_interval_float_bits (my : positive) (ey : Z) :
  valid_binary prec emax (S754_finite false my ey) = true ->
  Zpos my < 2 ^ (- ey) ->
  ey <= -53 /\ Zpos my < 2 ^ 53.
Proof.
  unfold valid_binary, bounded, canonical_mantissa. intros Hvalid Hmy.
  apply andb_prop in Hvalid as [Hcan _]. apply Z.eqb_eq in Hcan.
  unfold fexp, emin, prec, emax in Hcan.
  destruct (digits2_pos_bounds my) as [Hlo Hhi].
  assert (Hd : Zpos (digits2_pos my) <= 53) by lia.
  split.
  - destruct (Z_le_gt_dec ey (-53)) as [|Hgt]; [done|]. exfalso.
    assert (Zpos (digits2_pos my) = 53) by lia.
    assert (2 ^ (- ey) <= 2 ^ 52) by (apply Z.pow_le_mono_r; lia).
    replace (Zpos (digits2_pos my) - 1) with 52 in Hlo by lia. lia.
  - assert (2 ^ Zpos (digits2_pos my) <= 2 ^ 53) by (apply Z.pow_le_mono_r; lia). lia.
Qed.

(** An integer of 54 to 63 bits is rounded to a float [X] on the grid
    of [2^k], [k] being the number of bits it has too many, at most
    half a step above it. *)
Lemma binary_normalize_large (len : positive) :
  2 ^ 53 <= Zpos len < 2 ^ 63 ->
  exists mx ex k,
    binary_normalize prec emax (Zpos len) 0 false = S754_finite false mx ex
    /\ 1 <= k <= 10 /\ k <= ex <= k + 1
    /\ 2 ^ (52 + k) <= Zpos mx * 2 ^ ex <= 2 ^ (53 + k)
    /\ Zpos mx * 2 ^ ex - 2 ^ (k - 1) <= Zpos len.
Proof.
  intros Hlen. simpl. unfold binary_round, shl_align.
  destruct (digits2_pos_bounds len) as [Hlo Hhi].
  set (d := Zpos (digits2_pos len)) in *.
  assert (Hd : 54 <= d <= 63).
  { split.
    - destruct (Z_le_gt_dec 54 d) as [|Hgt]; [done|].
      assert (2 ^ d <= 2 ^ 53) by (apply Z.pow_le_mono_r; lia). lia.
    - apply digits2_le; lia. }
  assert (Hfexp : fexp prec emax (d + 0) = d - 53) by (unfold fexp, emin, prec, emax; lia).
  rewrite Hfexp.
  destruct (d - 53 - 0) as [|p|p] eqn:Hk; [lia| |lia].
  destruct (binary_round_aux_spec len 0) as (m2 & m3 & e3 & Hb & Hdown & Hup & He3 & Hm3 & ->).
  fold d in He3, Hb, Hdown, Hup, Hm3. rewrite Hfexp in *.
  set (k := d - 53) in *.
  replace (Z.max 0 k) with k in * by lia. replace (k - 0) with k in * by lia.
  assert (HW : 0 < 2 ^ k) by (apply Z.pow_pos_nonneg; lia).
  assert (Hhalf : 2 ^ k = 2 * 2 ^ (k - 1)).
  { rewrite <- Z.pow_succ_r by lia. f_equal. lia. }
  pose proof (Z.div_mod (Zpos len) (2 ^ k) ltac:(lia)) as Hdm.
  pose proof (Z.mod_pos_bound (Zpos len) (2 ^ k) HW) as HR.
  set (m1 := Zpos len / 2 ^ k) in *. set (R := Zpos len mod 2 ^ k) in *.
  (* the cut mantissa has exactly 53 bits *)
  assert (Hm1 : 2 ^ 52 <= m1 < 2 ^ 53).
  { assert (H1 : 2 ^ (d - 1) = 2 ^ 52 * 2 ^ k)
      by (rewrite <- Z.pow_add_r by lia; f_equal; lia).
    assert (H2 : 2 ^ d = 2 ^ 53 * 2 ^ k)
      by (rewrite <- Z.pow_add_r by lia; f_equal; lia).
    split; [|nia]. 
    destruct (Z_le_gt_dec (2 ^ 52) m1) as [|Hgt]; [done|]. nia. }
  assert (Hm2 : 2 ^ 52 <= m2 <= 2 ^ 53) by lia.
  assert (He3b : k <= e3 <= k + 1).
  { split; [lia|]. destruct m2 as [|p2|p2] eqn:Hp2; [lia| |lia].
    simpl Zdigits2 in He3.
    assert (Zpos (digits2_pos p2) <= 54) by (apply digits2_le; lia).
    unfold fexp, emin, prec, emax in He3. lia. }
  (* the second cut loses nothing of [2^52] *)
  assert (Hj : 0 < 2 ^ (e3 - k)) by (apply Z.pow_pos_nonneg; lia).
  assert (Hm3lo : 2 ^ 52 <= m3 * 2 ^ (e3 - k) <= m2).
  { split.
    - assert (2 ^ 52 = 2 ^ (52 - (e3 - k)) * 2 ^ (e3 - k))
        by (rewrite <- Z.pow_add_r by lia; f_equal; lia).
      assert (2 ^ (52 - (e3 - k)) <= m3); [|nia].
      rewrite Hm3. apply Z.div_le_lower_bound; [lia|]. lia.
    - rewrite Hm3, Z.mul_comm. apply Z.mul_div_le. lia. }
  assert (He3pow : 2 ^ e3 = 2 ^ (e3 - k) * 2 ^ k)
    by (rewrite <- Z.pow_add_r by lia; f_equal; lia).
  assert (H52k : 2 ^ (52 + k) = 2 ^ 52 * 2 ^ k) by (rewrite Z.pow_add_r by lia; done).
  assert (H53k : 2 ^ (53 + k) = 2 ^ 53 * 2 ^ k) by (rewrite Z.pow_add_r by lia; done).
  destruct m3 as [|mx|mx]; [nia| |nia].
  destruct (e3 <=? emax - prec) eqn:Hle; [|apply Z.leb_gt in Hle; unfold emax, prec in Hle; lia].
  exists mx, e3, k. split; [done|]. split; [lia|]. split; [lia|]. split; [nia|].
  (* rounding up only from the midpoint on *)
  destruct (Z_lt_ge_dec (2 * R) (2 ^ k)) as [Hlt|Hge].
  - specialize (Hdown Hlt). nia.
  - nia.
Qed.

(** The product of such a float [X = mx * 2^ex] with a float below 1,
    rounded: its integer part is at most the integer [X] came from. *)
Lemma round_product_large (mx my : positive) (ex ey k len : Z) :
  1 <= k <= 10 -> k <= ex <= k + 1 ->
  2 ^ (52 + k) <= Zpos mx * 2 ^ ex <= 2 ^ (53 + k) ->
  Zpos mx * 2 ^ ex - 2 ^ (k - 1) <= len ->
  ey <= -53 -> Zpos my < 2 ^ 53 ->
  let r := binary_round_aux prec emax false (Zpos (mx * my)) (ex + ey) loc_Exact in
  nonneg_finite r /\ exists n, int_of_float r = Ok n /\ 0 <= n <= len.
Proof.
  intros Hk Hex HX Hlen Hey Hmy.
  destruct (binary_round_aux_spec (mx * my) (ex + ey))
    as (m2 & m3 & e3 & Hb & Hdown & Hup & He3 & Hm3 & Hr).
  intros r. subst r. rewrite Hr. clear Hr.
  set (E := ex + ey) in *. set (S := - E).
  set (d := Zpos (digits2_pos (mx * my))) in *.
  set (e1 := Z.max E (fexp prec emax (d + E))) in *.
  set (n := e1 - E) in *. set (G := 2 ^ n) in *.
  rewrite Pos2Z.inj_mul in *. set (M := Zpos mx * Zpos my) in *.
  assert (HS : 42 <= S) by (unfold S, E; lia).
  assert (Hn : 0 <= n) by (unfold n, e1; lia).
  assert (HG : 0 < G) by (apply Z.pow_pos_nonneg; lia).
  assert (H2S : 0 < 2 ^ S) by (apply Z.pow_pos_nonneg; lia).
  assert (H2k : 2 ^ k = 2 * 2 ^ (k - 1)).
  { rewrite <- Z.pow_succ_r by lia. f_equal. lia. }
  assert (H2k1 : 0 < 2 ^ (k - 1)) by (apply Z.pow_pos_nonneg; lia).
  assert (H52k : 2 ^ (52 + k) = 2 ^ 52 * 2 ^ k) by (rewrite Z.pow_add_r by lia; done).
  assert (H53k : 2 ^ (53 + k) = 2 ^ 53 * 2 ^ k) by (rewrite Z.pow_add_r by lia; done).
  (* everything in units of [2^E] *)
  set (Xs := Zpos mx * 2 ^ (- ey)).
  assert (HXs : Xs = Zpos mx * 2 ^ ex * 2 ^ S).
  { unfold Xs. rewrite <- Z.mul_assoc, <- Z.pow_add_r by lia. do 2 f_equal. unfold S, E. lia. }
  assert (Hey53 : 2 ^ 53 <= 2 ^ (- ey)) by (apply Z.pow_le_mono_r; lia).
  assert (Fa : 2 ^ 53 * M <= (2 ^ 53 - 1) * Xs) by (unfold M, Xs; nia).
  assert (Fb : 2 ^ 52 * 2 ^ k * 2 ^ S <= Xs <= 2 ^ 53 * 2 ^ k * 2 ^ S) by nia.
  set (Hf := 2 ^ (k - 1) * 2 ^ S).
  assert (HHf : 0 < Hf) by (unfold Hf; nia).
  assert (Fc : Xs - Hf <= len * 2 ^ S) by (unfold Hf; nia).
  assert (Fd : M <= Xs - Hf) by (unfold Hf; nia).
  assert (HMpos : 0 < M) by (unfold M; lia).
  assert (Hlen0 : 0 <= len) by nia.
  (* the exponent of the format is at most [k] *)
  destruct (digits2_pos_bounds (mx * my)) as [Hdlo Hdhi].
  rewrite Pos2Z.inj_mul in Hdlo, Hdhi. fold d M in Hdlo, Hdhi.
  assert (Hd : d <= 53 + k + S).
  { unfold d. apply digits2_le; [lia|]. rewrite Pos2Z.inj_mul. fold M.
    rewrite !Z.pow_add_r by lia. nia. }
  assert (Hdpos : 0 < d) by (unfold d; lia).
  assert (He1 : e1 <= k) by (unfold e1, fexp, emin, prec, emax, S in *; lia).
  assert (Hnd : d <= 53 + n) by (unfold n, e1, fexp, emin, prec, emax; lia).
  assert (HnS : n = e1 + S) by (unfold n, S; lia).
  pose proof (Z.div_mod M G ltac:(lia)) as Hdm.
  pose proof (Z.mod_pos_bound M G HG) as HR.
  set (m1 := M / G) in *. set (R := M mod G) in *.
  assert (Hm1 : 0 <= m1 < 2 ^ 53).
  { split; [apply Z.div_pos; lia|]. apply Z.div_lt_upper_bound; [lia|].
    assert (Hdn : 2 ^ d <= 2 ^ 53 * G).
    { unfold G. rewrite <- Z.pow_add_r by lia. apply Z.pow_le_mono_r; lia. }
    lia. }
  assert (He3b : e1 <= e3 <= 11).
  { split; [lia|]. destruct m2 as [|p2|p2] eqn:Hp2; simpl Zdigits2 in He3.
    - unfold fexp, emin, prec, emax in He3. lia.
    - assert (Zpos (digits2_pos p2) <= 54) by (apply digits2_le; lia).
      unfold fexp, emin, prec, emax in He3. lia.
    - lia. }
  (* the rounded mantissa, in units, stays below [len + 1] *)
  assert (Hmain : m2 * G < (len + 1) * 2 ^ S).
  { destruct (Z.eq_dec R 0) as [HR0|HRne].
    - rewrite Hdown by lia. nia.
    - assert (HRpos : 0 < R) by lia.
      destruct (Z_le_gt_dec e1 0) as [Hle|Hgt].
      + assert (G <= 2 ^ S) by (apply Z.pow_le_mono_r; lia). nia.
      + assert (He1d : e1 = d + E - 53) by (unfold e1, fexp, emin, prec, emax in *; lia).
        assert (HMlo : 2 ^ 52 * G <= M).
        { unfold G. rewrite <- Z.pow_add_r by lia.
          replace (52 + n) with (d - 1) by (unfold n; lia). lia. }
        destruct (Z_lt_ge_dec e1 k) as [Hlt|Hge].
        * (* the midpoint below [X] is on the grid *)
          set (q := Zpos mx * 2 ^ (ex - e1) - 2 ^ (k - 1 - e1)).
          assert (Hg1 : 2 ^ ex * 2 ^ S = 2 ^ (ex - e1) * G).
          { unfold G. rewrite <- !Z.pow_add_r by lia. f_equal. lia. }
          assert (Hg2 : Hf = 2 ^ (k - 1 - e1) * G).
          { unfold G, Hf. rewrite <- !Z.pow_add_r by lia. f_equal. lia. }
          assert (Hq : Xs - Hf = q * G).
          { unfold q. rewrite HXs, Z.mul_sub_distr_r, <- Hg2, <- !Z.mul_assoc, Hg1. done. }
          assert (m1 < q) by (apply (Z.mul_lt_mono_pos_r G); lia).
          assert (m2 * G <= q * G) by (apply Z.mul_le_mono_nonneg_r; lia).
          lia.
        * (* the grid is that of [X] *)
          assert (e1 = k) by lia.
          set (q := Zpos mx * 2 ^ (ex - k)).
          assert (Hg1 : 2 ^ ex * 2 ^ S = 2 ^ (ex - k) * G).
          { unfold G. rewrite <- !Z.pow_add_r by lia. f_equal. lia. }
          assert (Hq : Xs = q * G).
          { unfold q. by rewrite HXs, <- !Z.mul_assoc, Hg1. }
          assert (HGf : G = 2 * Hf).
          { unfold G, Hf. rewrite <- Z.pow_add_r, <- Z.pow_succ_r by lia. f_equal. lia. }
          assert (Hm1q : m1 < q) by (apply (Z.mul_lt_mono_pos_r G); lia).
          destruct (Z_le_gt_dec m1 (q - 2)) as [Hle2|Hgt2].
          { assert (m2 * G <= (q - 1) * G) by (apply Z.mul_le_mono_nonneg_r; lia).
            lia. }
          assert (Hm1e : m1 = q - 1) by lia.
          assert (HqG : G * m1 = Xs - G) by (rewrite Hm1e, Hq; ring).
          destruct (Z_lt_ge_dec (2 * R) G) as [HltR|HgeR].
          -- rewrite Hdown by lia. fold m1. rewrite Z.mul_comm. lia.
          -- exfalso. lia. }
  apply (int_of_rounded_le m2 m3 e1 e3 S len); try lia.
  - unfold emax, prec. lia.
  - by rewrite <- HnS.
Qed.

(** The same for the lengths that are not floats themselves. *)
Lemma int_mul_float_unit_large (len : Z) (vp : float) :
  2 ^ 53 <= len < 2 ^ 63 ->
  valid_binary prec emax vp = true ->
  SFleb (S754_zero false) vp = true ->
  SFltb vp float_one = true ->
  exists p n,
    int_mul_float len vp = Ok p /\ nonneg_finite p
    /\ int_of_float p = Ok n /\ 0 <= n <= len.
Proof.
  intros Hlen Hvalid H0 H1. unfold int_mul_float, float_of_int.
  assert (H253 : 0 < 2 ^ 53) by (apply Z.pow_pos_nonneg; lia).
  destruct len as [|l|l]; [lia| |lia].
  destruct (binary_normalize_large l Hlen) as (mx & ex & k & -> & Hk & Hex & HX & Hl).
  destruct (unit_interval_float vp Hvalid H0 H1) as [[s ->]|(my & ey & -> & Hey & Hmy)].
  - exists (S754_zero (xorb false s)), 0. simpl. repeat split; try done; lia.
  - destruct (unit_interval_float_bits my ey Hvalid Hmy) as [Hey53 Hmy53].
    unfold float_mul, SFmul. simpl xorb.
    destruct (round_product_large mx my ex ey k (Zpos l)) as (Hnn & n & Hn & Hb);
      eauto 10.
Qed.

(** [int(len * vp)] for a length [len] of a Python sequence
    ([0 <= len < 2^63]) and [0 <= vp < 1]: the product, rounded to
    nearest, is a finite float that is not negative, and its integer
    part is between 0 and [len]. *)
Lemma int_mul_float_unit (len : Z) (vp : float) :
  0 <= len < 2 ^ 63 ->
  valid_binary prec emax vp = true ->
  SFleb (S754_zero false) vp = true ->
  SFltb vp float_one = true ->
  exists p n,
    int_mul_float len vp = Ok p /\ nonneg_finite p
    /\ int_of_float p = Ok n /\ 0 <= n <= len.
Proof.
  intros Hlen. destruct (Z_lt_ge_dec len (2 ^ 53)).
  - apply int_mul_float_unit_small. lia.
  - apply int_mul_float_unit_large. lia.
Qed.

(** ** Floats: the division by [100.0] *)

Lemma shifted_by_step (N W : Z) mrs :
  0 <= N -> shifted_by N W mrs -> shifted_by N (W * 2) (shr_1 mrs).
Proof.
  intros HN (HW & Hm & Hloc).
  assert (Hpos : 0 <= shr_m mrs) by (rewrite Hm; apply Z.div_pos; lia).
  assert (HR : 0 <= N mod W < W) by (apply Z.mod_pos_bound; lia).
  split; [lia|]. split.
  - rewrite shr_1_m, Hm, Z.div_div by lia. done.
  - rewrite shr_1_r, shr_1_s, Hm by done.
    rewrite Z.rem_mul_r by lia.
    pose proof (Z.mod_pos_bound (N / W) 2 ltac:(lia)) as Hbit.
    rewrite Zodd_mod.
    destruct (Z.eqb_spec ((N / W) mod 2) 1) as [Hodd|Heven].
    + rewrite Hodd. unfold loc_ok in *.
      destruct (shr_r mrs), (shr_s mrs); simpl; lia.
    + assert (Hz : (N / W) mod 2 = 0) by lia. rewrite Hz. unfold loc_ok in *.
      destruct (shr_r mrs), (shr_s mrs); simpl; lia.
Qed.

Lemma shifted_by_iter (p : positive) (N W : Z) mrs :
  0 <= N -> shifted_by N W mrs ->
  shifted_by N (W * 2 ^ Zpos p) (SpecFloat.iter_pos shr_1 p mrs).
Proof.
  intros HN. revert W mrs.
  induction p as [p IH|p IH|]; intros W mrs Hs; simpl SpecFloat.iter_pos.
  - rewrite pow2_xI.
    replace (W * (2 * (2 ^ Zpos p * 2 ^ Zpos p))) with (W * 2 * 2 ^ Zpos p * 2 ^ Zpos p) by ring.
    apply IH, IH. by apply shifted_by_step.
  - rewrite pow2_xO. rewrite Z.mul_assoc. by apply IH, IH.
  - change (2 ^ 1) with 2. by apply shifted_by_step.
Qed.

(** Round to nearest: down below the midpoint, up above it. *)
Lemma round_nearest_even_by (N W : Z) mrs :
  shifted_by N W mrs ->
  let m2 := round_nearest_even (shr_m mrs) (loc_of_shr_record mrs) in
  N / W <= m2 <= N / W + 1
  /\ (2 * (N mod W) < W -> m2 = N / W)
  /\ (W < 2 * (N mod W) -> m2 = N / W + 1).
Proof.
  intros (HW & Hm & Hloc). destruct mrs as [m r s]. simpl in *. subst m.
  unfold loc_ok in Hloc. destruct r, s; simpl.
  - repeat split; lia.
  - destruct (Z.even (N / W)); repeat split; lia.
  - repeat split; lia.
  - repeat split; lia.
Qed.

(** The quotient of a division with the location of its remainder. *)
Lemma new_location_shifted (N D : Z) :
  0 <= N -> 0 < D ->
  shifted_by N D (shr_record_of_loc (N / D) (new_location D (N mod D))).
Proof.
  intros HN HD. pose proof (Z.mod_pos_bound N D HD) as HR.
  split; [done|].
  unfold new_location, new_location_even, new_location_odd.
  destruct (Z.even D) eqn:Hev.
  - destruct (Z.eqb_spec (N mod D) 0) as [H0|Hn0]; [by rewrite H0|].
    destruct (2 * (N mod D) ?= D) eqn:Hc; (split; [done|]);
      cbn [shr_record_of_loc shr_m shr_r shr_s loc_ok].
    + apply Z.compare_eq in Hc. lia.
    + change (2 * (N mod D) < D) in Hc. lia.
    + change (2 * (N mod D) > D) in Hc. lia.
  - assert (Hodd : D mod 2 = 1).
    { rewrite Zeven_mod in Hev. apply Z.eqb_neq in Hev.
      pose proof (Z.mod_pos_bound D 2 ltac:(lia)). lia. }
    pose proof (Z.div_mod D 2 ltac:(lia)) as HD2.
    destruct (Z.eqb_spec (N mod D) 0) as [H0|Hn0]; [by rewrite H0|].
    destruct (2 * (N mod D) + 1 ?= D) eqn:Hc; (split; [done|]);
      cbn [shr_record_of_loc shr_m shr_r shr_s loc_ok].
    + apply Z.compare_eq in Hc. lia.
    + change (2 * (N mod D) + 1 < D) in Hc. lia.
    + change (2 * (N mod D) + 1 > D) in Hc. lia.
Qed.


(** [binary_round_aux] on the quotient of a division of [N * 2^E] by
    [D]: the quotient is cut at the exponent [e1] of the format, rounded
    to nearest, and cut again where rounding has carried into a new
    bit. *)
Lemma binary_round_aux_div_spec (N D E : Z) :
  0 <= N -> 0 < D ->
  let e1 := Z.max E (fexp prec emax (Zdigits2 (N / D) + E)) in
  let W := D * 2 ^ (e1 - E) in
  exists m2 m3 e3,
    N / W <= m2 <= N / W + 1
    /\ (2 * (N mod W) < W -> m2 = N / W)
    /\ (W < 2 * (N mod W) -> m2 = N / W + 1)
    /\ e3 = Z.max e1 (fexp prec emax (Zdigits2 m2 + e1))
    /\ m3 = m2 / 2 ^ (e3 - e1)
    /\ binary_round_aux prec emax false (N / D) E (new_location D (N mod D))
       = match m3 with
         | Z0 => S754_zero false
         | Zpos m => if e3 <=? emax - prec then S754_finite false m e3
                     else S754_infinity false
         | Zneg _ => S754_nan
         end.
Proof.
  intros HN HD e1 W. unfold binary_round_aux.
  pose proof (new_location_shifted N D HN HD) as H0.
  set (loc := new_location D (N mod D)) in *.
  assert (H1 : exists mrs1, shr_fexp prec emax (N / D) E loc = (mrs1, e1) /\ shifted_by N W mrs1).
  { unfold shr_fexp, shr. subst W e1.
    destruct (fexp prec emax (Zdigits2 (N / D) + E) - E) as [|p|p] eqn:Hk.
    - eexists. split; [f_equal; lia|]. rewrite Z.max_l by lia.
      replace (E - E) with 0 by lia. by rewrite Z.mul_1_r.
    - eexists. split; [f_equal; lia|]. rewrite Z.max_r by lia.
      replace (fexp prec emax (Zdigits2 (N / D) + E) - E) with (Zpos p) by lia.
      by apply shifted_by_iter.
    - eexists. split; [f_equal; lia|]. rewrite Z.max_l by lia.
      replace (E - E) with 0 by lia. by rewrite Z.mul_1_r. }
  destruct H1 as (mrs1 & -> & Hs1).
  destruct (round_nearest_even_by _ _ _ Hs1) as (Hb & Hdown & Hup).
  set (m2 := round_nearest_even (shr_m mrs1) (loc_of_shr_record mrs1)) in *.
  assert (HW : 0 < W) by (by destruct Hs1).
  assert (0 <= N / W) by (apply Z.div_pos; lia).
  destruct (shr_fexp prec emax m2 e1 loc_Exact) as [mrs2 e3] eqn:H2.
  apply shr_fexp_exact in H2 as [He3 Hm3]; [|lia].
  exists m2, (shr_m mrs2), e3. repeat split; try done; lia.
Qed.

Lemma Zdigits2_bounds (m : Z) :
  0 < m -> 2 ^ (Zdigits2 m - 1) <= m < 2 ^ Zdigits2 m.
Proof. destruct m as [|p|p]; [lia| |lia]. intros _. apply digits2_pos_bounds. Qed.

Lemma Zdigits2_unique (m k : Z) :
  2 ^ (k - 1) <= m < 2 ^ k -> 0 < k -> Zdigits2 m = k.
Proof.
  intros Hm Hk.
  assert (0 < m) by (assert (0 < 2 ^ (k - 1)) by (apply Z.pow_pos_nonneg; lia); lia).
  destruct (Zdigits2_bounds m) as [Hlo Hhi]; [done|].
  assert (Hd : 0 < Zdigits2 m) by (destruct m; simpl; lia).
  destruct (Z_lt_ge_dec (Zdigits2 m) k) as [Hlt|Hge].
  - assert (2 ^ Zdigits2 m <= 2 ^ (k - 1)) by (apply Z.pow_le_mono_r; lia). lia.
  - destruct (Z_lt_ge_dec k (Zdigits2 m)) as [Hlt|Hge']; [|lia].
    assert (2 ^ k <= 2 ^ (Zdigits2 m - 1)) by (apply Z.pow_le_mono_r; lia). lia.
Qed.

Lemma Zdigits2_le (m n : Z) : 0 <= m -> 0 <= n -> m < 2 ^ n -> Zdigits2 m <= n.
Proof.
  intros Hm Hn Hlt. destruct m as [|p|p]; [simpl; lia| |lia]. by apply digits2_le.
Qed.

Lemma Zdigits2_ge (m k : Z) : 2 ^ (k - 1) <= m -> 0 < m -> k <= Zdigits2 m.
Proof.
  intros Hm Hpos. destruct (Zdigits2_bounds m Hpos) as [_ Hhi].
  destruct (Z_le_gt_dec k (Zdigits2 m)) as [|Hgt]; [done|].
  assert (0 <= Zdigits2 m) by (destruct m; simpl; lia).
  assert (2 ^ Zdigits2 m <= 2 ^ (k - 1)) by (apply Z.pow_le_mono_r; lia). lia.
Qed.

(** A mantissa of the format at exponent [e1], rounded up by at most
    one: the result of the second cut is a valid float of the same
    value. *)
Lemma rounded_mantissa_valid (m1 m2 e1 : Z) :
  3 - emax - prec <= e1 < emax - prec ->
  (e1 = 3 - emax - prec /\ 0 <= m1 < 2 ^ 53) \/ 2 ^ 52 <= m1 < 2 ^ 53 ->
  m1 <= m2 <= m1 + 1 ->
  let e3 := Z.max e1 (fexp prec emax (Zdigits2 m2 + e1)) in
  let m3 := m2 / 2 ^ (e3 - e1) in
  valid_binary prec emax
    match m3 with
    | Z0 => S754_zero false
    | Zpos m => if e3 <=? emax - prec then S754_finite false m e3
                else S754_infinity false
    | Zneg _ => S754_nan
    end = true
  /\ (e3 = e1 /\ m3 = m2 \/ e3 = e1 + 1 /\ m2 = 2 ^ 53 /\ m3 = 2 ^ 52).
Proof.
  intros He1 Hm1 Hm2 e3 m3. unfold prec, emax in *.
  assert (H53 : 2 ^ 53 = 2 * 2 ^ 52) by reflexivity.
  assert (H52 : 0 < 2 ^ 52) by reflexivity.
  assert (Hm2pos : 0 <= m2) by lia.
  destruct (Z_lt_ge_dec m2 (2 ^ 53)) as [Hlt|Hge].
  - (* no carry *)
    assert (Hd : Zdigits2 m2 <= 53) by (apply Zdigits2_le; lia).
    assert (Hd0 : 0 <= Zdigits2 m2) by (destruct m2; simpl; lia).
    assert (He3 : e3 = e1) by (subst e3; unfold fexp, emin; lia).
    assert (Hm3 : m3 = m2).
    { subst m3. rewrite He3. replace (e1 - e1) with 0 by lia. apply Z.div_1_r. }
    split; [|left; done]. rewrite Hm3, He3.
    destruct m2 as [|p|p]; [done| |lia].
    destruct (e1 <=? _) eqn:Hle; [|apply Z.leb_gt in Hle; lia].
    unfold valid_binary, bounded, canonical_mantissa.
    apply andb_true_iff. split; [|apply Z.leb_le; lia].
    apply Z.eqb_eq. simpl Zdigits2 in *.
    destruct Hm1 as [[-> _]|Hbig].
    + unfold fexp, emin. lia.
    + assert (Zpos (digits2_pos p) = 53).
      { apply (Zdigits2_unique (Zpos p)); lia. }
      unfold fexp, emin. lia.
  - (* the mantissa has become [2^53] *)
    assert (Hm2e : m2 = 2 ^ 53) by lia.
    assert (Hd : Zdigits2 m2 = 54).
    { apply Zdigits2_unique; [|lia]. rewrite Hm2e. split; [done|].
      apply Z.pow_lt_mono_r; lia. }
    assert (He3 : e3 = e1 + 1) by (subst e3; rewrite Hd; unfold fexp, emin; lia).
    assert (Hm3 : m3 = 2 ^ 52).
    { subst m3. rewrite He3, Hm2e. replace (e1 + 1 - e1) with 1 by lia. reflexivity. }
    split; [|right; done]. rewrite Hm3, He3.
    change (2 ^ 52) with (Zpos 4503599627370496).
    destruct (e1 + 1 <=? _) eqn:Hle; [|apply Z.leb_gt in Hle; lia].
    unfold valid_binary, bounded, canonical_mantissa.
    apply andb_true_iff. split; [|apply Z.leb_le; lia].
    apply Z.eqb_eq.
    assert (Hd52 : Zpos (digits2_pos 4503599627370496) = 53) by (vm_compute; reflexivity).
    rewrite Hd52. unfold fexp, emin. lia.
Qed.

Lemma float_100_eq : binary_normalize prec emax 100 0 false = float_100.
Proof. vm_compute. reflexivity. Qed.

(** What [v < 100.0] says of a valid positive float [mx * 2^ex]. *)
Lemma below_100_float (mx : positive) (ex : Z) :
  valid_binary prec emax (S754_finite false mx ex) = true ->
  SFltb (S754_finite false mx ex) float_100 = true ->
  Zpos (digits2_pos mx) <= 53
  /\ ex = Z.max (Zpos (digits2_pos mx) + ex - 53) (-1074)
  /\ ex <= -46
  /\ Zpos mx * 2 ^ 54 < 100 * (2 ^ 54 - 1) * 2 ^ (- ex).
Proof.
  intros Hvalid Hlt.
  unfold valid_binary, bounded, canonical_mantissa in Hvalid.
  apply andb_prop in Hvalid as [Hcan _]. apply Z.eqb_eq in Hcan.
  unfold fexp, emin, prec, emax in Hcan.
  destruct (digits2_pos_bounds mx) as [Hlo Hhi].
  set (d1 := Zpos (digits2_pos mx)) in *.
  assert (Hd1 : d1 <= 53) by lia.
  assert (H54 : 2 ^ 54 = 18014398509481984) by reflexivity.
  assert (H46 : 2 ^ 46 = 70368744177664) by reflexivity.
  assert (H47 : 2 ^ 47 = 140737488355328) by reflexivity.
  assert (H53 : 2 ^ 53 = 9007199254740992) by reflexivity.
  unfold SFltb, float_100, SFcompare in Hlt.
  destruct (ex ?= -46) eqn:Hc; [| |done].
  - apply Z.compare_eq in Hc. subst ex.
    destruct (Pos.compare_cont Eq mx 7036874417766400) eqn:Hm; try done.
    assert (Hmx : Zpos mx < 7036874417766400) by (apply Pos2Z.pos_lt_pos; exact Hm).
    clear Hm Hlt.
    split; [lia|]. split; [lia|]. split; [lia|].
    change (- -46) with 46. rewrite H54, H46. lia.
  - change (ex < -46) in Hc. split; [lia|]. split; [lia|]. split; [lia|].
    assert (Hmx : Zpos mx < 2 ^ 53).
    { assert (2 ^ d1 <= 2 ^ 53) by (apply Z.pow_le_mono_r; lia). lia. }
    assert (HP : 2 ^ 47 <= 2 ^ (- ex)) by (apply Z.pow_le_mono_r; lia).
    rewrite H54. rewrite H53 in Hmx. rewrite H47 in HP. nia.
Qed.

(** The quotient [N / D] and the exponent [E] the division by [100.0]
    starts from. *)
Lemma div_core_100 (mx : positive) (ex : Z) :
  Zpos (digits2_pos mx) <= 53 ->
  ex = Z.max (Zpos (digits2_pos mx) + ex - 53) (-1074) ->
  let E := fexp prec emax (Zpos (digits2_pos mx) + ex - 7) in
  let N := Zpos mx * 2 ^ (ex + 46 - E) in
  let D := 7036874417766400 in
  E <= ex + 46 - 1
  /\ SFdiv_core_binary prec emax (Zpos mx) ex D (-46)
     = (N / D, E, new_location D (N mod D)).
Proof.
  intros Hd1 Hcan E N D.
  assert (HE : E <= ex + 46 - 1) by (subst E; unfold fexp, emin, prec, emax; lia).
  split; [done|]. unfold SFdiv_core_binary. cbv zeta.
  assert (Hd2 : Zdigits2 D = 53) by (vm_compute; reflexivity).
  rewrite Hd2. simpl Zdigits2.
  replace (Zpos (digits2_pos mx) + ex - (53 + -46)) with (Zpos (digits2_pos mx) + ex - 7) by lia.
  fold E. replace (ex - -46) with (ex + 46) by lia.
  rewrite Z.min_l by lia.
  destruct (ex + 46 - E) as [|s|s] eqn:Hs; [lia| |lia].
  rewrite Z.shiftl_mul_pow2 by lia. subst N. rewrite ?Hs.
  unfold Z.div, Z.modulo.
  by destruct (Z.div_eucl (Zpos mx * 2 ^ Zpos s) D) as [q r].
Qed.

(** [v / 100] for a float [0 < v < 100]: a float in [[0, 1)]. *)
Lemma percent_of_positive (mx : positive) (ex : Z) :
  valid_binary prec emax (S754_finite false mx ex) = true ->
  SFltb (S754_finite false mx ex) float_100 = true ->
  let r := percent (S754_finite false mx ex) in
  valid_binary prec emax r = true
  /\ SFleb (S754_zero false) r = true
  /\ SFltb r float_one = true.
Proof.
  intros Hvalid Hlt.
  destruct (below_100_float mx ex Hvalid Hlt) as (Hd1 & Hcan & Hex & Hval).
  destruct (div_core_100 mx ex Hd1 Hcan) as [HEs Hcore].
  destruct (digits2_pos_bounds mx) as [Hlo Hhi].
  set (d1 := Zpos (digits2_pos mx)) in *.
  set (E := fexp prec emax (d1 + ex - 7)) in *.
  set (s := ex + 46 - E) in *.
  set (N := Zpos mx * 2 ^ s) in *.
  set (D := 7036874417766400) in *.
  intros r. subst r. unfold percent. rewrite float_100_eq. unfold float_100, SFdiv.
  fold D. rewrite Hcore. change (xorb false false) with false.
  clear Hcore Hvalid Hlt.
  (* the numbers involved *)
  assert (HD : D = 100 * 2 ^ 46) by reflexivity.
  assert (H46 : 0 < 2 ^ 46) by reflexivity.
  assert (H53 : 2 ^ 53 = 2 * 2 ^ 52) by reflexivity.
  assert (H52 : 0 < 2 ^ 52) by reflexivity.
  assert (H54 : 2 ^ 54 = 2 * 2 ^ 53) by reflexivity.
  assert (HD53 : 2 ^ 52 <= D < 2 ^ 53) by (split; [discriminate|reflexivity]).
  assert (Hd1pos : 0 < d1) by (subst d1; lia).
  assert (HEdef : E = Z.max (d1 + ex - 60) (-1074))
    by (subst E; unfold fexp, emin, prec, emax; lia).
  assert (HEneg : E <= -53) by lia.
  assert (Hs : 1 <= s) by (subst s; lia).
  assert (H2s : 0 < 2 ^ s) by (apply Z.pow_pos_nonneg; lia).
  assert (H2E : 0 < 2 ^ (- E)) by (apply Z.pow_pos_nonneg; lia).
  assert (H2ex : 0 < 2 ^ (- ex)) by (apply Z.pow_pos_nonneg; lia).
  assert (HN : 0 < N) by (subst N; lia).
  assert (HDpos : 0 < D) by lia.
  set (U := D * 2 ^ (- E)).
  (* [N * 2^E / D < 1 - 2^-54] *)
  assert (HU : 2 ^ (- ex) * 2 ^ s * 100 = U * 2 ^ 0 /\ U = 100 * (2 ^ (- ex) * 2 ^ s)).
  { subst U. rewrite HD, <- Z.pow_add_r by lia. subst s.
    replace (- ex + (ex + 46 - E)) with (46 + - E) by lia.
    rewrite Z.pow_add_r by lia. split; ring. }
  destruct HU as [_ HU].
  assert (Hfar : N * 2 ^ 54 < U * 2 ^ 54 - U).
  { subst N. rewrite HU.
    assert (Zpos mx * 2 ^ 54 * 2 ^ s < 100 * (2 ^ 54 - 1) * 2 ^ (- ex) * 2 ^ s)
      by (apply Z.mul_lt_mono_pos_r; lia).
    lia. }
  assert (HUpos : 0 < U) by (subst U; lia).
  assert (HNU : N < U) by lia.
  (* the quotient and its digits *)
  set (q := N / D) in *.
  assert (Hq0 : 0 <= q) by (apply Z.div_pos; lia).
  assert (Hq : q < 2 ^ (- E)).
  { apply Z.div_lt_upper_bound; [lia|]. subst U. lia. }
  set (dq := Zdigits2 q) in *.
  assert (Hdq0 : 0 <= dq) by (subst dq; destruct q; simpl; lia).
  assert (Hdq : dq <= - E) by (apply Zdigits2_le; lia).
  assert (Hdqlo : d1 + s - 53 <= dq).
  { destruct (Z_le_gt_dec (d1 + s - 53) 0) as [|Hgt]; [lia|].
    apply Zdigits2_ge.
    - assert (Hpow : 2 ^ (d1 - 1) * 2 ^ s = 2 ^ 53 * 2 ^ (d1 + s - 53 - 1)).
      { rewrite <- !Z.pow_add_r by lia. f_equal. lia. }
      assert (0 < 2 ^ (d1 + s - 53 - 1)) by (apply Z.pow_pos_nonneg; lia).
      apply Z.div_le_lower_bound; [lia|]. subst N. nia.
    - apply Z.div_str_pos. split; [lia|].
      assert (Hpow : 2 ^ (d1 - 1) * 2 ^ s = 2 ^ 53 * 2 ^ (d1 + s - 53 - 1)).
      { rewrite <- !Z.pow_add_r by lia. f_equal. lia. }
      assert (0 < 2 ^ (d1 + s - 53 - 1)) by (apply Z.pow_pos_nonneg; lia).
      subst N. nia. }
  destruct (binary_round_aux_div_spec N D E ltac:(lia) HDpos)
    as (m2 & m3 & e3 & Hb & Hdown & Hup & He3 & Hm3 & Hres).
  fold q in Hb, Hdown, Hup, He3, Hm3, Hres. fold dq in Hb, Hdown, Hup, He3, Hm3.
  rewrite Hres. clear Hres.
  set (e1 := Z.max E (fexp prec emax (dq + E))) in *.
  assert (He1 : e1 = Z.max (dq + E - 53) (-1074))
    by (subst e1 s; unfold fexp, emin, prec, emax; lia).
  set (j := e1 - E) in *.
  assert (Hj : 0 <= j) by (subst j; lia).
  assert (H2j : 0 < 2 ^ j) by (apply Z.pow_pos_nonneg; lia).
  set (W := D * 2 ^ j) in *.
  assert (HW : 0 < W) by (subst W; lia).
  set (m1 := N / W) in *.
  assert (Hm1 : m1 = q / 2 ^ j) by (subst m1 W q; rewrite Z.div_div by lia; done).
  assert (Hm1pos : 0 <= m1) by (subst m1; apply Z.div_pos; lia).
  (* the mantissa fits the format *)
  assert (Hfits : (e1 = 3 - emax - prec /\ 0 <= m1 < 2 ^ 53) \/ 2 ^ 52 <= m1 < 2 ^ 53).
  { destruct (Z_le_gt_dec (dq + E - 53) (-1074)) as [Hsub|Hnorm].
    - left. split; [unfold emax, prec; lia|]. split; [done|]. rewrite Hm1.
      apply Z.div_lt_upper_bound; [lia|].
      destruct (Z.eq_dec q 0) as [->|Hq1]; [lia|].
      destruct (Zdigits2_bounds q ltac:(lia)) as [_ Hqhi]. fold dq in Hqhi.
      assert (2 ^ dq <= 2 ^ (j + 53)) by (apply Z.pow_le_mono_r; subst j; lia).
      rewrite Z.pow_add_r in * by lia. lia.
    - right. assert (Hjd : j = dq - 53) by (subst j; lia).
      assert (Hqpos : 0 < q) by (destruct q; simpl in *; subst dq; simpl in *; lia).
      destruct (Zdigits2_bounds q Hqpos) as [Hqlo Hqhi]. fold dq in Hqlo, Hqhi.
      assert (Hp1 : 2 ^ (dq - 1) = 2 ^ 52 * 2 ^ j).
      { rewrite <- Z.pow_add_r by lia. f_equal. lia. }
      assert (Hp2 : 2 ^ dq = 2 ^ 53 * 2 ^ j).
      { rewrite <- Z.pow_add_r by lia. f_equal. lia. }
      rewrite Hm1. split.
      + apply Z.div_le_lower_bound; lia.
      + apply Z.div_lt_upper_bound; lia. }
  (* rounding stays below one *)
  set (T := 2 ^ (- e1)).
  assert (HT : 2 ^ 53 <= T) by (subst T; apply Z.pow_le_mono_r; lia).
  assert (HWT : W * T = U).
  { subst W T U. rewrite <- Z.mul_assoc, <- Z.pow_add_r by lia. do 2 f_equal. subst j. lia. }
  assert (Hm1T : m1 < T).
  { subst m1. apply Z.div_lt_upper_bound; lia. }
  assert (Hm2T : m2 < T).
  { destruct (Z_le_gt_dec m1 (T - 2)) as [|Hgt]; [lia|].
    assert (Hm1e : m1 = T - 1) by lia.
    pose proof (Z.div_mod N W ltac:(lia)) as Hdm. fold m1 in Hdm.
    assert (HWm : W * m1 = U - W) by (rewrite Hm1e, <- HWT; ring).
    assert (HWTle : W * 2 ^ 53 <= U) by (rewrite <- HWT; apply Z.mul_le_mono_nonneg_l; lia).
    rewrite Hdown; lia. }
  destruct (rounded_mantissa_valid m1 m2 e1) as [Hv Hshape];
    [unfold emax, prec; lia|done|lia|].
  cbv zeta in Hv. rewrite <- He3, <- Hm3 in Hv, Hshape.
  split; [exact Hv|].
  assert (He3lt : e3 < -52).
  { destruct Hshape as [[-> _]|(-> & Hm2e & _)]; [lia|].
    destruct (Z_le_gt_dec e1 (-54)) as [|Hgt]; [lia|].
    assert (e1 = -53) by lia. subst T. replace (- e1) with 53 in * by lia. lia. }
  assert (Hm3pos : 0 <= m3).
  { destruct Hshape as [[_ ->]|(_ & _ & ->)]; lia. }
  destruct m3 as [|m|m]; [done| |lia].
  destruct (e3 <=? emax - prec) eqn:Hle; [|apply Z.leb_gt in Hle; unfold emax, prec in Hle; lia].
  split; [done|].
  unfold SFltb, SFcompare, float_one.
  assert (Hc : (e3 ?= -52) = Lt) by (by apply Z.compare_lt_iff).
  by rewrite Hc.
Qed.

(** The script's [args.val / 100] for a float [0 <= v < 100]. *)
Lemma percent_fraction (v : float) :
  valid_binary prec emax v = true ->
  SFleb (S754_zero false) v = true ->
  SFltb v float_100 = true ->
  valid_binary prec emax (percent v) = true
  /\ SFleb (S754_zero false) (percent v) = true
  /\ SFltb (percent v) float_one = true.
Proof.
  destruct v as [s|s| |s mx ex].
  - intros _ _ _. unfold percent. rewrite float_100_eq.
    destruct s; (split; [reflexivity|split; reflexivity]).
  - intros _ H0 H1. destruct s; [discriminate H0|discriminate H1].
  - intros _ H0 _. discriminate H0.
  - destruct s; [intros _ H0 _; discriminate H0|].
    intros Hvalid _ Hlt. by apply percent_of_positive.
Qed.
End Rounding.

(** ** The script *)

Section Facts.
Context {tensor gen : Type} `{!TensorOps tensor} `{!Random gen}.
Implicit Types (w : world (tensor:=tensor)) (t : list (event (tensor:=tensor))).

Lemma log_steps_app t1 t2 : log_steps (t1 ++ t2) = log_steps t1 ++ log_steps t2.
Proof. apply omap_app. Qed.

Lemma validation_calls_app t1 t2 :
  validation_calls (t1 ++ t2) = validation_calls t1 ++ validation_calls t2.
Proof. apply omap_app. Qed.

Ltac run H :=
  repeat (simpl in H;
          match type of H with
          | context [match ?x with _ => _ end] =>
              lazymatch x with
              | context [match _ with _ => _ end] => fail
              | context [if _ then _ else _] => fail
              | _ => destruct x eqn:?
              end
          | context [if ?b then _ else _] =>
              lazymatch b with
              | context [match _ with _ => _ end] => fail
              | context [if _ then _ else _] => fail
              | _ => destruct b eqn:?
              end
          end);
  simpl in H; inversion H; subst; clear H.

Ltac trace_ex :=
  first [ exists []; split; [by rewrite app_nil_r|]
        | eexists; split; [simpl; rewrite <- ?app_assoc; reflexivity|] ].

Lemma validation_round_post e vl o g w r w' :
  validation_round e vl o g w = (r, w') ->
  exists t, w_trace w' = w_trace w ++ t /\ w_files w' = w_files w
    /\ w_model w' = w_model w /\ log_steps t = []
    /\ match r with
       | Ok _ => validation_calls t = round_calls g
       | Raise _ => validation_calls t `prefix_of` round_calls g
       end.
Proof.
  unfold validation_round, try_except_pass, bind, emit, call, ret, raise. intros H.
  run H; trace_ex; repeat split; try reflexivity; by eexists.
Qed.

Lemma due_calls_cases a n_train g d :
  floordiv n_train (200 * batch_size a) = Ok d ->
  due_calls a n_train g =
    if d >? 0 then
      match mod_ g d with
      | Ok r => if r =? 0 then round_calls g else []
      | Raise _ => []
      end
    else [].
Proof.
  unfold floordiv, mod_, due_calls, validation_due, division_step.
  destruct (200 * batch_size a =? 0); [done|]. intros [= <-].
  rewrite Z.gtb_ltb. destruct (0 <? _) eqn:Hd; simpl; [|done].
  apply Z.ltb_lt in Hd.
  destruct (n_train / (200 * batch_size a) =? 0) eqn:Hz; [apply Z.eqb_eq in Hz; lia|].
  reflexivity.
Qed.

Lemma steps_S g0 k : steps g0 (S k) = (g0 + 1) :: steps (g0 + 1) k.
Proof.
  unfold steps. simpl. f_equal. rewrite <- seq_shift, map_map.
  apply map_ext. intros i. lia.
Qed.

Lemma steps_app g0 k1 k2 :
  steps g0 (k1 + k2) = steps g0 k1 ++ steps (g0 + Z.of_nat k1) k2.
Proof.
  revert g0. induction k1 as [|k1 IH]; intros g0.
  - simpl. by rewrite Z.add_0_r.
  - rewrite Nat.add_succ_l, !steps_S, IH. simpl. do 3 f_equal. lia.
Qed.

Lemma rounds_due_app a n_train gs1 gs2 :
  rounds_due a n_train (gs1 ++ gs2) = rounds_due a n_train gs1 ++ rounds_due a n_train gs2.
Proof. apply flat_map_app. Qed.

Lemma run_post_nil a n_train g0 w : run_post a n_train g0 0 (Ok g0) w w.
Proof. exists []. rewrite app_nil_r, Z.add_0_r. done. Qed.

Lemma run_post_seq a n_train g0 g1 k1 k2 r w w1 w2 :
  run_post a n_train g0 k1 (Ok g1) w w1 ->
  run_post a n_train g1 k2 r w1 w2 ->
  run_post a n_train g0 (k1 + k2) r w w2.
Proof.
  intros (t1 & Ht1 & -> & Hl1 & Hv1) (t2 & Ht2 & H2).
  exists (t1 ++ t2). split; [by rewrite Ht2, Ht1, app_assoc|].
  rewrite log_steps_app, validation_calls_app, steps_app, rounds_due_app, Hl1, Hv1.
  destruct r as [g2|ex].
  - destruct H2 as (-> & -> & ->). repeat split. lia.
  - destruct H2 as [Hl2 Hv2]. split; by apply prefix_app.
Qed.

Lemma run_post_raise a n_train g0 k1 k2 ex w w1 :
  run_post a n_train g0 k1 (Raise ex) w w1 ->
  run_post a n_train g0 (k1 + k2) (Raise ex) w w1.
Proof.
  intros (t1 & Ht1 & Hl1 & Hv1). exists t1. split; [done|].
  rewrite steps_app, rounds_due_app. split; by apply prefix_app_r.
Qed.

(** Calls that are neither log records nor validation calls. *)
Lemma run_post_silent_l a n_train g0 k r w w1 w2 t :
  w_trace w1 = w_trace w ++ t -> log_steps t = [] -> validation_calls t = [] ->
  run_post a n_train g0 k r w1 w2 -> run_post a n_train g0 k r w w2.
Proof.
  intros Ht Hl Hv (t2 & Ht2 & H2). exists (t ++ t2).
  split; [by rewrite Ht2, Ht, app_assoc|].
  by rewrite log_steps_app, validation_calls_app, Hl, Hv.
Qed.

Lemma run_post_silent_r a n_train g0 k r w w1 w2 t :
  w_trace w2 = w_trace w1 ++ t -> log_steps t = [] -> validation_calls t = [] ->
  run_post a n_train g0 k r w w1 -> run_post a n_train g0 k r w w2.
Proof.
  intros Ht Hl Hv (t1 & Ht1 & H1). exists (t1 ++ t).
  split; [by rewrite Ht, Ht1, app_assoc|].
  by rewrite log_steps_app, validation_calls_app, Hl, Hv, !app_nil_r.
Qed.

Lemma run_post_one a n_train g r w w' :
  (exists t, w_trace w' = w_trace w ++ t /\
     match r with
     | Ok g' => g' = g + 1 /\ log_steps t = [g + 1]
                /\ validation_calls t = due_calls a n_train (g + 1)
     | Raise _ => log_steps t `prefix_of` [g + 1]
                  /\ validation_calls t `prefix_of` due_calls a n_train (g + 1)
     end) ->
  run_post a n_train g 1 r w w'.
Proof.
  intros (t & Ht & H). exists t. split; [done|].
  unfold rounds_due, steps. simpl. rewrite app_nil_r.
  destruct r; [|done]. destruct H as (-> & ? & ?). done.
Qed.

Lemma train_batch_post a e n_train crit vl epoch g samples w r w' :
  train_batch a e n_train crit vl epoch g samples w = (r, w') ->
  run_post a n_train g 1 r w w'.
Proof.
  intros H. apply run_post_one. revert H.
  unfold train_batch, bind, lift, get_model, set_model, emit, ret, raise, call.
  intros H.
  run H;
    try match goal with
        | Hd : floordiv _ _ = Ok _ |- _ => rewrite (due_calls_cases _ _ _ _ Hd)
        end;
    repeat match goal with Hx : _ = _ |- _ => rewrite Hx end;
    try (trace_ex; repeat split; try reflexivity; try (by eexists); try apply prefix_nil).
  all: match goal with
       | Hv : validation_round _ _ _ _ _ = _ |- _ =>
           apply validation_round_post in Hv; simpl in Hv;
           destruct Hv as (tv & Htv & Hfv & _ & Hlv & Hcv); rewrite Htv
       end;
    eexists; (split; [rewrite <- !app_assoc; reflexivity|]);
    rewrite !log_steps_app, !validation_calls_app, Hlv; simpl;
    repeat split; try done.
Qed.

Lemma for_each_batch_post a e n_train crit vl epoch xs g w r w' :
  for_each (train_batch a e n_train crit vl epoch) xs g w = (r, w') ->
  run_post a n_train g (length xs) r w w'.
Proof.
  revert g w. induction xs as [|x xs IH]; intros g w; simpl.
  - intros [= <- <-]. apply run_post_nil.
  - unfold bind. destruct (train_batch _ _ _ _ _ _ _ _ _) as [[g1|ex] w1] eqn:Hb;
      apply train_batch_post in Hb.
    + intros Hrest. apply IH in Hrest. apply (run_post_seq _ _ _ _ 1 _ _ _ _ _ Hb Hrest).
    + intros [= <- <-]. apply (run_post_raise _ _ _ 1 _ _ _ _ Hb).
Qed.

Lemma train_epoch_post a e n_train crit dl vl g epoch w r w' :
  train_epoch a e n_train crit dl vl g epoch w = (r, w') ->
  run_post a n_train g (length (batches_of_epoch e dl epoch)) r w w'.
Proof.
  unfold train_epoch, write_checkpoint, bind, emit, ret, get_model, write_file. simpl.
  destruct (for_each _ _ _ _) as [[g1|ex] w1] eqn:Hb; apply for_each_batch_post in Hb.
  - destruct (save_checkpoint a); simpl; intros [= <- <-].
    + eapply run_post_silent_r; [| | |eapply run_post_silent_l; [| | |exact Hb]];
        simpl; try reflexivity.
    + eapply run_post_silent_l; [| | |exact Hb]; simpl; reflexivity.
  - intros [= <- <-]. eapply run_post_silent_l; [| | |exact Hb]; simpl; reflexivity.
Qed.

Lemma epochs_post a e n_train crit dl vl eps g w r w' :
  for_each (train_epoch a e n_train crit dl vl) eps g w = (r, w') ->
  run_post a n_train g (planned_steps e dl eps) r w w'.
Proof.
  revert g w. induction eps as [|ep eps IH]; intros g w; simpl.
  - intros [= <- <-]. apply run_post_nil.
  - unfold bind. destruct (train_epoch _ _ _ _ _ _ _ _ _) as [[g1|ex] w1] eqn:Hb;
      apply train_epoch_post in Hb.
    + intros Hrest. apply IH in Hrest. apply (run_post_seq _ _ _ _ _ _ _ _ _ _ Hb Hrest).
    + intros [= <- <-]. apply (run_post_raise _ _ _ _ _ _ _ _ Hb).
Qed.

Lemma events_of_app {A} (m : M A) w t :
  w_trace (m w).2 = w_trace w ++ t -> events_of m w = t.
Proof. unfold events_of. intros ->. apply drop_app_length. Qed.

Lemma train_model_world a e w : (train_model a e w).2 = (train_model_steps a e w).2.
Proof. unfold train_model, bind, ret. by destruct (train_model_steps a e w) as [[?|?] ?]. Qed.

Lemma events_of_train_model a e w :
  events_of (train_model a e) w = events_of (train_model_steps a e) w.
Proof. unfold events_of. by rewrite train_model_world. Qed.

(** *** The preamble of [train_model] *)

Lemma DataLoader_Ok dataset shuffle drop_last bs :
  0 < bs -> (shuffle = true -> dataset <> []) ->
  DataLoader dataset shuffle drop_last bs
  = Ok {| dl_dataset := dataset; dl_shuffle := shuffle; dl_drop_last := drop_last;
          dl_batch_size := bs |}.
Proof.
  intros Hbs Hne. unfold DataLoader.
  destruct shuffle, dataset; simpl; try (by destruct Hne);
    by destruct (bs <=? 0) eqn:Hle; [lia|].
Qed.

Lemma DataLoader_cases dataset shuffle drop_last bs :
  (exists msg, DataLoader dataset shuffle drop_last bs = Raise (ValueError msg))
  \/ (0 < bs /\ (shuffle = true -> dataset <> [])
      /\ DataLoader dataset shuffle drop_last bs
         = Ok {| dl_dataset := dataset; dl_shuffle := shuffle; dl_drop_last := drop_last;
                 dl_batch_size := bs |}).
Proof.
  unfold DataLoader.
  destruct (shuffle && (length dataset =? 0)%nat) eqn:Hempty; [left; by eexists|].
  destruct (bs <=? 0) eqn:Hle; [left; by eexists|]. right.
  split; [lia|]. split; [|done]. intros -> ->. done.
Qed.

Lemma fractions_not_RuntimeError n lengths ex :
  fractions n lengths = Raise ex -> is_RuntimeError ex = false.
Proof. unfold fractions. destruct (forallb _ _); [done|]. by intros [= <-]. Qed.

Lemma split_dataset_not_RuntimeError (ds : dataset) vp ex :
  split_dataset (gen:=gen) ds vp = Raise ex -> is_RuntimeError ex = false.
Proof.
  unfold split_dataset, split_sizes, int_mul_float, float_of_int, int_of_float, random_split.
  intros H. run H; try reflexivity; by eapply fractions_not_RuntimeError.
Qed.

Lemma RMSprop_cases (m : module tensor) lr wd mom :
  (exists msg, RMSprop m lr wd mom = Raise (ValueError msg))
  \/ (RMSprop m lr wd mom = Ok tt
      /\ SFleb (S754_zero false) lr = true /\ SFleb (S754_zero false) mom = true
      /\ SFleb (S754_zero false) wd = true /\ state_dict m <> ∅).
Proof.
  unfold RMSprop.
  destruct (SFleb _ lr); simpl; [|left; by eexists].
  destruct (SFleb _ mom); simpl; [|left; by eexists].
  destruct (SFleb _ wd); simpl; [|left; by eexists].
  destruct (decide _) as [He|Hne]; [left; by eexists|]. right.
  repeat split; try done. intros Hs. apply Hne. by rewrite Hs, dom_empty_L.
Qed.

(** A call of [train_model] either raises in its preamble, with the
    world as it was and an exception that is not a [RuntimeError], or is
    its loop over the epochs, with the two loaders of lines 61-62. *)
Lemma train_model_steps_cases a e w :
  (exists ex, train_model_steps a e w = (Raise ex, w) /\ is_RuntimeError ex = false)
  \/ (exists n_train n_val train_set val_set u,
        split_dataset (env_dataset e) (val_percent a) = Ok (n_train, n_val, train_set, val_set)
        /\ train_set <> []
        /\ 0 < batch_size a
        /\ RMSprop (w_model w) (learning_rate a) (weight_decay a) (momentum a) = Ok tt
        /\ w_model w = DataParallel (UNet u)
        /\ DataLoader train_set true false (batch_size a) = Ok (train_loader_of a train_set)
        /\ train_model_steps a e w
           = for_each (train_epoch a e n_train (make_criterion (n_classes u))
                                   (train_loader_of a train_set) (val_loader_of a val_set))
                      (epoch_range (epochs a)) 0 w).
Proof.
  unfold train_model_steps, bind, lift, get_model.
  destruct (split_dataset (env_dataset e) (val_percent a))
    as [[[[n_train n_val] train_set] val_set]|ex] eqn:Hs.
  2:{ left. exists ex. split; [done|]. by eapply split_dataset_not_RuntimeError. }
  destruct (DataLoader_cases train_set true false (batch_size a))
    as [[msg ->]|(Hbs & Hne & Htl)]; [left; by eexists|]. rewrite Htl.
  rewrite (DataLoader_Ok val_set false true) by done.
  destruct (RMSprop_cases (w_model w) (learning_rate a) (weight_decay a) (momentum a))
    as [[msg ->]|(Hopt & _)]; [left; by eexists|]. rewrite Hopt.
  destruct (w_model w) as [u|[u|m]] eqn:Hm; simpl; [left; by eexists| |left; by eexists].
  right. exists n_train, n_val, train_set, val_set, u. repeat split; try done. by apply Hne.
Qed.

(** A call of [train_model] either raises in its preamble, before any
    call is recorded, or reaches the loop with the split's [n_train] and
    the training loader. *)
Lemma train_model_steps_post a e w r w' :
  train_model_steps a e w = (r, w') ->
  (w' = w /\ exists ex, r = Raise ex) \/
  (exists n_train n_val train_set val_set train_loader,
      split_dataset (env_dataset e) (val_percent a) = Ok (n_train, n_val, train_set, val_set)
      /\ DataLoader train_set true false (batch_size a) = Ok train_loader
      /\ run_post a n_train 0 (planned_steps e train_loader (epoch_range (epochs a))) r w w').
Proof.
  intros H.
  destruct (train_model_steps_cases a e w)
    as [(ex & Hpre & _)|(nt & nv & tr & va & u & Hs & _ & _ & _ & _ & Htl & Hloop)].
  - rewrite Hpre in H. injection H as <- <-. left. eauto.
  - rewrite Hloop in H. apply epochs_post in H. right. eauto 10.
Qed.

Lemma prefix_steps l g0 k : l `prefix_of` steps g0 k -> l = steps g0 (length l).
Proof.
  intros [rest Hrest].
  assert (Hlen : (length l <= k)%nat).
  { apply (f_equal length) in Hrest. rewrite length_app in Hrest.
    unfold steps in Hrest. rewrite length_map, length_seq in Hrest. lia. }
  replace k with (length l + (k - length l))%nat in Hrest by lia.
  rewrite steps_app in Hrest. apply app_inj_1 in Hrest; [by destruct Hrest|].
  unfold steps. by rewrite length_map, length_seq.
Qed.

Lemma elem_of_steps g g0 k : g ∈ steps g0 k <-> g0 < g <= g0 + Z.of_nat k.
Proof.
  unfold steps. rewrite list_elem_of_In, in_map_iff. split.
  - intros (i & <- & Hi%in_seq). lia.
  - intros Hg. exists (Z.to_nat (g - g0)). split; [lia|]. apply in_seq. lia.
Qed.

Lemma elem_of_rounds_due a n_train c g gs :
  (c, g) ∈ rounds_due a n_train gs <-> g ∈ gs /\ validation_due a n_train g = true.
Proof.
  unfold rounds_due. rewrite !list_elem_of_In, in_flat_map. split.
  - intros (g' & Hg' & Hin). destruct (validation_due a n_train g') eqn:Hd; [|done].
    unfold round_calls in Hin. simpl in Hin.
    assert (g = g') as -> by (intuition congruence). by split.
  - intros [Hg Hd]. exists g. split; [done|]. rewrite Hd.
    unfold round_calls. destruct c; simpl; tauto.
Qed.

Lemma validation_due_spec a n_train g :
  validation_due a n_train g = true <->
  0 < division_step a n_train /\ (division_step a n_train | g).
Proof.
  unfold validation_due. rewrite andb_true_iff, Z.ltb_lt, Z.eqb_eq. split.
  - intros [Hd Hm]. split; [done|]. apply Z.mod_divide; [lia|done].
  - intros [Hd Hm]. split; [done|]. apply Z.mod_divide; [lia|done].
Qed.

Lemma elem_of_prefix {A} (x : A) (l1 l2 : list A) : l1 `prefix_of` l2 -> x ∈ l1 -> x ∈ l2.
Proof. intros [k ->] Hx. apply elem_of_app. by left. Qed.

Lemma positive_multiple d g :
  0 < g -> 0 < d -> (d | g) -> exists k, 0 < k /\ g = k * d.
Proof. intros Hg Hd [k ->]. exists k. split; [nia|done]. Qed.

(** The validation calls of any run are made at positive multiples of
    the division step. *)
Lemma validation_calls_sound a n_train g0 k r w w' c g :
  0 <= g0 -> run_post a n_train g0 k r w w' ->
  forall t, w_trace w' = w_trace w ++ t -> (c, g) ∈ validation_calls t ->
  g ∈ steps g0 k /\ validation_due a n_train g = true.
Proof.
  intros Hg0 (t' & Ht' & Hr) t Ht Hin.
  assert (t = t') as -> by (rewrite Ht' in Ht; by apply app_inv_head in Ht).
  apply (elem_of_rounds_due a n_train c).
  destruct r; [by destruct Hr as (_ & _ & <-)|].
  destruct Hr as [_ Hp]. by apply (elem_of_prefix _ _ _ Hp).
Qed.

(** C5. With [division_step = n_train // (200 * batch_size)], every call
    of a validation round (histograms, [evaluate], scheduler step,
    score log, diagnostic log) is made at a training batch whose global
    step is a positive multiple of [division_step]; none is made when
    [division_step] is zero; and in a run that returns, with final
    global step [G], the rounds are exactly those of the multiples
    among [1 .. G]. *)
Theorem validation_round_at_multiples_of_division_step
        a e w n_train n_val train_set val_set :
  split_dataset (env_dataset e) (val_percent a) = Ok (n_train, n_val, train_set, val_set) ->
  let d := n_train / (200 * batch_size a) in
  let t := events_of (train_model a e) w in
  (forall c g, (c, g) ∈ validation_calls t -> 0 < d /\ exists k, 0 < k /\ g = k * d)
  /\ (d = 0 -> validation_calls t = [])
  /\ (forall G w', train_model_steps a e w = (Ok G, w') ->
        validation_calls t = rounds_due a n_train (log_steps t)
        /\ forall c g, (c, g) ∈ validation_calls t <->
                       0 < g <= G /\ 0 < d /\ exists k, 0 < k /\ g = k * d).
Proof.
  intros Hsplit d t.
  assert (Hsound : forall c g, (c, g) ∈ validation_calls t ->
                               0 < d /\ exists k, 0 < k /\ g = k * d).
  { intros c g Hin. subst t. rewrite events_of_train_model in Hin.
    destruct (train_model_steps a e w) as [r w'] eqn:Hrun.
    destruct (train_model_steps_post _ _ _ _ _ Hrun) as
      [[-> _]|(n & nv & tr & va & tl & Hs & _ & Hpost)].
    - rewrite (events_of_app _ _ []) in Hin; [|by rewrite Hrun, app_nil_r].
      by apply elem_of_nil in Hin.
    - rewrite Hsplit in Hs. injection Hs as <- <- <- <-.
      pose proof Hpost as (t' & Ht' & _).
      rewrite (events_of_app _ _ t') in Hin by (by rewrite Hrun).
      destruct (validation_calls_sound _ _ _ _ _ _ _ c g (Z.le_refl 0) Hpost t' Ht' Hin)
        as [Hg Hdue].
      apply elem_of_steps in Hg. apply validation_due_spec in Hdue as [Hd Hdiv].
      split; [done|]. apply positive_multiple; [lia|done..]. }
  split; [done|]. split.
  - intros Hd. destruct (validation_calls t) as [|[c g] l] eqn:Hl; [done|].
    destruct (Hsound c g) as [? _]; [left|lia].
  - intros G w' Hrun. subst t. rewrite events_of_train_model.
    destruct (train_model_steps_post _ _ _ _ _ Hrun) as
      [[_ [ex ?]]|(n & nv & tr & va & tl & Hs & _ & Hpost)]; [done|].
    rewrite Hsplit in Hs. injection Hs as <- <- <- <-.
    destruct Hpost as (t' & Ht' & -> & Hlog & Hcalls).
    rewrite (events_of_app _ _ t') by (by rewrite Hrun).
    rewrite Hlog. split; [done|]. intros c g.
    rewrite Hcalls, elem_of_rounds_due, elem_of_steps, validation_due_spec.
    change (division_step a n_train) with d. split.
    + intros (Hg & Hd & Hdiv). split; [lia|]. split; [done|].
      apply positive_multiple; [lia|done..].
    + intros (Hg & Hd & k & Hk & ->). split; [lia|]. split; [done|]. by exists k.
Qed.

(** C10. [global_step] starts at 0, every training batch that completes
    leaves it one higher, and it is carried across epochs: the steps
    logged by any run are [1, 2, ..., k] without a restart; a run that
    returns has counted the batches of all its epochs together; and the
    validation rounds are those due at the run-wide steps logged. *)
Theorem global_step_counts_batches_of_the_run a e w :
  let t := events_of (train_model a e) w in
  (forall n_train crit val_loader epoch g samples w0 g' w1,
      train_batch a e n_train crit val_loader epoch g samples w0 = (Ok g', w1) -> g' = g + 1)
  /\ (exists k, log_steps t = steps 0 k)
  /\ (forall G w', train_model_steps a e w = (Ok G, w') ->
        exists n_train n_val train_set val_set train_loader,
          split_dataset (env_dataset e) (val_percent a)
            = Ok (n_train, n_val, train_set, val_set)
          /\ DataLoader train_set true false (batch_size a) = Ok train_loader
          /\ G = Z.of_nat (planned_steps e train_loader (epoch_range (epochs a)))
          /\ log_steps t = steps 0 (planned_steps e train_loader (epoch_range (epochs a)))
          /\ validation_calls t = rounds_due a n_train (log_steps t)).
Proof.
  intros t. split; [|split].
  - intros n_train crit val_loader epoch g samples w0 g' w1 Hb.
    apply train_batch_post in Hb as (_ & _ & -> & _). lia.
  - subst t. rewrite events_of_train_model.
    destruct (train_model_steps a e w) as [r w'] eqn:Hrun.
    destruct (train_model_steps_post _ _ _ _ _ Hrun) as
      [[-> _]|(n & nv & tr & va & tl & _ & _ & t' & Ht' & Hpost)].
    + exists 0%nat. rewrite (events_of_app _ _ []); [done|by rewrite Hrun, app_nil_r].
    + rewrite (events_of_app _ _ t') by (by rewrite Hrun).
      destruct r; [destruct Hpost as (_ & -> & _); eauto|].
      destruct Hpost as [Hp _]. apply prefix_steps in Hp. eauto.
  - intros G w' Hrun. subst t. rewrite events_of_train_model.
    destruct (train_model_steps_post _ _ _ _ _ Hrun) as
      [[_ [ex ?]]|(n & nv & tr & va & tl & Hs & Htl & t' & Ht' & -> & Hlog & Hcalls)];
      [done|].
    rewrite (events_of_app _ _ t') by (by rewrite Hrun).
    exists n, nv, tr, va, tl. rewrite Hlog. repeat split; done.
Qed.

(** *** Loops under an invariant

    [I] is kept by the body on the world; [P] relates how a piece of
    the loop ends to the calls it has made. *)
Section ForEach.
Context {A : Type} (body : Z -> A -> M (tensor:=tensor) Z).
Context (I : world (tensor:=tensor) -> Prop)
        (P : result Z -> list (event (tensor:=tensor)) -> Prop).
Hypothesis P_nil : forall g, P (Ok g) [].
Hypothesis P_seq : forall g t1 r t2, P (Ok g) t1 -> P r t2 -> P r (t1 ++ t2).
Hypothesis P_body : forall g x w r w',
    I w -> body g x w = (r, w') ->
    I w' /\ exists t, w_trace w' = w_trace w ++ t /\ P r t.

Lemma for_each_post xs g w r w' :
  I w -> for_each body xs g w = (r, w') ->
  I w' /\ exists t, w_trace w' = w_trace w ++ t /\ P r t.
Proof.
  revert g w. induction xs as [|x xs IH]; intros g w Hw; simpl.
  - intros [= <- <-]. split; [done|]. exists []. by rewrite app_nil_r.
  - unfold bind. destruct (body g x w) as [[g1|ex] w1] eqn:Hb;
      destruct (P_body _ _ _ _ _ Hw Hb) as (Hw1 & t1 & Ht1 & HP1).
    + intros Hrest. destruct (IH _ _ Hw1 Hrest) as (Hw' & t2 & Ht2 & HP2).
      split; [done|]. exists (t1 ++ t2). split; [by rewrite Ht2, Ht1, app_assoc|].
      by eapply P_seq.
    + intros [= <- <-]. eauto.
Qed.
End ForEach.

Lemma for_each_ext {A} (body1 body2 : Z -> A -> M (tensor:=tensor) Z) xs g w :
  (forall g x w, body1 g x w = body2 g x w) ->
  for_each body1 xs g w = for_each body2 xs g w.
Proof.
  intros Hext. revert g w. induction xs as [|x xs IH]; intros g w; simpl; [done|].
  unfold bind. rewrite Hext. destruct (body2 g x w) as [[g1|ex] w1]; [apply IH|done].
Qed.

(** *** The diagnostic log and the histograms *)

Lemma validation_round_mute e vl o g w :
  validation_round (with_quiet_diag_log e) vl (mute_diag_log o) g w = validation_round e vl o g w.
Proof.
  unfold validation_round, try_except_pass, bind, emit, call, ret, raise. simpl.
  destruct (o_histograms o); [done|]. simpl.
  destruct (o_evaluate o); [done|]. simpl.
  by destruct (o_diag_log o).
Qed.

Lemma train_batch_mute a e n_train crit vl epoch g samples w :
  train_batch a (with_quiet_diag_log e) n_train crit vl epoch g samples w
  = train_batch a e n_train crit vl epoch g samples w.
Proof.
  unfold train_batch, bind, lift, get_model, set_model, emit, ret, raise, call. simpl.
  repeat match goal with
         | |- context [match ?x with _ => _ end] =>
             lazymatch x with
             | context [match _ with _ => _ end] => fail
             | context [if _ then _ else _] => fail
             | context [validation_round] => fail
             | _ => destruct x eqn:?
             end; simpl; try reflexivity
         | |- context [if ?b then _ else _] =>
             lazymatch b with
             | context [match _ with _ => _ end] => fail
             | context [if _ then _ else _] => fail
             | _ => destruct b eqn:?
             end; simpl; try reflexivity
         end.
  all: by rewrite validation_round_mute.
Qed.

Lemma train_model_mute a e w :
  train_model a (with_quiet_diag_log e) w = train_model a e w.
Proof.
  unfold train_model, train_model_steps, bind, lift, get_model. simpl.
  destruct (split_dataset _ _) as [[[[n_train n_val] train_set] val_set]|ex]; [|done].
  destruct (DataLoader train_set _ _ _) as [tl|ex]; [|done].
  destruct (DataLoader val_set _ _ _) as [vl|ex]; [|done].
  destruct (RMSprop _ _ _ _) as [optimizer|ex]; [|done].
  destruct (get_module _) as [inner|ex]; [|done].
  destruct (get_n_classes _) as [ncl|ex]; [|done].
  rewrite (for_each_ext _ (train_epoch a e n_train (make_criterion ncl) tl vl)); [done|].
  intros g epoch w0. unfold train_epoch, bind, emit. simpl.
  rewrite (for_each_ext _ (train_batch a e n_train (make_criterion ncl) vl epoch));
    [done|]. intros. apply train_batch_mute.
Qed.

Lemma validation_round_histograms_fail e vl o g w ex :
  o_histograms o = Some ex ->
  validation_round e vl o g w
  = (Raise ex, {| w_model := w_model w; w_files := w_files w;
                  w_trace := w_trace w ++ [EvValidation Histograms g] |}).
Proof.
  intros Ho. unfold validation_round, bind, emit, call, raise. simpl. by rewrite Ho.
Qed.

Section HistogramsFail.
Context (a : args) (e : env (tensor:=tensor)) (ex : exn).
Hypothesis all_fail : forall g samples, o_histograms (env_oracle e g samples) = Some ex.

Lemma train_batch_histograms_fail n_train crit vl epoch g samples w r w' :
  train_batch a e n_train crit vl epoch g samples w = (r, w') ->
  True /\ exists t, w_trace w' = w_trace w ++ t /\ no_round_or_raises ex r t.
Proof.
  unfold train_batch, bind, lift, get_model, set_model, emit, ret, raise, call.
  intros H. split; [done|].
  run H; try (trace_ex; by left).
  all: match goal with
       | Hv : validation_round _ _ _ _ _ = _ |- _ =>
           rewrite (validation_round_histograms_fail _ _ _ _ _ ex) in Hv by apply all_fail;
           inversion Hv; subst; clear Hv
       end.
  trace_ex. by right.
Qed.

Lemma no_round_or_raises_seq g t1 r t2 :
  no_round_or_raises ex (Ok g) t1 -> no_round_or_raises ex r t2 ->
  no_round_or_raises ex r (t1 ++ t2).
Proof.
  unfold no_round_or_raises. rewrite validation_calls_app.
  intros [->|?] [->|?]; auto; done.
Qed.

Lemma train_epoch_histograms_fail n_train crit dl vl g epoch w r w' :
  train_epoch a e n_train crit dl vl g epoch w = (r, w') ->
  True /\ exists t, w_trace w' = w_trace w ++ t /\ no_round_or_raises ex r t.
Proof.
  unfold train_epoch, write_checkpoint, bind, emit, ret, get_model, write_file. simpl.
  intros H. split; [done|].
  destruct (for_each _ _ _ _) as [r1 w1] eqn:Hb.
  eapply (for_each_post _ (fun _ => True) (no_round_or_raises ex)) in Hb;
    [|by left|apply no_round_or_raises_seq
     |intros; by eapply train_batch_histograms_fail|done].
  destruct Hb as (_ & t & Ht & HP). simpl in Ht.
  destruct r1 as [g1|ex1]; [destruct (save_checkpoint a)|]; inversion H; subst; simpl;
    rewrite Ht, <- ?app_assoc; eexists; (split; [reflexivity|]);
    (destruct HP as [HP|HP]; [left|by right]);
    by rewrite !validation_calls_app, HP.
Qed.

Lemma train_model_histograms_fail w :
  validation_calls (events_of (train_model a e) w) <> [] ->
  (train_model a e w).1 = Raise ex.
Proof.
  rewrite events_of_train_model. unfold train_model, bind.
  destruct (train_model_steps a e w) as [r w'] eqn:Hrun. intros Hcalls.
  assert (exists t, w_trace w' = w_trace w ++ t /\ no_round_or_raises ex r t)
    as (t & Ht & HP).
  { destruct (train_model_steps_cases a e w)
      as [(ex0 & Hpre & _)|(nt & nv & tr & va & u & _ & _ & _ & _ & _ & _ & Hloop)].
    - rewrite Hpre in Hrun. injection Hrun as <- <-.
      exists []. rewrite app_nil_r. split; [done|by left].
    - rewrite Hloop in Hrun.
      eapply (for_each_post _ (fun _ => True) (no_round_or_raises ex)) in Hrun;
        [by destruct Hrun|by left|apply no_round_or_raises_seq
        |intros; by eapply train_epoch_histograms_fail|done]. }
  rewrite (events_of_app _ _ t) in Hcalls by (by rewrite Hrun).
  destruct HP as [HP| ->]; [done|]. reflexivity.
Qed.
End HistogramsFail.

(** C7, as the code has it. A failure of the diagnostic
    [experiment.log] call of a validation round (the record with the
    sample image, the true and the predicted mask and the histograms)
    is discarded and changes nothing: [train_model] does what it does
    when the call returns. A failure while the histograms are built is
    outside the [try]: once a round is entered it ends [train_model]. *)
Theorem diagnostic_log_failures_are_discarded :
  (forall a e w, train_model a (with_quiet_diag_log e) w = train_model a e w)
  /\ (forall a e w ex,
        (forall g samples, o_histograms (env_oracle e g samples) = Some ex) ->
        validation_calls (events_of (train_model a e) w) <> [] ->
        (train_model a e w).1 = Raise ex).
Proof.
  split; [apply train_model_mute|].
  intros a e w ex Hall. by apply train_model_histograms_fail.
Qed.

(** *** The channel guard *)

(** C8. A batch whose images have another channel count than the
    network declares ends the loop before the forward pass is called,
    with the world as it was: evaluating the assertion's message reads
    [model.n_channels] on the wrapper, so what is raised is an
    [AttributeError], which the recovery wrapper does not catch. A batch
    with the declared count goes on to the forward pass. *)
Theorem channel_mismatch_fails_before_forward
        a e n_train crit val_loader epoch g samples w inner declared :
  get_module (w_model w) = Ok inner ->
  get_n_channels inner = Ok declared ->
  let o := env_oracle e g samples in
  (o_channels o <> declared ->
   train_batch a e n_train crit val_loader epoch g samples w = (Raise (AttributeError "n_channels"), w)
   /\ is_RuntimeError (AttributeError "n_channels") = false
   /\ forall rest,
       for_each (train_batch a e n_train crit val_loader epoch) (samples :: rest) g w
       = (Raise (AttributeError "n_channels"), w))
  /\ (o_channels o = declared ->
      exists t, w_trace (train_batch a e n_train crit val_loader epoch g samples w).2
                = w_trace w ++ EvForward epoch samples :: t).
Proof.
  intros Hm Hc o. split.
  - intros Hne.
    assert (Hb : train_batch a e n_train crit val_loader epoch g samples w
                 = (Raise (AttributeError "n_channels"), w)).
    { unfold train_batch, bind, lift, get_model. rewrite Hm, Hc. fold o.
      destruct (o_channels o =? declared) eqn:Heq; [apply Z.eqb_eq in Heq; done|].
      destruct (w_model w); [done|]. reflexivity. }
    split; [done|]. split; [done|]. intros rest. simpl. unfold bind. by rewrite Hb.
  - intros Heq.
    destruct (train_batch a e n_train crit val_loader epoch g samples w) as [r w'] eqn:Hb.
    revert Hb. unfold train_batch, bind, lift, get_model, set_model, emit, ret, raise, call.
    rewrite Hm, Hc. fold o. rewrite Heq, Z.eqb_refl. simpl.
    intros Hb.
    run Hb; try (eexists; simpl; rewrite <- ?app_assoc; reflexivity).
    all: match goal with
         | Hv : validation_round _ _ _ _ _ = _ |- _ =>
             apply validation_round_post in Hv; simpl in Hv;
             destruct Hv as (tv & Htv & _); rewrite Htv
         end;
      eexists; rewrite <- !app_assoc; reflexivity.
Qed.

(** *** The loss *)

Lemma batch_loss_binary masks_pred true_masks :
  batch_loss 1 (make_criterion 1) masks_pred true_masks
  = tadd (bce_with_logits (squeeze1 masks_pred) (to_float true_masks))
         (dice_loss (sigmoid (squeeze1 masks_pred)) (to_float true_masks) false).
Proof. reflexivity. Qed.

Lemma batch_loss_multiclass ncl masks_pred true_masks :
  1 < ncl ->
  batch_loss ncl (make_criterion ncl) masks_pred true_masks
  = tadd (cross_entropy masks_pred true_masks)
         (dice_loss (to_float (softmax1 masks_pred))
                    (to_float (permute0312 (one_hot true_masks ncl))) true).
Proof.
  intros Hn. unfold batch_loss, make_criterion.
  destruct (ncl =? 1) eqn:H1; [apply Z.eqb_eq in H1; lia|].
  destruct (ncl >? 1) eqn:H2; [done|]. rewrite Z.gtb_ltb in H2. apply Z.ltb_ge in H2. lia.
Qed.

Lemma validation_round_events e vl o g w r w' :
  validation_round e vl o g w = (r, w') ->
  w_model w' = w_model w
  /\ exists t, w_trace w' = w_trace w ++ t
             /\ Forall (fun ev => is_Some (validation_call_of ev)) t
             /\ Forall (evaluates_on e vl) t.
Proof.
  unfold validation_round, try_except_pass, bind, emit, call, ret, raise. intros H.
  run H; (split; [reflexivity|]); trace_ex; split; repeat constructor; eauto.
Qed.

Lemma elem_of_log_steps loss g epoch t : EvTrainLog loss g epoch ∈ t -> g ∈ log_steps t.
Proof.
  intros Hin. apply list_elem_of_omap. by exists (EvTrainLog loss g epoch).
Qed.

(** A piece of the trace with no log record. *)
Lemma logs_loss_of_batch_silent (e : env (tensor:=tensor)) ncl t :
  log_steps t = [] -> logs_loss_of_batch e ncl t.
Proof.
  intros Hno loss g epoch Hin%elem_of_log_steps. rewrite Hno in Hin.
  by apply elem_of_nil in Hin.
Qed.

Lemma logs_loss_of_batch_app (e : env (tensor:=tensor)) ncl t1 t2 :
  logs_loss_of_batch e ncl t1 -> logs_loss_of_batch e ncl t2 ->
  logs_loss_of_batch e ncl (t1 ++ t2).
Proof.
  intros H1 H2 loss g epoch [Hin|Hin]%elem_of_app.
  - destruct (H1 _ _ _ Hin) as (samples & masks_pred & before & after & -> & Hf & Hl).
    exists samples, masks_pred, before, (after ++ t2). split; [|done].
    by rewrite <- app_assoc.
  - destruct (H2 _ _ _ Hin) as (samples & masks_pred & before & after & -> & Hf & Hl).
    exists samples, masks_pred, (t1 ++ before), after. split; [|done].
    by rewrite <- app_assoc.
Qed.

(** The calls of one batch that gets as far as its log record. *)
Lemma logs_loss_of_batch_one (e : env (tensor:=tensor)) ncl epoch samples g masks_pred tv :
  o_forward (env_oracle e g samples) = Ok masks_pred ->
  log_steps tv = [] ->
  logs_loss_of_batch e ncl
    (EvForward epoch samples :: EvOptimizerStep
       :: EvTrainLog (batch_loss ncl (make_criterion ncl) masks_pred
                                 (o_true_masks (env_oracle e g samples))) (g + 1) epoch
       :: tv).
Proof.
  intros Hf Hno loss g' epoch' Hin.
  apply elem_of_cons in Hin as [Hin|Hin]; [discriminate Hin|].
  apply elem_of_cons in Hin as [Hin|Hin]; [discriminate Hin|].
  apply elem_of_cons in Hin as [Hin|Hin].
  - injection Hin as -> -> ->. exists samples, masks_pred, [], tv.
    replace (g + 1 - 1) with g by lia. done.
  - apply elem_of_log_steps in Hin. rewrite Hno in Hin. by apply elem_of_nil in Hin.
Qed.

Section Loss.
Context (a : args) (e : env (tensor:=tensor)) (ncl : Z).

Lemma train_batch_logs_loss n_train vl epoch g samples w r w' :
  wrapped_with_classes ncl w ->
  train_batch a e n_train (make_criterion ncl) vl epoch g samples w = (r, w') ->
  wrapped_with_classes ncl w'
  /\ exists t, w_trace w' = w_trace w ++ t /\ logs_loss_of_batch e ncl t.
Proof.
  intros (u & Hm & Hn).
  unfold train_batch, bind, lift, get_model, set_model, emit, ret, raise, call.
  rewrite Hm. simpl. rewrite Hn. intros H.
  run H.
  all: try match goal with
       | Hv : validation_round _ _ _ _ _ = _ |- _ =>
           apply validation_round_post in Hv; simpl in Hv;
           destruct Hv as (tv & Htv & _ & Hmv & Hlv & _); rewrite ?Htv, ?Hmv
       end.
  all: (split; [eexists; split;
                 [simpl; first [exact Hm|reflexivity|rewrite Hmv; reflexivity]|done]|]).
  all: first [ exists []; split; [by rewrite app_nil_r|]
             | eexists; split; [simpl; rewrite <- ?app_assoc; reflexivity|] ].
  all: first [ by apply logs_loss_of_batch_silent
             | by apply (logs_loss_of_batch_one e (n_classes u) epoch samples g _ [])
             | by apply logs_loss_of_batch_one ].
Qed.

Lemma train_epoch_logs_loss n_train dl vl g epoch w r w' :
  wrapped_with_classes ncl w ->
  train_epoch a e n_train (make_criterion ncl) dl vl g epoch w = (r, w') ->
  wrapped_with_classes ncl w'
  /\ exists t, w_trace w' = w_trace w ++ t /\ logs_loss_of_batch e ncl t.
Proof.
  unfold train_epoch, write_checkpoint, bind, emit, ret, get_model, write_file. simpl.
  intros Hw H.
  destruct (for_each _ _ _ _) as [r1 w1] eqn:Hb.
  eapply (for_each_post _ (wrapped_with_classes ncl)
            (fun _ => logs_loss_of_batch e ncl)) in Hb;
    [|intros; by apply logs_loss_of_batch_silent
     |intros; by apply logs_loss_of_batch_app
     |intros; by eapply train_batch_logs_loss|exact Hw].
  destruct Hb as (Hw1 & t & Ht & HP). simpl in Ht.
  destruct r1 as [g1|ex1]; [destruct (save_checkpoint a)|]; inversion H; subst; simpl;
    (split; [exact Hw1|]); rewrite Ht, <- ?app_assoc; eexists;
    (split; [reflexivity|]);
    repeat (apply logs_loss_of_batch_app); try done;
    by apply logs_loss_of_batch_silent.
Qed.

Lemma train_model_logs_loss w u :
  w_model w = DataParallel (UNet u) -> n_classes u = ncl ->
  logs_loss_of_batch e ncl (events_of (train_model a e) w).
Proof.
  intros Hm Hn. rewrite events_of_train_model.
  destruct (train_model_steps a e w) as [r w'] eqn:Hrun.
  assert (exists t, w_trace w' = w_trace w ++ t /\ logs_loss_of_batch e ncl t)
    as (t & Ht & HP).
  { destruct (train_model_steps_cases a e w)
      as [(ex0 & Hpre & _)|(nt & nv & tr & va & u' & _ & _ & _ & _ & Hm' & _ & Hloop)].
    - rewrite Hpre in Hrun. injection Hrun as <- <-.
      exists []. rewrite app_nil_r. split; [done|]. by apply logs_loss_of_batch_silent.
    - rewrite Hloop in Hrun. rewrite Hm in Hm'. injection Hm' as <-. rewrite Hn in Hrun.
      eapply (for_each_post _ (wrapped_with_classes ncl)
                (fun _ => logs_loss_of_batch e ncl)) in Hrun;
        [by destruct Hrun|intros; by apply logs_loss_of_batch_silent
        |intros; by apply logs_loss_of_batch_app
        |intros; by eapply train_epoch_logs_loss|by exists u]. }
  by rewrite (events_of_app _ _ t) by (by rewrite Hrun).
Qed.
End Loss.

(** C1. Every loss that a run of [train_model] logs for a training
    batch is the loss of that batch: the log record of step [g] comes
    right after the forward pass and the optimizer step of one batch of
    its epoch, and its loss is the plain sum of a classification term
    on the logits the forward pass returned for the samples of this
    batch and a dice term on probabilities, both against the true masks
    of this batch: binary cross-entropy with logits on the squeezed
    output plus binary dice on its sigmoid when the network has one
    class; cross-entropy on the logits plus multiclass dice of their
    softmax against the one-hot encoding of the true masks when it has
    more than one. The batch is the one that follows [g - 1] completed
    steps. *)
Theorem training_loss_is_classification_plus_dice a e w u :
  w_model w = DataParallel (UNet u) ->
  forall loss g epoch,
    EvTrainLog loss g epoch ∈ events_of (train_model a e) w ->
    exists samples masks_pred before after,
      events_of (train_model a e) w
      = before ++ EvForward epoch samples :: EvOptimizerStep
               :: EvTrainLog loss g epoch :: after
      /\ o_forward (env_oracle e (g - 1) samples) = Ok masks_pred /\
      let true_masks := o_true_masks (env_oracle e (g - 1) samples) in
      (n_classes u = 1 ->
       loss = tadd (bce_with_logits (squeeze1 masks_pred) (to_float true_masks))
                   (dice_loss (sigmoid (squeeze1 masks_pred)) (to_float true_masks) false))
      /\ (1 < n_classes u ->
          loss = tadd (cross_entropy masks_pred true_masks)
                      (dice_loss (to_float (softmax1 masks_pred))
                                 (to_float (permute0312 (one_hot true_masks (n_classes u))))
                                 true)).
Proof.
  intros Hm loss g epoch Hin.
  destruct (train_model_logs_loss a e (n_classes u) w u Hm eq_refl loss g epoch Hin)
    as (samples & masks_pred & before & after & Ht & Hf & ->).
  exists samples, masks_pred, before, after. split; [done|]. split; [done|]. simpl. split.
  - intros ->. apply batch_loss_binary.
  - apply batch_loss_multiclass.
Qed.

(** *** The recovery wrapper *)

Lemma recovery_wrapper_returns c first retry w w' :
  train_model (train_args c) first w = (Ok tt, w') ->
  recovery_wrapper c first retry w = (Ok tt, w').
Proof. unfold recovery_wrapper, try_except_RuntimeError. by intros ->. Qed.

Lemma recovery_wrapper_other_class c first retry w w' ex :
  train_model (train_args c) first w = (Raise ex, w') ->
  is_RuntimeError ex = false ->
  recovery_wrapper c first retry w = (Raise ex, w').
Proof. unfold recovery_wrapper, try_except_RuntimeError. by intros -> ->. Qed.

(** A [RuntimeError] whose message does not mention memory is caught
    and dropped: the handler has no [else] branch that raises again. *)
Lemma recovery_wrapper_swallows c first retry w w' msg :
  train_model (train_args c) first w = (Raise (RuntimeError msg), w') ->
  contains "out of memory" msg = false ->
  recovery_wrapper c first retry w = (Ok tt, w').
Proof.
  unfold recovery_wrapper, try_except_RuntimeError, on_RuntimeError.
  intros -> Hmsg. simpl. by rewrite Hmsg.
Qed.

(** On memory exhaustion the handler logs, empties the cache and calls
    [model.use_checkpointing()]; the model being the [DataParallel]
    wrapper, that call raises and the second [train_model] is not
    reached. *)
Lemma recovery_wrapper_out_of_memory_wrapped c first retry w w' msg inner :
  train_model (train_args c) first w = (Raise (RuntimeError msg), w') ->
  contains "out of memory" msg = true ->
  w_model w' = DataParallel inner ->
  recovery_wrapper c first retry w
  = (Raise (AttributeError "use_checkpointing"),
     {| w_model := w_model w'; w_files := w_files w';
        w_trace := (w_trace w' ++ [EvLogError]) ++ [EvEmptyCache] |}).
Proof.
  unfold recovery_wrapper, try_except_RuntimeError, on_RuntimeError.
  intros -> Hmsg Hm. simpl. rewrite Hmsg.
  unfold bind, emit, get_model, lift. simpl. by rewrite Hm.
Qed.

(** With a model that has the method, the handler goes on to the second
    call, with the same arguments. *)
Lemma recovery_wrapper_out_of_memory_bare c first retry w w' msg u :
  train_model (train_args c) first w = (Raise (RuntimeError msg), w') ->
  contains "out of memory" msg = true ->
  w_model w' = UNet u ->
  exists u',
    use_checkpointing (UNet u) = Ok (UNet u') /\ checkpointing u' = true /\
    recovery_wrapper c first retry w
    = train_model (train_args c) retry
        {| w_model := UNet u'; w_files := w_files w';
           w_trace := (w_trace w' ++ [EvLogError]) ++ [EvEmptyCache] |}.
Proof.
  unfold recovery_wrapper, try_except_RuntimeError, on_RuntimeError.
  intros -> Hmsg Hm. simpl. rewrite Hmsg.
  unfold bind, emit, get_model, set_model, lift. simpl. rewrite Hm. simpl.
  eexists. split; [reflexivity|]. split; reflexivity.
Qed.

(** *** Checkpoints *)

Lemma omap_entry_tensor (sd : gmap string tensor) :
  omap entry_tensor (Tensor <$> sd) = sd.
Proof.
  apply map_eq. intros k. rewrite lookup_omap, lookup_fmap. by destruct (sd !! k).
Qed.

Lemma all_tensors (sd : gmap string tensor) :
  map_Forall (fun _ (en : entry tensor) => is_Some (entry_tensor en)) (Tensor <$> sd).
Proof.
  intros k en. rewrite lookup_fmap. destruct (sd !! k); [|done]. intros [= <-]. by eexists.
Qed.

Lemma del_mask_values (sd : gmap string tensor) (vs : list Z) :
  sd !! "mask_values" = None ->
  del "mask_values" (<["mask_values" := MaskValues vs]> (Tensor <$> sd)) = Ok (Tensor <$> sd).
Proof.
  intros Hfree. unfold del. rewrite lookup_insert_eq, delete_insert_eq.
  f_equal. apply delete_id. by rewrite lookup_fmap, Hfree.
Qed.

(** What is saved at the end of an epoch, and what the load path makes
    of it: with no parameter called [mask_values], deleting the key
    gives back the state dictionary that was saved, and a model whose
    state dictionary has the same keys, with tensors of the same
    shapes, takes every tensor of it. *)
Lemma checkpoint_round_trip_same_keys (sd : gmap string tensor) (vs : list Z)
      (m : module tensor) :
  sd !! "mask_values" = None ->
  dom (state_dict m) = dom sd ->
  (forall k (x p : tensor),
      sd !! k = Some x -> state_dict m !! k = Some p -> shape x = shape p) ->
  exists stripped,
    del "mask_values" (<["mask_values" := MaskValues vs]> (Tensor <$> sd)) = Ok stripped
    /\ stripped = Tensor <$> sd
    /\ load_state_dict m stripped = Ok (set_state m sd).
Proof.
  intros Hfree Hdom Hshape. eexists. split; [by apply del_mask_values|].
  split; [reflexivity|].
  unfold load_state_dict. rewrite dom_fmap_L, omap_entry_tensor.
  destruct (decide (dom sd = dom (state_dict m))) as [_|Hne]; [|by rewrite Hdom in Hne].
  destruct (decide _) as [_|Hne]; [|by destruct Hne; apply all_tensors].
  destruct (decide _) as [_|Hne]; [done|]. destruct Hne. intros k x Hk.
  unfold same_shape. destruct (state_dict m !! k) as [p|] eqn:Hp; [|done].
  apply bool_decide_eq_true. by eapply Hshape.
Qed.

(** A tensor of another shape than the one it is to replace makes the
    load fail, whatever else the file holds. *)
Lemma load_state_dict_size_mismatch (sd : gmap string tensor) (m : module tensor)
      k (x p : tensor) :
  dom (state_dict m) = dom sd ->
  sd !! k = Some x -> state_dict m !! k = Some p -> shape x <> shape p ->
  load_state_dict m (Tensor <$> sd)
  = Raise (RuntimeError "Error(s) in loading state_dict: size mismatch").
Proof.
  intros Hdom Hk Hp Hne.
  unfold load_state_dict. rewrite dom_fmap_L, omap_entry_tensor.
  destruct (decide (dom sd = dom (state_dict m))) as [_|Hd]; [|by rewrite Hdom in Hd].
  destruct (decide _) as [_|Hd]; [|by destruct Hd; apply all_tensors].
  destruct (decide _) as [Hall|_]; [|done]. exfalso.
  specialize (Hall k x Hk). unfold same_shape in Hall. rewrite Hp in Hall.
  by apply bool_decide_eq_true in Hall.
Qed.

#[local] Instance append_inj (p : string) : Inj (=) (=) (String.append p).
Proof.
  induction p as [|a p IH]; intros x y Hxy; simpl in Hxy; [done|].
  injection Hxy as Hxy. by apply IH.
Qed.

Lemma longest_key (l : list string) :
  l <> [] ->
  exists k, k ∈ l /\ forall k', k' ∈ l -> (String.length k' <= String.length k)%nat.
Proof.
  induction l as [|k l IH]; [done|]. intros _. destruct l as [|k0 l].
  - exists k. split; [left|]. intros k' ->%list_elem_of_singleton. lia.
  - destruct IH as (km & Hkm & Hmax); [done|].
    destruct (le_lt_dec (String.length k) (String.length km)) as [Hle|Hlt].
    + exists km. split; [by right|]. intros k' [->|Hk']%elem_of_cons; [done|by apply Hmax].
    + exists k. split; [left|]. intros k' [->|Hk']%elem_of_cons; [done|].
      apply Hmax in Hk'. lia.
Qed.

(** What the script saves for a wrapped network with at least one
    parameter is rejected by its own load path into a network of the same
    architecture: the longest parameter name, prefixed, is a key of the
    checkpoint and not of the network. *)
Lemma wrapped_checkpoint_is_rejected (u u0 : unet tensor) (vs : list Z) :
  parameters u <> ∅ -> dom (parameters u0) = dom (parameters u) ->
  exists stripped msg,
    del "mask_values"
        (<["mask_values" := MaskValues vs]> (Tensor <$> state_dict (DataParallel (UNet u))))
    = Ok stripped
    /\ load_state_dict (UNet u0) stripped = Raise (RuntimeError msg).
Proof.
  intros Hne Hdom. simpl state_dict.
  eexists. exists "Error(s) in loading state_dict: Missing or unexpected key(s)".
  split.
  - unfold del. rewrite lookup_insert_eq, delete_insert_eq. reflexivity.
  - unfold load_state_dict. simpl state_dict.
    destruct (decide _) as [Heq|_]; [|done]. exfalso.
    rewrite dom_delete_L, dom_fmap_L, Hdom in Heq.
    destruct (longest_key (elements (dom (parameters u)))) as (k & Hk & Hmax).
    { intros Hnil. apply Hne, dom_empty_iff_L, leibniz_equiv, elements_empty_inv.
      by rewrite Hnil. }
    apply elem_of_elements in Hk.
    assert (Hin : String.append "module." k ∈ dom (parameters u)).
    { rewrite <- Heq. apply elem_of_difference. split.
      - rewrite dom_kmap_L; [|apply append_inj]. apply elem_of_map. by exists k.
      - intros Hm%elem_of_singleton. discriminate Hm. }
    apply elem_of_elements, Hmax in Hin. simpl in Hin.
    change (String.append "" k) with k in Hin. lia.
Qed.

(** *** Loaders *)

Section Batches.
Context {A : Type}.
Implicit Types (l acc : list A).

(** The full batches, and what is left over for a last, short one. *)
Lemma batch_sampler_shape (bs : nat) (drop_last : bool) l acc :
  (length acc < bs)%nat ->
  exists full rest,
    Forall (fun b => length b = bs) full
    /\ concat full ++ rest = acc ++ l
    /\ (length rest < bs)%nat
    /\ batch_sampler bs drop_last l acc
       = full ++ (if negb drop_last && (0 <? length rest)%nat then [rest] else []).
Proof.
  revert acc. induction l as [|x l IH]; intros acc Hacc.
  - exists [], acc. simpl. by rewrite app_nil_r.
  - simpl. destruct (length (acc ++ [x]) =? bs)%nat eqn:Hfull.
    + apply Nat.eqb_eq in Hfull.
      destruct (IH []) as (full & rest & Hf & Hc & Hr & Hb); [simpl; lia|].
      exists ((acc ++ [x]) :: full), rest. simpl in *.
      repeat split; [by constructor| |done|by rewrite Hb].
      by rewrite <- !app_assoc, Hc.
    + apply Nat.eqb_neq in Hfull. rewrite length_app in Hfull. simpl in Hfull.
      destruct (IH (acc ++ [x])) as (full & rest & Hf & Hc & Hr & Hb).
      { rewrite length_app. simpl. lia. }
      exists full, rest. repeat split; try done. by rewrite Hc, <- app_assoc.
Qed.

Lemma concat_length_full (bs : nat) (full : list (list A)) :
  Forall (fun b => length b = bs) full -> length (concat full) = (bs * length full)%nat.
Proof. induction 1 as [|b full Hb _ IH]; simpl; [lia|]. rewrite length_app, IH, Hb. lia. Qed.

Lemma batch_sampler_counts (bs : nat) (drop_last : bool) l :
  (0 < bs)%nat ->
  exists full rest,
    Forall (fun b => length b = bs) full
    /\ concat full ++ rest = l
    /\ length full = (length l / bs)%nat
    /\ length rest = (length l mod bs)%nat
    /\ batch_sampler bs drop_last l []
       = full ++ (if negb drop_last && (0 <? length rest)%nat then [rest] else []).
Proof.
  intros Hbs. destruct (batch_sampler_shape bs drop_last l []) as (full & rest & Hf & Hc & Hr & Hb);
    [simpl; lia|].
  exists full, rest. simpl in Hc. repeat split; try done.
  - apply (f_equal length) in Hc. rewrite length_app, (concat_length_full bs) in Hc by done.
    apply (Nat.div_unique _ _ _ (length rest)); lia.
  - apply (f_equal length) in Hc. rewrite length_app, (concat_length_full bs) in Hc by done.
    apply (Nat.mod_unique _ _ (length full)); lia.
Qed.
End Batches.

(** *** The split *)

Lemma slice_prefix {A} (l : list A) (n : Z) :
  0 <= n <= Z.of_nat (length l) -> slice l 0 n = take (Z.to_nat n) l.
Proof.
  intros Hn. unfold slice, clamp_index. simpl.
  destruct (n <? 0) eqn:Hneg; [apply Z.ltb_lt in Hneg; lia|].
  rewrite Z.min_l, Z.min_l, Z.sub_0_r by lia. done.
Qed.

Lemma slice_suffix {A} (l : list A) (n : Z) :
  0 <= n <= Z.of_nat (length l) -> slice l n (Z.of_nat (length l)) = drop (Z.to_nat n) l.
Proof.
  intros Hn. unfold slice, clamp_index.
  destruct (n <? 0) eqn:Hneg; [apply Z.ltb_lt in Hneg; lia|].
  destruct (Z.of_nat (length l) <? 0) eqn:Hneg'; [apply Z.ltb_lt in Hneg'; lia|].
  rewrite Z.min_l, Z.min_l by lia. apply take_ge. rewrite length_drop. lia.
Qed.

(** [random_split] of [n] indices into two parts whose integer sizes
    add up to [n]: whenever it returns, the two parts are the slices
    [[0:a]] and [[a:a+b]] of the permutation the generator yields (with
    a single sample the sizes add up to 1 and are read as fractions,
    which gives the same sizes back). *)
Lemma fractions_pair (a b : Z) l :
  a + b = 1 -> fractions 1 [a; b] = Ok l -> l = [a; b].
Proof.
  intros Hab. unfold fractions. destruct (forallb _ _); [|done]. intros [= <-].
  unfold distribute, sum. cbn [map fold_right].
  replace (1 - (1 * a + (1 * b + 0))) with 0 by lia.
  change (Z.to_nat 0) with 0%nat. cbn [seq foldl]. by rewrite !Z.mul_1_l.
Qed.

Lemma random_split_pair (n : nat) (a b : Z) (g : gen) r :
  a + b = Z.of_nat n ->
  random_split n [a; b] g = Ok r ->
  r = [slice (randperm g n) 0 a; slice (randperm g n) a (a + b)].
Proof.
  intros Hab. unfold random_split.
  assert (Hsum : sum [a; b] = Z.of_nat n) by (unfold sum; simpl; lia).
  rewrite Hsum.
  assert (Hl : forall l, (if Z.of_nat n =? 1 then fractions (Z.of_nat n) [a; b]
                          else Ok [a; b]) = Ok l -> l = [a; b]).
  { intros l. destruct (Z.of_nat n =? 1) eqn:H1; [|by intros [= <-]].
    apply Z.eqb_eq in H1. rewrite H1. apply fractions_pair. lia. }
  destruct (if Z.of_nat n =? 1 then _ else _) as [l|ex]; [|done].
  rewrite (Hl l eq_refl), Hsum, Z.eqb_refl, Nat2Z.id.
  intros [= <-]. unfold accumulate. cbn [accumulate_from zip_with].
  f_equal; [f_equal; lia|]. f_equal. f_equal; lia.
Qed.

(** With sizes that are not negative it returns: the first [a] indices
    of the permutation and the rest. *)
Lemma random_split_two (n : nat) (a b : Z) (g : gen) :
  0 <= a -> 0 <= b -> a + b = Z.of_nat n ->
  random_split n [a; b] g
  = Ok [take (Z.to_nat a) (randperm g n); drop (Z.to_nat a) (randperm g n)].
Proof.
  intros Ha Hb Hab.
  assert (Hlen : length (randperm g n) = n)
    by (rewrite (Permutation_length (randperm_perm g n)); apply length_seq).
  destruct (random_split n [a; b] g) as [r|ex] eqn:Hr.
  - rewrite (random_split_pair _ _ _ _ _ Hab Hr).
    rewrite slice_prefix by lia.
    replace (a + b) with (Z.of_nat (length (randperm g n))) by lia.
    by rewrite slice_suffix by lia.
  - exfalso. revert Hr. unfold random_split.
    assert (Hsum : sum [a; b] = Z.of_nat n) by (unfold sum; simpl; lia).
    rewrite Hsum.
    assert (Hl : exists l, (if Z.of_nat n =? 1 then fractions (Z.of_nat n) [a; b]
                            else Ok [a; b]) = Ok l /\ l = [a; b]).
    { destruct (Z.of_nat n =? 1) eqn:H1; [|by eexists].
      apply Z.eqb_eq in H1. rewrite H1.
      destruct (fractions 1 [a; b]) as [l|ex'] eqn:Hf.
      - exists l. split; [done|]. eapply fractions_pair; [|exact Hf]. lia.
      - exfalso. revert Hf. unfold fractions. cbn [forallb].
        rewrite !(proj2 (Z.leb_le _ _)) by lia. done. }
    destruct Hl as (l & -> & ->). by rewrite Hsum, Z.eqb_refl.
Qed.

(** The two subsets of any split that returns. *)
Lemma split_dataset_slices (ds : dataset) vp n_train n_val train_set val_set :
  split_dataset (gen:=gen) ds vp = Ok (n_train, n_val, train_set, val_set) ->
  n_train + n_val = Z.of_nat (ds_len ds)
  /\ train_set = slice (randperm (manual_seed 0) (ds_len ds)) 0 n_train
  /\ val_set = slice (randperm (manual_seed 0) (ds_len ds)) n_train (n_train + n_val).
Proof.
  unfold split_dataset, split_sizes. intros H.
  destruct (int_mul_float _ _) as [p|]; [|done].
  destruct (int_of_float p) as [nv|]; [|done].
  destruct (random_split _ _ _) as [r|] eqn:Hrs; [|done].
  apply random_split_pair in Hrs; [|lia]. subst r.
  injection H as <- <- <- <-. split; [lia|done].
Qed.

(** C4. The two subsets are slices of the permutation that a
    generator made anew from the seed 0 yields for the length of the
    dataset, and the sizes are a function of this length and of
    [val_percent]: nothing else the program has or draws goes into the
    split. So two runs on datasets of the same length, in whatever
    surroundings, get the same training samples and the same validation
    samples. *)
Theorem split_is_deterministic (a1 a2 : args) (e1 e2 : env (tensor:=tensor)) :
  ds_len (env_dataset e1) = ds_len (env_dataset e2) ->
  val_percent a1 = val_percent a2 ->
  let perm := randperm (manual_seed 0) (ds_len (env_dataset e1)) in
  split_dataset (env_dataset e1) (val_percent a1)
  = split_dataset (env_dataset e2) (val_percent a2)
  /\ (forall n1 v1 train1 val1,
        split_dataset (env_dataset e1) (val_percent a1) = Ok (n1, v1, train1, val1) ->
        train1 = slice perm 0 n1 /\ val1 = slice perm n1 (n1 + v1))
  /\ forall n1 v1 train1 val1 n2 v2 train2 val2,
      split_dataset (env_dataset e1) (val_percent a1) = Ok (n1, v1, train1, val1) ->
      split_dataset (env_dataset e2) (val_percent a2) = Ok (n2, v2, train2, val2) ->
      (forall i, i ∈ train1 <-> i ∈ train2) /\ (forall i, i ∈ val1 <-> i ∈ val2).
Proof.
  intros Hlen Hvp perm.
  assert (Heq : split_dataset (env_dataset e1) (val_percent a1)
                = split_dataset (env_dataset e2) (val_percent a2)).
  { unfold split_dataset. by rewrite Hlen, Hvp. }
  split; [done|]. split.
  - intros n1 v1 train1 val1 H1.
    by destruct (split_dataset_slices _ _ _ _ _ _ H1) as (_ & ? & ?).
  - intros n1 v1 train1 val1 n2 v2 train2 val2 H1 H2.
    rewrite Heq, H2 in H1. by injection H1 as <- <- <- <-.
Qed.

(** C3. For a dataset of fewer than [2^63] samples (any length
    [len(dataset)] can return) and a float [val_percent] in [[0, 1)],
    the split returns, with
    [n_val = floor (len * val_percent)] (the product being the float
    product the code computes), [n_train = len - n_val], both sizes
    non-negative and adding up to [len], and two subsets of these sizes
    that share no sample and together hold every sample. *)
Theorem split_sizes_and_partition (ds : dataset) (vp : float) :
  valid_binary prec emax vp = true ->
  SFleb (S754_zero false) vp = true ->
  SFltb vp float_one = true ->
  Z.of_nat (ds_len ds) < 2 ^ 63 ->
  exists product n_train n_val train_set val_set,
    int_mul_float (Z.of_nat (ds_len ds)) vp = Ok product
    /\ split_dataset ds vp = Ok (n_train, n_val, train_set, val_set)
    /\ n_val = Qfloor (float_value product)
    /\ n_train = Z.of_nat (ds_len ds) - n_val
    /\ n_train + n_val = Z.of_nat (ds_len ds)
    /\ 0 <= n_val /\ 0 <= n_train
    /\ Z.of_nat (length train_set) = n_train
    /\ Z.of_nat (length val_set) = n_val
    /\ train_set ++ val_set ≡ₚ seq 0 (ds_len ds)
    /\ (forall i, i ∈ train_set -> i ∉ val_set)
    /\ (forall i, (i < ds_len ds)%nat -> i ∈ train_set \/ i ∈ val_set).
Proof.
  intros Hvalid H0 H1 Hlen.
  destruct (int_mul_float_unit (Z.of_nat (ds_len ds)) vp) as (p & n & Hp & Hnn & Hn & Hb);
    [lia|done..|].
  set (perm := randperm (manual_seed 0) (ds_len ds)).
  assert (Hperm : perm ≡ₚ seq 0 (ds_len ds)) by apply randperm_perm.
  assert (Hplen : length perm = ds_len ds)
    by (rewrite (Permutation_length Hperm); apply length_seq).
  exists p, (Z.of_nat (ds_len ds) - n), n,
    (take (Z.to_nat (Z.of_nat (ds_len ds) - n)) perm),
    (drop (Z.to_nat (Z.of_nat (ds_len ds) - n)) perm).
  assert (Hcat : take (Z.to_nat (Z.of_nat (ds_len ds) - n)) perm
                 ++ drop (Z.to_nat (Z.of_nat (ds_len ds) - n)) perm ≡ₚ seq 0 (ds_len ds))
    by (by rewrite take_drop).
  split; [done|]. split.
  { unfold split_dataset, split_sizes. rewrite Hp, Hn.
    rewrite random_split_two by lia. done. }
  split; [by apply int_of_float_floor|].
  split; [done|]. split; [lia|]. split; [lia|]. split; [lia|].
  split; [rewrite length_take; lia|]. split; [rewrite length_drop; lia|].
  split; [done|]. split.
  - intros i Hi1 Hi2.
    assert (Hnd : NoDup (take (Z.to_nat (Z.of_nat (ds_len ds) - n)) perm
                         ++ drop (Z.to_nat (Z.of_nat (ds_len ds) - n)) perm)).
    { rewrite Hcat. apply NoDup_ListNoDup, seq_NoDup. }
    apply NoDup_app in Hnd as (_ & Hdisj & _). by apply (Hdisj i).
  - intros i Hi. apply elem_of_app. rewrite Hcat. apply list_elem_of_In, in_seq. lia.
Qed.

(** ** More of the script

    *** The preamble of [train_model] *)

(** With a split that succeeds, a training subset that is not empty, a
    positive batch size, an optimizer that is built and the network
    wrapped once, [train_model] is its loop. *)
Lemma train_model_steps_loop a e w n_train n_val train_set val_set u :
  split_dataset (env_dataset e) (val_percent a) = Ok (n_train, n_val, train_set, val_set) ->
  train_set <> [] ->
  0 < batch_size a ->
  RMSprop (w_model w) (learning_rate a) (weight_decay a) (momentum a) = Ok tt ->
  w_model w = DataParallel (UNet u) ->
  train_model_steps a e w
  = for_each (train_epoch a e n_train (make_criterion (n_classes u))
                          (train_loader_of a train_set) (val_loader_of a val_set))
             (epoch_range (epochs a)) 0 w.
Proof.
  intros Hs Hne Hbs Hopt Hm. unfold train_model_steps, bind, lift, get_model.
  rewrite Hs, !DataLoader_Ok, Hopt, Hm by done. reflexivity.
Qed.

Lemma RMSprop_Ok (m : module tensor) lr wd mom :
  SFleb (S754_zero false) lr = true -> SFleb (S754_zero false) mom = true ->
  SFleb (S754_zero false) wd = true -> state_dict m <> ∅ ->
  RMSprop m lr wd mom = Ok tt.
Proof.
  intros Hlr Hmom Hwd Hne. unfold RMSprop. rewrite Hlr, Hmom, Hwd. simpl.
  destruct (decide _) as [He|_]; [|done]. by apply dom_empty_iff_L in He.
Qed.

Lemma state_dict_wrapped_empty (u : unet tensor) :
  state_dict (DataParallel (UNet u)) = ∅ -> parameters u = ∅.
Proof.
  simpl. intros He. exact (proj1 (kmap_empty_iff _ _) He).
Qed.

(** X5. [train_model] reads [model.module.n_classes] before its loop:
    with a model that is not a network wrapped once it raises before
    any call is made, and what it raises is not a [RuntimeError], so
    the recovery wrapper lets it through. Where the split, the loaders
    and the optimizer are made, the exception is the [AttributeError]
    for [module] with the bare network, and the one for [n_classes]
    with a network wrapped twice. *)
Theorem train_model_needs_the_wrapped_network a e w :
  (forall u, w_model w <> DataParallel (UNet u)) ->
  (exists ex, train_model a e w = (Raise ex, w) /\ is_RuntimeError ex = false)
  /\ (forall n_train n_val train_set val_set,
        split_dataset (env_dataset e) (val_percent a) = Ok (n_train, n_val, train_set, val_set) ->
        train_set <> [] ->
        0 < batch_size a ->
        RMSprop (w_model w) (learning_rate a) (weight_decay a) (momentum a) = Ok tt ->
        (forall u, w_model w = UNet u ->
                   train_model a e w = (Raise (AttributeError "module"), w))
        /\ (forall m, w_model w = DataParallel (DataParallel m) ->
                      train_model a e w = (Raise (AttributeError "n_classes"), w))).
Proof.
  intros Hnot. split.
  - unfold train_model, bind.
    destruct (train_model_steps_cases a e w)
      as [(ex & -> & Hex)|(nt & nv & tr & va & u & _ & _ & _ & _ & Hm & _)].
    + by exists ex.
    + by destruct (Hnot u).
  - intros n_train n_val train_set val_set Hs Hne Hbs Hopt.
    unfold train_model, train_model_steps, bind, lift, get_model.
    rewrite Hs, !DataLoader_Ok, Hopt by done. split.
    + by intros u ->.
    + by intros m ->.
Qed.

(** X3. With a batch size of zero or less the construction of the
    training loader raises [ValueError]: [train_model] ends there, with
    the world as it was, and the division by [200 * batch_size] of line
    182 is never reached. *)
Theorem nonpositive_batch_size_is_rejected a e w n_train n_val train_set val_set :
  split_dataset (env_dataset e) (val_percent a) = Ok (n_train, n_val, train_set, val_set) ->
  batch_size a <= 0 ->
  exists msg, train_model a e w = (Raise (ValueError msg), w).
Proof.
  intros Hs Hbs. unfold train_model, train_model_steps, bind, lift.
  rewrite Hs.
  destruct (DataLoader_cases train_set true false (batch_size a))
    as [[msg ->]|(Hpos & _)]; [by eexists|lia].
Qed.

(** X4. With [epochs <= 0] the range of line 109 is empty. Where the
    split succeeds with a training subset that is not empty, the batch
    size is positive and the network is wrapped: with a learning rate, a
    momentum and a weight decay that are not negative and a network that
    has a parameter, [train_model] builds its loaders and its optimizer
    and returns, and no epoch is started, no batch is passed forward and
    no checkpoint is written; with a learning rate that is negative or
    not a number the optimizer refuses it and [train_model] ends with
    its [ValueError]. *)
Theorem no_epochs_no_training a e w n_train n_val train_set val_set u :
  split_dataset (env_dataset e) (val_percent a) = Ok (n_train, n_val, train_set, val_set) ->
  train_set <> [] ->
  0 < batch_size a ->
  w_model w = DataParallel (UNet u) ->
  epochs a <= 0 ->
  (SFleb (S754_zero false) (learning_rate a) = true ->
   SFleb (S754_zero false) (momentum a) = true ->
   SFleb (S754_zero false) (weight_decay a) = true ->
   parameters u <> ∅ ->
   train_model a e w = (Ok tt, w))
  /\ (SFleb (S754_zero false) (learning_rate a) = false ->
      train_model a e w = (Raise (ValueError "Invalid learning rate"), w)).
Proof.
  intros Hs Hne Hbs Hm He. split.
  - intros Hlr Hmom Hwd Hpar. unfold train_model, bind.
    assert (Hopt : RMSprop (w_model w) (learning_rate a) (weight_decay a) (momentum a) = Ok tt).
    { apply RMSprop_Ok; try done. rewrite Hm. by intros Hempty%state_dict_wrapped_empty. }
    rewrite (train_model_steps_loop _ _ _ _ _ _ _ _ Hs Hne Hbs Hopt Hm).
    unfold epoch_range. replace (Z.to_nat (epochs a)) with 0%nat by lia. reflexivity.
  - intros Hlr. unfold train_model, train_model_steps, bind, lift, get_model.
    rewrite Hs, !DataLoader_Ok by done. unfold RMSprop. by rewrite Hlr.
Qed.

(** *** What a batch does to the world *)

Lemma forward_batches_app ep t1 t2 :
  forward_batches ep (t1 ++ t2) = forward_batches ep t1 ++ forward_batches ep t2.
Proof. apply omap_app. Qed.

Lemma checkpoints_app t1 t2 : checkpoints (t1 ++ t2) = checkpoints t1 ++ checkpoints t2.
Proof. apply omap_app. Qed.

Lemma concat_prefix {A} (l1 l2 : list (list A)) :
  l1 `prefix_of` l2 -> concat l1 `prefix_of` concat l2.
Proof. intros [k ->]. rewrite concat_app. by apply prefix_app_r. Qed.

Lemma validation_events_silent t :
  Forall (fun ev => is_Some (validation_call_of ev)) t ->
  checkpoints t = [] /\ forall ep, forward_batches ep t = [].
Proof.
  induction 1 as [|ev t Hev _ [IH1 IH2]]; [done|].
  destruct ev; try (destruct Hev as [? Hev]; discriminate Hev);
    (split; [exact IH1|intros ep; exact (IH2 ep)]).
Qed.

Lemma validation_round_effects e vl o g w r w' :
  validation_round e vl o g w = (r, w') ->
  w_files w' = w_files w /\ w_model w' = w_model w
  /\ exists t, w_trace w' = w_trace w ++ t /\ checkpoints t = []
               /\ (forall ep, forward_batches ep t = [])
               /\ Forall (evaluates_on e vl) t.
Proof.
  intros Hv. destruct (validation_round_post _ _ _ _ _ _ _ Hv) as (t & Ht & Hf & Hm & _).
  apply validation_round_events in Hv as (_ & t' & Ht' & Hev & Hon).
  assert (t' = t) as -> by (rewrite Ht in Ht'; by apply app_inv_head in Ht').
  apply validation_events_silent in Hev as [Hc Hfw]. eauto 10.
Qed.

Lemma map_parameters_id (m : module tensor) : map_parameters (fun p => p) m = m.
Proof. induction m as [[]|m IH]; simpl; [done|by rewrite IH]. Qed.

Lemma map_parameters_compose f1 f2 (m : module tensor) :
  map_parameters f2 (map_parameters f1 m) = map_parameters (fun p => f2 (f1 p)) m.
Proof. induction m as [u|m IH]; simpl; [done|by rewrite IH]. Qed.

Lemma train_batch_effects a e n_train crit vl epoch g samples w r w' :
  train_batch a e n_train crit vl epoch g samples w = (r, w') ->
  w_files w' = w_files w
  /\ (exists f, w_model w' = map_parameters f (w_model w))
  /\ exists t, w_trace w' = w_trace w ++ t
       /\ checkpoints t = []
       /\ (forall ep, forward_batches ep t `prefix_of` (if epoch =? ep then [samples] else []))
       /\ (forall g', r = Ok g' ->
             forall ep, forward_batches ep t = if epoch =? ep then [samples] else [])
       /\ Forall (evaluates_on e vl) t.
Proof.
  unfold train_batch, bind, lift, get_model, set_model, emit, ret, raise, call.
  intros H.
  run H.
  all: try match goal with
       | Hv : validation_round _ _ _ _ _ = _ |- _ =>
           apply validation_round_effects in Hv; simpl in Hv;
           destruct Hv as (Hfv & Hmv & tv & Htv & Hcv & Hfwv & Hon)
       end.
  all: rewrite ?Hfv, ?Hmv, ?Htv; simpl.
  all: split; [reflexivity|].
  all: split; [first [eexists; reflexivity
                     |exists (fun p => p); symmetry; apply map_parameters_id]|].
  all: first [ exists []; split; [by rewrite app_nil_r|]
             | eexists; split; [rewrite <- ?app_assoc; reflexivity|] ].
  all: rewrite ?checkpoints_app, ?Hcv; split; [reflexivity|].
  all: split;
    [intros ep; rewrite ?forward_batches_app, ?Hfwv; unfold forward_batches; simpl;
     destruct (epoch =? ep); simpl; rewrite ?app_nil_r; first [done|apply prefix_nil]|].
  all: split; [|repeat (first [apply Forall_app; split|apply Forall_cons; split]);
                first [done|apply Forall_nil]].
  all: intros g' Hg' ep; try discriminate.
  all: rewrite ?forward_batches_app, ?Hfwv; unfold forward_batches; simpl;
    destruct (epoch =? ep); simpl; by rewrite ?app_nil_r.
Qed.

Lemma for_each_batch_effects a e n_train crit vl epoch xs g w r w' :
  for_each (train_batch a e n_train crit vl epoch) xs g w = (r, w') ->
  w_files w' = w_files w
  /\ (exists f, w_model w' = map_parameters f (w_model w))
  /\ exists t, w_trace w' = w_trace w ++ t
       /\ checkpoints t = []
       /\ (forall ep, forward_batches ep t `prefix_of` (if epoch =? ep then xs else []))
       /\ (forall g', r = Ok g' ->
             forall ep, forward_batches ep t = if epoch =? ep then xs else [])
       /\ Forall (evaluates_on e vl) t.
Proof.
  revert g w. induction xs as [|x xs IH]; intros g w; simpl.
  - intros [= <- <-]. split; [done|]. split; [exists (fun p => p); by rewrite map_parameters_id|].
    exists []. rewrite app_nil_r. repeat split; try done.
    + intros ep. by destruct (epoch =? ep).
    + intros _ _ ep. by destruct (epoch =? ep).
  - unfold bind. destruct (train_batch _ _ _ _ _ _ _ _ _) as [[g1|ex] w1] eqn:Hb;
      apply train_batch_effects in Hb as (Hf1 & [f1 Hm1] & t1 & Ht1 & Hc1 & Hp1 & Hfw1 & Hon1).
    + intros Hrest.
      apply IH in Hrest as (Hf2 & [f2 Hm2] & t2 & Ht2 & Hc2 & Hp2 & Hfw2 & Hon2).
      split; [congruence|].
      split; [exists (fun p => f2 (f1 p)); by rewrite Hm2, Hm1, map_parameters_compose|].
      exists (t1 ++ t2). split; [by rewrite Ht2, Ht1, app_assoc|].
      rewrite checkpoints_app, Hc1, Hc2. split; [done|]. split; [|split].
      * intros ep. rewrite forward_batches_app, (Hfw1 g1 eq_refl).
        specialize (Hp2 ep). destruct (epoch =? ep); [by apply prefix_cons|done].
      * intros g' -> ep. rewrite forward_batches_app, (Hfw1 g1 eq_refl), (Hfw2 g' eq_refl).
        by destruct (epoch =? ep).
      * by apply Forall_app.
    + intros [= <- <-]. split; [done|]. split; [by exists f1|].
      exists t1. repeat split; try done.
      intros ep. specialize (Hp1 ep). destruct (epoch =? ep); [|done].
      by apply (prefix_app_r _ [x] xs).
Qed.

Lemma batches_concat (dl : data_loader) drawn :
  0 < dl_batch_size dl -> dl_drop_last dl = false ->
  concat (batches dl drawn) = sampler_order dl drawn.
Proof.
  intros Hbs Hdl. unfold batches. rewrite Hdl.
  destruct (batch_sampler_counts (Z.to_nat (dl_batch_size dl)) false (sampler_order dl drawn))
    as (full & rest & _ & Hc & _ & _ & ->); [lia|].
  rewrite concat_app. simpl. destruct (0 <? length rest)%nat eqn:Hlen; simpl.
  - by rewrite app_nil_r.
  - apply Nat.ltb_ge in Hlen. destruct rest; [by rewrite app_nil_r in *|simpl in Hlen; lia].
Qed.

(** One epoch: its batches, then its checkpoint. *)
Lemma train_epoch_effects a e n_train crit dl vl g epoch w r w' :
  train_epoch a e n_train crit dl vl g epoch w = (r, w') ->
  (exists f, w_model w' = map_parameters f (w_model w))
  /\ exists t, w_trace w' = w_trace w ++ t
       /\ Forall (evaluates_on e vl) t
       /\ (forall ep, forward_batches ep t
                      `prefix_of` (if epoch =? ep then batches_of_epoch e dl epoch else []))
       /\ match r with
          | Ok _ =>
              (forall ep, forward_batches ep t
                          = if epoch =? ep then batches_of_epoch e dl epoch else [])
              /\ if save_checkpoint a then
                   checkpoints t = [(epoch, checkpoint_path epoch)]
                   /\ w_files w' = <[checkpoint_path epoch :=
                                       checkpoint_file (env_dataset e) (w_model w')]> (w_files w)
                 else checkpoints t = [] /\ w_files w' = w_files w
          | Raise _ => checkpoints t = [] /\ w_files w' = w_files w
          end.
Proof.
  unfold train_epoch, write_checkpoint, checkpoint_file, bind, emit, ret, get_model, write_file.
  simpl.
  destruct (for_each _ _ _ _) as [[g1|ex] w1] eqn:Hb;
    apply for_each_batch_effects in Hb as (Hf & Hm & t & Ht & Hc & Hp & Hfw & Hon); simpl in *.
  - destruct (save_checkpoint a); simpl; intros [= <- <-]; simpl.
    + split; [done|]. rewrite Ht.
      exists ([EvEpoch epoch] ++ t ++ [EvCheckpoint epoch (checkpoint_path epoch)]).
      split; [by rewrite <- !app_assoc|].
      assert (Hfwd : forall ep, forward_batches ep ([EvEpoch epoch] ++ t
                        ++ [EvCheckpoint epoch (checkpoint_path epoch)])
                                = forward_batches ep t).
      { intros ep. rewrite !forward_batches_app. unfold forward_batches at 1 3. simpl.
        by rewrite app_nil_r. }
      split; [|split; [|split]].
      * apply Forall_app. split; [by repeat constructor|].
        apply Forall_app. split; [done|by repeat constructor].
      * intros ep. rewrite Hfwd. apply Hp.
      * intros ep. rewrite Hfwd. by apply (Hfw g1).
      * rewrite !checkpoints_app, Hc, Hf. done.
    + split; [done|]. rewrite Ht. exists ([EvEpoch epoch] ++ t).
      split; [by rewrite <- !app_assoc|].
      split; [apply Forall_app; split; [by repeat constructor|done]|].
      split; [|split; [|by rewrite checkpoints_app, Hc]].
      * apply Hp.
      * by apply (Hfw g1).
  - intros [= <- <-]. split; [done|]. rewrite Ht. exists ([EvEpoch epoch] ++ t).
    split; [by rewrite <- !app_assoc|].
    split; [apply Forall_app; split; [by repeat constructor|done]|].
    split; [apply Hp|]. by rewrite checkpoints_app, Hc.
Qed.

Lemma epochs_forwarded a e n_train crit dl vl eps g w r w' :
  for_each (train_epoch a e n_train crit dl vl) eps g w = (r, w') ->
  (exists f, w_model w' = map_parameters f (w_model w))
  /\ exists t, w_trace w' = w_trace w ++ t
       /\ Forall (evaluates_on e vl) t
       /\ (forall ep, forward_batches ep t `prefix_of` batches_of_epochs e dl eps ep)
       /\ (forall G, r = Ok G -> forall ep, forward_batches ep t = batches_of_epochs e dl eps ep).
Proof.
  revert g w. induction eps as [|ep0 eps IH]; intros g w; simpl.
  - intros [= <- <-]. split; [exists (fun p => p); by rewrite map_parameters_id|].
    exists []. rewrite app_nil_r. done.
  - unfold bind. destruct (train_epoch _ _ _ _ _ _ _ _ _) as [[g1|ex] w1] eqn:Hb;
      apply train_epoch_effects in Hb as ([f1 Hm1] & t1 & Ht1 & Hon1 & Hp1 & Hr1).
    + destruct Hr1 as [Hfw1 _].
      intros Hrest. apply IH in Hrest as ([f2 Hm2] & t2 & Ht2 & Hon2 & Hp2 & Hfw2).
      split; [exists (fun p => f2 (f1 p)); by rewrite Hm2, Hm1, map_parameters_compose|].
      exists (t1 ++ t2). split; [by rewrite Ht2, Ht1, app_assoc|].
      split; [by apply Forall_app|].
      unfold batches_of_epochs. simpl. split.
      * intros ep. rewrite forward_batches_app, Hfw1. apply prefix_app, Hp2.
      * intros G -> ep. by rewrite forward_batches_app, Hfw1, (Hfw2 G).
    + intros [= <- <-]. split; [by exists f1|]. exists t1. split; [done|].
      split; [done|]. split; [|done]. intros ep. unfold batches_of_epochs. simpl.
      by apply prefix_app_r.
Qed.

Lemma batches_of_epochs_notin (e : env (tensor:=tensor)) dl eps ep :
  ep ∉ eps -> batches_of_epochs e dl eps ep = [].
Proof.
  unfold batches_of_epochs. induction eps as [|ep0 eps IH]; [done|].
  intros Hnin. apply not_elem_of_cons in Hnin as [Hne Hnin]. simpl.
  destruct (ep0 =? ep) eqn:Heq; [apply Z.eqb_eq in Heq; congruence|]. by apply IH.
Qed.

Lemma batches_of_epochs_in (e : env (tensor:=tensor)) dl eps ep :
  NoDup eps -> ep ∈ eps -> batches_of_epochs e dl eps ep = batches_of_epoch e dl ep.
Proof.
  unfold batches_of_epochs. induction 1 as [|ep0 eps Hnin Hnd IH]; [by intros ?%elem_of_nil|].
  simpl. destruct (ep0 =? ep) eqn:Heq.
  - apply Z.eqb_eq in Heq as ->. intros _.
    pose proof (batches_of_epochs_notin e dl eps ep Hnin) as Hrest.
    unfold batches_of_epochs in Hrest. by rewrite Hrest, app_nil_r.
  - apply Z.eqb_neq in Heq. intros [?|Hin]%elem_of_cons; [congruence|]. by apply IH.
Qed.

Lemma elem_of_epoch_range epochs ep : ep ∈ epoch_range epochs <-> 1 <= ep <= epochs.
Proof.
  unfold epoch_range. rewrite list_elem_of_In, in_map_iff. split.
  - intros (i & <- & Hi%in_seq). lia.
  - intros Hep. exists (Z.to_nat ep). split; [lia|]. apply in_seq. lia.
Qed.

Lemma NoDup_epoch_range epochs : NoDup (epoch_range epochs).
Proof.
  unfold epoch_range. apply NoDup_fmap_2; [apply Nat2Z.inj'|].
  apply NoDup_ListNoDup, seq_NoDup.
Qed.

Lemma slice_sublist {A} (l : list A) (a b : Z) : slice l a b `sublist_of` l.
Proof. unfold slice. etrans; [apply sublist_take|apply sublist_drop]. Qed.

Lemma split_dataset_NoDup (ds : dataset) vp n_train n_val train_set val_set :
  split_dataset (gen:=gen) ds vp = Ok (n_train, n_val, train_set, val_set) ->
  NoDup train_set /\ NoDup val_set.
Proof.
  intros (_ & -> & ->)%split_dataset_slices.
  assert (Hnd : NoDup (randperm (manual_seed 0) (ds_len ds))).
  { rewrite randperm_perm. apply NoDup_ListNoDup, seq_NoDup. }
  split; (eapply sublist_NoDup; [exact Hnd|apply slice_sublist]).
Qed.

Lemma events_of_unchanged {A} (m : M (tensor:=tensor) A) w r :
  m w = (r, w) -> events_of m w = [].
Proof. intros Hm. apply events_of_app. by rewrite Hm, app_nil_r. Qed.

(** The batches a run passes forward in an epoch: the first ones of
    the batches its training loader yields for what the sampler drew,
    and all of them when the run returns; and the batches every call
    of [evaluate] is given are those of its validation loader. *)
Lemma run_batches a e w r w' n_train n_val train_set val_set :
  split_dataset (env_dataset e) (val_percent a) = Ok (n_train, n_val, train_set, val_set) ->
  train_model_steps a e w = (r, w') ->
  let t := events_of (train_model a e) w in
  (t = [] \/ 0 < batch_size a)
  /\ Forall (evaluates_on e (val_loader_of a val_set)) t
  /\ (forall ep, forward_batches ep t
                 `prefix_of` batches_of_epoch e (train_loader_of a train_set) ep)
  /\ (forall G, r = Ok G ->
        forall ep, 1 <= ep <= epochs a ->
                   forward_batches ep t = batches_of_epoch e (train_loader_of a train_set) ep).
Proof.
  intros Hs Hrun t. subst t. rewrite events_of_train_model.
  destruct (train_model_steps_cases a e w)
    as [(ex & Hpre & _)|(nt & nv & tr & va & u & Hs' & _ & Hbs & _ & Hm & _ & Hloop)].
  - rewrite (events_of_unchanged _ _ _ Hpre). split; [by left|]. split; [done|]. split.
    + intros ep. apply prefix_nil.
    + intros G ->. rewrite Hpre in Hrun. done.
  - rewrite Hs in Hs'. injection Hs' as <- <- <- <-.
    rewrite Hloop in Hrun.
    destruct (epochs_forwarded _ _ _ _ _ _ _ _ _ _ _ Hrun) as (_ & t & Ht & Hon & Hp & Hfw).
    rewrite (events_of_app _ _ t) by (by rewrite Hloop, Hrun).
    split; [by right|]. split; [done|]. split.
    + intros ep. specialize (Hp ep).
      destruct (decide (ep ∈ epoch_range (epochs a))) as [Hep|Hep].
      * by rewrite batches_of_epochs_in in Hp by (done || apply NoDup_epoch_range).
      * rewrite batches_of_epochs_notin in Hp by done.
        apply prefix_nil_inv in Hp as ->. apply prefix_nil.
    + intros G -> ep Hep. apply elem_of_epoch_range in Hep.
      rewrite (Hfw G eq_refl). apply batches_of_epochs_in; [apply NoDup_epoch_range|done].
Qed.

(** What a run passes forward in an epoch: a prefix of what the sampler
    drew for it, and all of it when the run returns. *)
Lemma run_forwards a e w r w' n_train n_val train_set val_set :
  split_dataset (env_dataset e) (val_percent a) = Ok (n_train, n_val, train_set, val_set) ->
  train_model_steps a e w = (r, w') ->
  let t := events_of (train_model a e) w in
  (forall ep, forwarded ep t `prefix_of` env_shuffle e ep train_set)
  /\ (forall G, r = Ok G ->
        forall ep, 1 <= ep <= epochs a -> forwarded ep t = env_shuffle e ep train_set).
Proof.
  intros Hs Hrun t.
  destruct (run_batches a e w r w' n_train n_val train_set val_set Hs Hrun)
    as (Hbs & _ & Hp & Hfw). fold t in Hbs, Hp, Hfw.
  destruct Hbs as [Hnil|Hbs].
  - rewrite Hnil in *. split.
    + intros ep. apply prefix_nil.
    + intros G HG ep Hep. specialize (Hfw G HG ep Hep).
      destruct (Z_lt_ge_dec 0 (batch_size a)) as [Hpos|Hneg].
      { transitivity (concat (batches_of_epoch e (train_loader_of a train_set) ep));
          [by rewrite <- Hfw|]. by apply (batches_concat (train_loader_of a train_set)). }
      exfalso. subst r.
      destruct (train_model_steps_cases a e w)
        as [(ex & Hpre & _)|(nt & nv & tr & va & u & _ & _ & Hbs & _)]; [|lia].
      by rewrite Hpre in Hrun.
  - assert (Hcat : forall ep, concat (batches_of_epoch e (train_loader_of a train_set) ep)
                              = env_shuffle e ep train_set).
    { intros ep. unfold batches_of_epoch. by rewrite batches_concat. }
    split.
    + intros ep. rewrite <- Hcat. apply concat_prefix, Hp.
    + intros G HG ep Hep. rewrite <- Hcat, <- (Hfw G HG ep Hep). reflexivity.
Qed.

(** C9. In any run of [train_model]: every call of [evaluate] is given
    a loader that yields full batches only, the first
    [len(val_set) // batch_size * batch_size] samples of the validation
    subset in its order, so that what does not fill a last batch is
    dropped; and the batches passed forward in an epoch are the first
    ones of the full batches of what the sampler drew for the epoch,
    followed, when [batch_size] does not divide the number of training
    samples, by one batch of the remainder. A run that returns has
    passed all of them forward in each of its epochs, that is every
    training sample once. *)
Theorem loaders_keep_and_drop_the_last_batch
        a e w r w' n_train n_val train_set val_set :
  split_dataset (env_dataset e) (val_percent a) = Ok (n_train, n_val, train_set, val_set) ->
  (forall i l, env_shuffle e i l ≡ₚ l) ->
  train_model_steps a e w = (r, w') ->
  let t := events_of (train_model a e) w in
  let bs := Z.to_nat (batch_size a) in
  (forall g val_batches,
      EvEvaluate g val_batches ∈ t ->
      Forall (fun b => length b = bs) val_batches
      /\ length val_batches = (length val_set / bs)%nat
      /\ concat val_batches `prefix_of` val_set)
  /\ (forall ep, exists full rest,
        Forall (fun b => length b = bs) full
        /\ length full = (length train_set / bs)%nat
        /\ length rest = (length train_set mod bs)%nat
        /\ concat full ++ rest = env_shuffle e ep train_set
        /\ concat full ++ rest ≡ₚ train_set
        /\ forward_batches ep t
           `prefix_of` full ++ (if (0 <? length rest)%nat then [rest] else [])
        /\ (forall G, r = Ok G -> 1 <= ep <= epochs a ->
              forward_batches ep t = full ++ (if (0 <? length rest)%nat then [rest] else [])
              /\ concat (forward_batches ep t) ≡ₚ train_set)).
Proof.
  intros Hs Hperm Hrun t bs.
  destruct (run_batches a e w r w' n_train n_val train_set val_set Hs Hrun)
    as (Hbs & Hon & Hp & Hfw). fold t in Hbs, Hon, Hp, Hfw.
  split.
  - intros g val_batches Hin.
    destruct Hbs as [Hnil|Hbs]; [rewrite Hnil in Hin; by apply elem_of_nil in Hin|].
    rewrite Forall_forall in Hon. specialize (Hon _ Hin). simpl in Hon. subst val_batches.
    unfold batches, sampler_order. simpl. fold bs.
    destruct (batch_sampler_counts bs true val_set) as (full & rest & Hf & Hc & Hn & _ & ->);
      [subst bs; lia|].
    simpl. rewrite app_nil_r. split; [done|]. split; [done|]. by exists rest.
  - intros ep.
    assert (Hlen : length (env_shuffle e ep train_set) = length train_set)
      by (by rewrite Hperm).
    destruct (Z_lt_ge_dec 0 (batch_size a)) as [Hpos|Hneg].
    + destruct (batch_sampler_counts bs false (env_shuffle e ep train_set))
        as (full & rest & Hf & Hc & Hn & Hr & Hb); [subst bs; lia|].
      simpl in Hb. rewrite Hlen in Hn, Hr.
      assert (Hbatches : batches_of_epoch e (train_loader_of a train_set) ep
                         = full ++ (if (0 <? length rest)%nat then [rest] else [])).
      { unfold batches_of_epoch, batches, sampler_order. simpl. fold bs. exact Hb. }
      exists full, rest. split; [done|]. split; [done|]. split; [done|].
      split; [done|]. split; [by rewrite Hc|]. split; [by rewrite <- Hbatches|].
      intros G HG Hep. rewrite (Hfw G HG ep Hep), Hbatches. split; [done|].
      rewrite concat_app, <- (Hperm ep train_set), <- Hc.
      destruct (0 <? length rest)%nat eqn:Hrest; simpl; [by rewrite app_nil_r|].
      apply Nat.ltb_ge in Hrest. destruct rest; [done|simpl in Hrest; lia].
    + destruct Hbs as [Hnil|Hbs]; [|lia].
      assert (Hbs0 : bs = 0%nat) by (subst bs; lia).
      exists [], (env_shuffle e ep train_set). rewrite Hbs0, Hlen, Hnil. simpl.
      split; [done|]. split; [done|]. split; [done|]. split; [done|].
      split; [apply Hperm|]. split; [apply prefix_nil|].
      intros G -> _. exfalso.
      destruct (train_model_steps_cases a e w)
        as [(ex & Hpre & _)|(nt & nv & tr & va & u & _ & _ & Hbs' & _)]; [|lia].
      by rewrite Hpre in Hrun.
Qed.

(** X6. The sampler of the training loader drawing a permutation of
    the training set in every epoch: the samples passed to the forward
    pass in an epoch are, in any run, the first ones of what was drawn
    for it, none of them twice; and in a run that returns every epoch
    from 1 to [epochs] has passed exactly what was drawn, that is every
    training sample once. *)
Theorem each_epoch_forwards_the_training_set_once
        a e w r w' n_train n_val train_set val_set :
  split_dataset (env_dataset e) (val_percent a) = Ok (n_train, n_val, train_set, val_set) ->
  (forall ep l, env_shuffle e ep l ≡ₚ l) ->
  train_model_steps a e w = (r, w') ->
  let t := events_of (train_model a e) w in
  (forall ep, forwarded ep t `prefix_of` env_shuffle e ep train_set
              /\ NoDup (forwarded ep t))
  /\ (forall G, r = Ok G ->
        forall ep, 1 <= ep <= epochs a ->
                   forwarded ep t = env_shuffle e ep train_set
                   /\ forwarded ep t ≡ₚ train_set).
Proof.
  intros Hs Hperm Hrun t.
  destruct (run_forwards a e w r w' n_train n_val train_set val_set Hs Hrun) as [Hpre Hall].
  fold t in Hpre, Hall.
  assert (Hnd : forall ep, NoDup (env_shuffle e ep train_set)).
  { intros ep. rewrite Hperm. by destruct (split_dataset_NoDup _ _ _ _ _ _ Hs). }
  split.
  - intros ep. split; [apply Hpre|].
    destruct (Hpre ep) as [k Hk]. specialize (Hnd ep). rewrite Hk in Hnd.
    by apply NoDup_app in Hnd as [? _].
  - intros G HG ep Hep. rewrite (Hall G HG ep Hep). split; [done|apply Hperm].
Qed.


(** The number of batches of a loader that keeps its last batch: the
    samples over the batch size, rounded up. *)
Lemma batches_length (dl : data_loader) drawn :
  0 < dl_batch_size dl -> dl_drop_last dl = false ->
  Z.of_nat (length (batches dl drawn))
  = (Z.of_nat (length (sampler_order dl drawn)) + dl_batch_size dl - 1) / dl_batch_size dl.
Proof.
  intros Hbs Hdl. unfold batches. rewrite Hdl.
  set (bs := Z.to_nat (dl_batch_size dl)). set (l := sampler_order dl drawn).
  destruct (batch_sampler_counts bs false l) as (full & rest & _ & _ & Hn & Hr & ->);
    [lia|].
  assert (Hbsz : dl_batch_size dl = Z.of_nat bs) by lia. rewrite Hbsz.
  assert (Hbs0 : (bs <> 0)%nat) by lia.
  pose proof (Nat.div_mod (length l) bs Hbs0) as Hdm.
  pose proof (Nat.mod_upper_bound (length l) bs Hbs0) as Hlt.
  rewrite length_app, Hn. simpl.
  destruct (0 <? length rest)%nat eqn:Hpos; simpl.
  - apply Nat.ltb_lt in Hpos.
    apply (Z.div_unique_pos _ _ _ (Z.of_nat (length l mod bs) - 1)); nia.
  - apply Nat.ltb_ge in Hpos.
    apply (Z.div_unique_pos _ _ _ (Z.of_nat bs - 1)); nia.
Qed.

Lemma planned_steps_constant (e : env (tensor:=tensor)) dl eps (b : nat) :
  (forall ep, length (batches_of_epoch e dl ep) = b) ->
  planned_steps e dl eps = (length eps * b)%nat.
Proof.
  intros Hb. unfold planned_steps. induction eps as [|ep eps IH]; [done|].
  simpl. rewrite Hb, IH. lia.
Qed.

(** X8. A run that returns has made
    [max 0 epochs * ceil (n / batch_size)] training steps, [n] being the
    number of training samples: every epoch has that many batches, the
    last one short when [batch_size] does not divide [n], and the steps
    logged are [1 .. G] for this [G]. *)
Theorem a_run_that_returns_has_made_epochs_times_batches_steps
        a e w G w' n_train n_val train_set val_set :
  split_dataset (env_dataset e) (val_percent a) = Ok (n_train, n_val, train_set, val_set) ->
  (forall ep l, length (env_shuffle e ep l) = length l) ->
  train_model_steps a e w = (Ok G, w') ->
  let per_epoch := (Z.of_nat (length train_set) + batch_size a - 1) / batch_size a in
  G = Z.max 0 (epochs a) * per_epoch
  /\ log_steps (events_of (train_model a e) w) = steps 0 (Z.to_nat G)
  /\ forall ep, 1 <= ep <= epochs a ->
       Z.of_nat (length (batches_of_epoch e (train_loader_of a train_set) ep)) = per_epoch.
Proof.
  intros Hs Hlen Hrun per_epoch.
  destruct (train_model_steps_post _ _ _ _ _ Hrun)
    as [[_ [ex ?]]|(nt & nv & tr & va & tl & Hs' & Htl & t & Ht & -> & Hlog & _)]; [done|].
  rewrite Hs in Hs'. injection Hs' as <- <- <- <-.
  destruct (DataLoader_cases train_set true false (batch_size a))
    as [[msg Hd]|(Hbs & _ & Hd)]; rewrite Hd in Htl; [done|].
  injection Htl as <-. fold (train_loader_of a train_set) in *.
  assert (Hb : forall ep,
             Z.of_nat (length (batches_of_epoch e (train_loader_of a train_set) ep)) = per_epoch).
  { intros ep. unfold batches_of_epoch. rewrite batches_length by done.
    unfold sampler_order. simpl. by rewrite Hlen. }
  assert (Hpe : 0 <= per_epoch) by (rewrite <- (Hb 0); lia).
  assert (Hps : planned_steps e (train_loader_of a train_set) (epoch_range (epochs a))
                = (Z.to_nat (epochs a) * Z.to_nat per_epoch)%nat).
  { rewrite (planned_steps_constant _ _ _ (Z.to_nat per_epoch))
      by (intros ep; rewrite <- (Hb ep); lia).
    unfold epoch_range. by rewrite length_map, length_seq. }
  rewrite Hps in *.
  rewrite events_of_train_model, (events_of_app _ _ t) by (by rewrite Hrun).
  split; [lia|]. split; [|by intros].
  rewrite Hlog. f_equal. lia.
Qed.

(** *** Checkpoints on disk *)

Lemma append_length (s1 s2 : string) :
  String.length (String.append s1 s2) = (String.length s1 + String.length s2)%nat.
Proof.
  induction s1 as [|c s1 IH]; [done|].
  change (S (String.length (String.append s1 s2)) = S (String.length s1 + String.length s2)).
  by rewrite IH.
Qed.

Lemma append_cancel_r (s1 s2 t : string) :
  String.append s1 t = String.append s2 t -> s1 = s2.
Proof.
  revert s2. induction s1 as [|c s1 IH]; intros [|c2 s2] Heq.
  - done.
  - apply (f_equal String.length) in Heq. rewrite !append_length in Heq. simpl in Heq. lia.
  - apply (f_equal String.length) in Heq. rewrite !append_length in Heq. simpl in Heq. lia.
  - change (String c (String.append s1 t) = String c2 (String.append s2 t)) in Heq.
    injection Heq as -> Heq. f_equal. by apply IH.
Qed.

Lemma checkpoint_path_inj ep1 ep2 : checkpoint_path ep1 = checkpoint_path ep2 -> ep1 = ep2.
Proof.
  unfold checkpoint_path. intros Heq%String.app_inj%append_cancel_r.
  by apply pretty_Z_inj.
Qed.

Lemma epochs_checkpoints a e n_train crit dl vl eps g w r w' :
  save_checkpoint a = true ->
  for_each (train_epoch a e n_train crit dl vl) eps g w = (r, w') ->
  NoDup eps ->
  exists done t,
    done `prefix_of` eps
    /\ (forall G, r = Ok G -> done = eps)
    /\ w_trace w' = w_trace w ++ t
    /\ checkpoints t = map (fun ep => (ep, checkpoint_path ep)) done
    /\ (forall p, (forall ep, ep ∈ done -> p <> checkpoint_path ep) ->
                  w_files w' !! p = w_files w !! p)
    /\ (forall ep, ep ∈ done ->
          exists f, w_files w' !! checkpoint_path ep
                    = Some (checkpoint_file (env_dataset e) (map_parameters f (w_model w))))
    /\ (forall G ep, r = Ok G -> last eps = Some ep ->
          w_files w' !! checkpoint_path ep
          = Some (checkpoint_file (env_dataset e) (w_model w'))).
Proof.
  intros Hsave. revert g w. induction eps as [|ep0 eps IH]; intros g w; simpl.
  - intros [= <- <-] _. exists [], []. rewrite app_nil_r. repeat split; try done.
    intros ep Hep. by apply elem_of_nil in Hep.
  - unfold bind. intros Hrun Hnd. apply NoDup_cons in Hnd as [Hnin Hnd].
    destruct (train_epoch _ _ _ _ _ _ _ _ _) as [[g1|ex] w1] eqn:Hb;
      apply train_epoch_effects in Hb as ([f1 Hm1] & t1 & Ht1 & _ & _ & Hr1).
    + rewrite Hsave in Hr1. destruct Hr1 as (_ & Hc1 & Hf1).
      destruct (IH _ _ Hrun Hnd) as (done & t2 & Hpre & Hall & Ht2 & Hc2 & Hframe & Hin & Hlast).
      exists (ep0 :: done), (t1 ++ t2).
      split; [by apply prefix_cons|].
      split; [intros G HG; f_equal; by eapply Hall|].
      split; [by rewrite Ht2, Ht1, app_assoc|].
      split; [by rewrite checkpoints_app, Hc1, Hc2|].
      assert (Hnin' : ep0 ∉ done).
      { intros Hd. apply Hnin. destruct Hpre as [k ->]. apply elem_of_app. by left. }
      assert (Hep0 : w_files w' !! checkpoint_path ep0
                     = Some (checkpoint_file (env_dataset e) (w_model w1))).
      { rewrite Hframe, Hf1, lookup_insert_eq; [done|].
        intros ep Hep Heq%checkpoint_path_inj. by subst. }
      split; [|split].
      * intros p Hp. rewrite Hframe, Hf1, lookup_insert_ne; [done| |].
        -- intros Heq. by apply (Hp ep0); [left|].
        -- intros ep Hep. apply Hp. by right.
      * intros ep [->|Hep]%elem_of_cons.
        -- exists f1. by rewrite Hep0, Hm1.
        -- destruct (Hin ep Hep) as [f2 Hf2]. exists (fun p => f2 (f1 p)).
           by rewrite Hf2, Hm1, map_parameters_compose.
      * intros G ep -> Hl. destruct eps as [|ep1 eps].
        -- simpl in Hl. injection Hl as <-. simpl in Hrun. by injection Hrun as <- <-.
        -- rewrite last_cons_cons in Hl. by eapply Hlast.
    + injection Hrun as <- <-. destruct Hr1 as [Hc1 Hf1].
      exists [], t1. split; [apply prefix_nil|]. repeat split; try done.
      * intros p _. by rewrite Hf1.
      * intros ep Hep. by apply elem_of_nil in Hep.
Qed.

(** X9. With [save_checkpoint], the checkpoints a run writes are
    those of the epochs [1 .. k] it has completed, in this order, one
    file each, [k] being [epochs] when the run returns; every such file
    is on disk when the run ends and holds the state dictionary of the
    model with its parameters as some steps of the optimizer left them,
    and the mask values of the dataset; no other file is touched; and
    when the run returns the file of the last epoch is the state of the
    model the run ends with. *)
Theorem checkpoints_are_on_disk a e w r w' :
  save_checkpoint a = true ->
  train_model_steps a e w = (r, w') ->
  let t := events_of (train_model a e) w in
  exists k : nat,
    Z.of_nat k <= Z.max 0 (epochs a)
    /\ (forall G, r = Ok G -> Z.of_nat k = Z.max 0 (epochs a))
    /\ checkpoints t = map (fun ep => (ep, checkpoint_path ep)) (epoch_range (Z.of_nat k))
    /\ (forall p, (forall ep, 1 <= ep <= Z.of_nat k -> p <> checkpoint_path ep) ->
                  w_files w' !! p = w_files w !! p)
    /\ (forall ep, 1 <= ep <= Z.of_nat k ->
          exists f, w_files w' !! checkpoint_path ep
                    = Some (checkpoint_file (env_dataset e) (map_parameters f (w_model w))))
    /\ (forall G, r = Ok G -> 1 <= epochs a ->
          w_files w' !! checkpoint_path (epochs a)
          = Some (checkpoint_file (env_dataset e) (w_model w')))
    /\ (forall ep1 ep2, checkpoint_path ep1 = checkpoint_path ep2 -> ep1 = ep2).
Proof.
  intros Hsave Hrun t. subst t. rewrite events_of_train_model.
  destruct (train_model_steps_cases a e w)
    as [(ex & Hpre & _)|(nt & nv & tr & va & u & Hs & _ & Hbs & _ & Hm & _ & Hloop)].
  - rewrite (events_of_unchanged _ _ _ Hpre). rewrite Hpre in Hrun.
    injection Hrun as <- <-. exists 0%nat.
    repeat split; try done; try lia; apply checkpoint_path_inj.
  - rewrite Hloop in Hrun.
    destruct (epochs_checkpoints _ _ _ _ _ _ _ _ _ _ _ Hsave Hrun (NoDup_epoch_range _))
      as (done & t & Hpre & Hall & Ht & Hc & Hframe & Hin & Hlast).
    rewrite (events_of_app _ _ t) by (by rewrite Hloop, Hrun).
    assert (Hdone : done = epoch_range (Z.of_nat (length done))
                    /\ (length done <= Z.to_nat (epochs a))%nat).
    { destruct Hpre as [rest Hrest]. unfold epoch_range in *.
      assert (Hl : (length done + length rest = Z.to_nat (epochs a))%nat).
      { apply (f_equal length) in Hrest.
        by rewrite length_map, length_seq, length_app in Hrest. }
      split; [|lia]. rewrite Nat2Z.id.
      replace (Z.to_nat (epochs a)) with (length done + length rest)%nat in Hrest by lia.
      rewrite seq_app, map_app in Hrest. apply app_inj_1 in Hrest as [? _]; [done|].
      by rewrite length_map, length_seq. }
    destruct Hdone as [Hdone Hle]. exists (length done).
    split; [lia|]. split.
    { intros G HG. rewrite (Hall G HG). unfold epoch_range. rewrite length_map, length_seq. lia. }
    split; [by rewrite <- Hdone|]. split.
    { intros p Hp. apply Hframe. intros ep Hep. apply Hp.
      rewrite Hdone in Hep. by apply elem_of_epoch_range in Hep. }
    split.
    { intros ep Hep. apply Hin. rewrite Hdone. by apply elem_of_epoch_range. }
    split; [|apply checkpoint_path_inj].
    intros G HG He. apply (Hlast G); [done|].
    unfold epoch_range. replace (Z.to_nat (epochs a)) with (S (Z.to_nat (epochs a) - 1)) by lia.
    rewrite seq_S, map_app. simpl. rewrite last_snoc. f_equal. lia.
Qed.

(** *** The recovery wrapper, whatever the run *)

Lemma train_model_model a e w r w' :
  train_model a e w = (r, w') -> exists f, w_model w' = map_parameters f (w_model w).
Proof.
  intros Hrun. assert (w' = (train_model_steps a e w).2) as ->.
  { by rewrite <- train_model_world, Hrun. }
  destruct (train_model_steps_cases a e w)
    as [(ex & Hpre & _)|(nt & nv & tr & va & u & Hs & _ & Hbs & _ & Hm & _ & Hloop)].
  - rewrite Hpre. exists (fun p => p). by rewrite map_parameters_id.
  - rewrite Hloop. destruct (for_each _ _ _ _) as [r1 w1] eqn:Hl.
    by apply epochs_forwarded in Hl as [? _].
Qed.

Lemma prefix_spec (p s : string) :
  String.prefix p s = true <-> exists post, s = String.append p post.
Proof.
  revert s. induction p as [|a p IH]; intros s.
  - split; [by exists s|]. intros _. by destruct s.
  - destruct s as [|b s]; [split; [done|by intros [? ?]]|]. simpl.
    destruct (ascii_dec a b) as [->|Hne].
    + rewrite IH. split.
      * intros [post ->]. by exists post.
      * intros [post Hpost]. exists post.
        change (String b s = String b (String.append p post)) in Hpost. congruence.
    + split; [done|]. intros [post Hpost].
      change (String b s = String a (String.append p post)) in Hpost. congruence.
Qed.

(** [sub in s] holds exactly when [s] is some text, [sub], and some
    text. *)
Lemma contains_spec (sub s : string) :
  contains sub s = true
  <-> exists pre post, s = String.append pre (String.append sub post).
Proof.
  induction s as [|b s IH].
  - change (contains sub "") with (String.prefix sub "" || false).
    rewrite orb_false_r, prefix_spec. split.
    + intros [post Hpost]. by exists "", post.
    + intros (pre & post & Hs). destruct pre as [|c pre]; [by exists post|].
      discriminate Hs.
  - change (contains sub (String b s)) with (String.prefix sub (String b s) || contains sub s).
    rewrite orb_true_iff, IH, prefix_spec. split.
    + intros [[post Hpost]|(pre & post & ->)].
      * by exists "", post.
      * by exists (String b pre), post.
    + intros (pre & post & Hs). destruct pre as [|c pre].
      * left. by exists post.
      * right. exists pre, post.
        change (String b s = String c (String.append pre (String.append sub post))) in Hs.
        congruence.
Qed.

(** X14. How the wrapper of lines 325-355 ends for a wrapped model, by
    how the first call of [train_model] ends: when it returns, so does
    the wrapper; an exception that is not a [RuntimeError] is passed on;
    a [RuntimeError] whose message does not have [out of memory] in it
    is dropped and the wrapper returns; and one whose message has it
    makes the wrapper log, empty the cache and end with the
    [AttributeError] of [use_checkpointing]. *)
Theorem recovery_wrapper_outcome c first retry w r w' m :
  w_model w = DataParallel m ->
  train_model (train_args c) first w = (r, w') ->
  (r = Ok tt -> recovery_wrapper c first retry w = (Ok tt, w'))
  /\ (forall ex, r = Raise ex -> is_RuntimeError ex = false ->
                 recovery_wrapper c first retry w = (Raise ex, w'))
  /\ (forall msg, r = Raise (RuntimeError msg) ->
        (~ exists pre post, msg = String.append pre (String.append "out of memory" post)) ->
        recovery_wrapper c first retry w = (Ok tt, w'))
  /\ (forall msg, r = Raise (RuntimeError msg) ->
        (exists pre post, msg = String.append pre (String.append "out of memory" post)) ->
        recovery_wrapper c first retry w
        = (Raise (AttributeError "use_checkpointing"),
           {| w_model := w_model w'; w_files := w_files w';
              w_trace := w_trace w' ++ [EvLogError; EvEmptyCache] |})).
Proof.
  intros Hm Hrun. split; [|split; [|split]].
  - intros ->. by apply recovery_wrapper_returns.
  - intros ex -> Hex. by apply recovery_wrapper_other_class.
  - intros msg -> Hno. apply (recovery_wrapper_swallows _ _ _ _ _ msg); [done|].
    destruct (contains "out of memory" msg) eqn:Hc; [|done].
    by apply contains_spec in Hc.
  - intros msg -> Hyes%contains_spec.
    destruct (train_model_model _ _ _ _ _ Hrun) as [f Hf]. rewrite Hm in Hf. simpl in Hf.
    rewrite (recovery_wrapper_out_of_memory_wrapped _ _ _ _ _ _ _ Hrun Hyes Hf).
    by rewrite <- app_assoc.
Qed.


(** X13. What [__main__] does never depends on the surroundings of a
    second call of [train_model]: the model the handler calls
    [use_checkpointing] on is the wrapper, which has no such method, so
    the second call of lines 346-355 is not reached in any run. *)
Theorem the_retry_is_never_started c pretrained first retry1 retry2 w :
  main c pretrained first retry1 w = main c pretrained first retry2 w.
Proof.
  assert (Hw : forall w0 m, w_model w0 = DataParallel m ->
             recovery_wrapper c first retry1 w0 = recovery_wrapper c first retry2 w0).
  { intros w0 m Hm. destruct (train_model (train_args c) first w0) as [r w'] eqn:Hrun.
    destruct (train_model_model _ _ _ _ _ Hrun) as [f Hf]. rewrite Hm in Hf. simpl in Hf.
    destruct r as [[]|ex].
    - by rewrite !(recovery_wrapper_returns _ _ _ _ _ Hrun).
    - destruct (is_RuntimeError ex) eqn:Hex;
        [|by rewrite !(recovery_wrapper_other_class _ _ _ _ _ _ Hrun Hex)].
      destruct ex; try done.
      destruct (contains "out of memory" msg) eqn:Hc.
      + by rewrite !(recovery_wrapper_out_of_memory_wrapped _ _ _ _ _ _ _ Hrun Hc Hf).
      + by rewrite !(recovery_wrapper_swallows _ _ _ _ _ _ Hrun Hc). }
  unfold main, bind, set_model, get_model. simpl.
  destruct (cli_load c) as [[|ch path]|]; simpl; try by eapply Hw.
  destruct (load_checkpoint _ _) as [[[]|ex] w1]; [|done]. by eapply Hw.
Qed.

(** *** The load path *)

Lemma main_load c pretrained first retry w a path :
  cli_load c = Some (String a path) ->
  main c pretrained first retry w
  = match load_checkpoint (String a path)
            {| w_model := UNet pretrained; w_files := w_files w; w_trace := w_trace w |} with
    | (Ok _, w1) =>
        recovery_wrapper c first retry
          {| w_model := DataParallel (w_model w1); w_files := w_files w1;
             w_trace := w_trace w1 |}
    | (Raise ex, w1) => (Raise ex, w1)
    end.
Proof.
  intros Hl. unfold main, bind, set_model, get_model. simpl. rewrite Hl.
  by destruct (load_checkpoint _ _) as [[[]|ex] w1].
Qed.

(** X10. With [--load path], a file that does not exist makes
    [__main__] end with [FileNotFoundError], and a file that has no entry
    [mask_values] with the [KeyError] of line 315; in both cases the
    network is still the pretrained one, not wrapped, and no training is
    started. *)
Theorem load_needs_the_file_and_its_mask_values c pretrained first retry w path :
  cli_load c = Some path -> path <> "" ->
  let w0 := {| w_model := UNet pretrained; w_files := w_files w; w_trace := w_trace w |} in
  (w_files w !! path = None ->
   main c pretrained first retry w = (Raise (FileNotFoundError path), w0))
  /\ (forall d, w_files w !! path = Some d -> d !! "mask_values" = None ->
        main c pretrained first retry w = (Raise (KeyError "mask_values"), w0)).
Proof.
  intros Hl Hne w0. destruct path as [|a path]; [done|].
  rewrite (main_load _ _ _ _ _ _ _ Hl). fold w0.
  unfold load_checkpoint, bind, read_file, lift, del. simpl. split.
  - by intros ->.
  - intros d -> Hd. simpl. by rewrite Hd.
Qed.

(** X11. A checkpoint whose entries are the mask values and exactly
    the parameter names of the network, as a script that trains the bare
    network saves it: when every tensor of the file has the shape of the
    parameter of its name, it is loaded, that is every parameter of the
    network becomes the tensor of the file, the rest of the network
    stays, the load is logged, and it is this network that is wrapped
    and trained; when some tensor has another shape, [__main__] ends
    with the [RuntimeError] of [load_state_dict], the network not
    wrapped and no training started. *)
Theorem a_checkpoint_of_the_bare_network_is_loaded
        c pretrained first retry w path (sd : gmap string tensor) vs :
  cli_load c = Some path -> path <> "" ->
  w_files w !! path = Some (<["mask_values" := MaskValues vs]> (Tensor <$> sd)) ->
  sd !! "mask_values" = None ->
  dom sd = dom (parameters pretrained) ->
  ((forall k (x p : tensor),
       sd !! k = Some x -> parameters pretrained !! k = Some p -> shape x = shape p) ->
   main c pretrained first retry w
   = recovery_wrapper c first retry
       {| w_model := DataParallel (UNet {| n_channels := n_channels pretrained;
                                            n_classes := n_classes pretrained;
                                            bilinear := bilinear pretrained;
                                            parameters := sd;
                                            checkpointing := checkpointing pretrained |});
          w_files := w_files w;
          w_trace := w_trace w ++ [EvModelLoaded path] |})
  /\ (forall k (x p : tensor),
        sd !! k = Some x -> parameters pretrained !! k = Some p -> shape x <> shape p ->
        main c pretrained first retry w
        = (Raise (RuntimeError "Error(s) in loading state_dict: size mismatch"),
           {| w_model := UNet pretrained; w_files := w_files w; w_trace := w_trace w |})).
Proof.
  intros Hl Hne Hfile Hfree Hdom. destruct path as [|a path]; [done|].
  rewrite (main_load _ _ _ _ _ _ _ Hl).
  unfold load_checkpoint, bind, read_file, lift, get_model, set_model, emit. simpl.
  rewrite Hfile. simpl. rewrite (del_mask_values sd vs Hfree). simpl. split.
  - intros Hshape.
    destruct (checkpoint_round_trip_same_keys sd vs (UNet pretrained) Hfree)
      as (stripped & _ & -> & Hload); [by simpl|done|].
    rewrite Hload. reflexivity.
  - intros k x p Hx Hp Hdiff.
    by rewrite (load_state_dict_size_mismatch sd (UNet pretrained) k x p).
Qed.

(** X12. Whatever the network, as long as it has a parameter: a file
    that holds what lines 227-231 save for the wrapped network is
    rejected by lines 313-317 when loaded into a network with the same
    parameter names. [__main__] ends with the [RuntimeError] of
    [load_state_dict], outside the recovery wrapper, before the network
    is wrapped. *)
Theorem a_checkpoint_of_the_script_is_rejected
        c pretrained first retry w path ds (u : unet tensor) :
  cli_load c = Some path -> path <> "" ->
  w_files w !! path = Some (checkpoint_file ds (DataParallel (UNet u))) ->
  parameters u <> ∅ ->
  dom (parameters pretrained) = dom (parameters u) ->
  exists msg,
    main c pretrained first retry w
    = (Raise (RuntimeError msg),
       {| w_model := UNet pretrained; w_files := w_files w; w_trace := w_trace w |}).
Proof.
  intros Hl Hne Hfile Hpar Hdom. destruct path as [|a path]; [done|].
  rewrite (main_load _ _ _ _ _ _ _ Hl).
  destruct (wrapped_checkpoint_is_rejected u pretrained (mask_values ds) Hpar Hdom)
    as (stripped & msg & Hdel & Hload).
  exists msg. unfold load_checkpoint, bind, read_file, lift, get_model. simpl.
  rewrite Hfile. unfold checkpoint_file. simpl. simpl in Hdel. rewrite Hdel. simpl.
  by rewrite Hload.
Qed.

(** *** Training and validation samples *)

(** The two subsets of a split with sizes that are not negative: the
    first [n_train] indices of the permutation and the rest. *)
Lemma split_dataset_partition (ds : dataset) vp n_train n_val train_set val_set :
  split_dataset (gen:=gen) ds vp = Ok (n_train, n_val, train_set, val_set) ->
  0 <= n_train -> 0 <= n_val ->
  train_set ++ val_set ≡ₚ seq 0 (ds_len ds)
  /\ forall i, i ∈ train_set -> i ∉ val_set.
Proof.
  unfold split_dataset, split_sizes. intros H Hnt Hnv.
  destruct (int_mul_float _ _) as [p|]; [|done].
  destruct (int_of_float p) as [nv|]; [|done].
  destruct (random_split _ _ _) as [[|tr [|va [|]]]|] eqn:Hrs; try done.
  injection H as <- <- <- <-.
  rewrite random_split_two in Hrs by lia. injection Hrs as <- <-.
  rewrite take_drop.
  assert (Hperm : randperm (manual_seed 0) (ds_len ds) ≡ₚ seq 0 (ds_len ds))
    by apply randperm_perm.
  split; [done|]. intros i Hi1 Hi2.
  assert (Hnd : NoDup (randperm (manual_seed 0) (ds_len ds))).
  { rewrite Hperm. apply NoDup_ListNoDup, seq_NoDup. }
  rewrite <- (take_drop (Z.to_nat (Z.of_nat (ds_len ds) - nv))) in Hnd.
  apply NoDup_app in Hnd as (_ & Hdisj & _). by apply (Hdisj i).
Qed.

(** X7. No sample of the validation subset is in a training batch: in
    any run, every sample of every batch passed to the forward pass is
    in the training subset of the split and not in its validation
    subset. *)
Theorem validation_samples_are_never_trained_on
        a e w n_train n_val train_set val_set :
  split_dataset (env_dataset e) (val_percent a) = Ok (n_train, n_val, train_set, val_set) ->
  0 <= n_train -> 0 <= n_val ->
  (forall ep l, env_shuffle e ep l ≡ₚ l) ->
  forall ep samples i,
    EvForward ep samples ∈ events_of (train_model a e) w ->
    i ∈ samples ->
    i ∈ train_set /\ i ∉ val_set.
Proof.
  intros Hs Hnt Hnv Hperm ep samples i Hev Hi.
  destruct (train_model_steps a e w) as [r w'] eqn:Hrun.
  destruct (run_forwards a e w r w' n_train n_val train_set val_set Hs Hrun)
    as [Hpre _].
  destruct (Hpre ep) as [k Hk].
  assert (Hin : i ∈ forwarded ep (events_of (train_model a e) w)).
  { unfold forwarded. apply list_elem_of_In, in_concat. exists samples.
    split; [|by apply list_elem_of_In]. apply list_elem_of_In, list_elem_of_omap.
    exists (EvForward ep samples). split; [done|]. simpl. by rewrite Z.eqb_refl. }
  assert (Htr : i ∈ train_set).
  { rewrite <- (Hperm ep train_set), Hk. apply elem_of_app. by left. }
  split; [done|].
  by apply (proj2 (split_dataset_partition _ _ _ _ _ _ Hs Hnt Hnv)).
Qed.

(** *** The per-batch log record *)

Section TrainLogFails.
Context (a : args) (e : env (tensor:=tensor)) (ex : exn).
Hypothesis all_fail : forall g samples, o_train_log (env_oracle e g samples) = Some ex.

Lemma train_batch_log_fails n_train crit vl epoch g samples w r w' :
  train_batch a e n_train crit vl epoch g samples w = (r, w') ->
  True /\ exists t, w_trace w' = w_trace w ++ t /\ (log_steps t = [] \/ r = Raise ex).
Proof.
  unfold train_batch, bind, lift, get_model, set_model, emit, ret, raise, call.
  rewrite all_fail. intros H. split; [done|].
  run H; trace_ex; first [by left|by right].
Qed.

Lemma log_fails_seq (g : Z) t1 (r : result Z) t2 :
  (log_steps t1 = [] \/ Ok g = Raise ex) -> (log_steps t2 = [] \/ r = Raise ex) ->
  log_steps (t1 ++ t2) = [] \/ r = Raise ex.
Proof. rewrite log_steps_app. intros [->|?] [->|?]; auto; done. Qed.

Lemma train_epoch_log_fails n_train crit dl vl g epoch w r w' :
  train_epoch a e n_train crit dl vl g epoch w = (r, w') ->
  True /\ exists t, w_trace w' = w_trace w ++ t /\ (log_steps t = [] \/ r = Raise ex).
Proof.
  unfold train_epoch, write_checkpoint, bind, emit, ret, get_model, write_file. simpl.
  intros H. split; [done|].
  destruct (for_each _ _ _ _) as [r1 w1] eqn:Hb.
  eapply (for_each_post _ (fun _ => True) (fun r t => log_steps t = [] \/ r = Raise ex)) in Hb;
    [|by left|apply log_fails_seq|intros; by eapply train_batch_log_fails|done].
  destruct Hb as (_ & t & Ht & HP). simpl in Ht.
  destruct r1 as [g1|ex1]; [destruct (save_checkpoint a)|]; inversion H; subst; simpl;
    rewrite Ht, <- ?app_assoc; eexists; (split; [reflexivity|]);
    (destruct HP as [HP|HP]; [left|by right]);
    by rewrite !log_steps_app, HP.
Qed.

End TrainLogFails.

(** X15. The [experiment.log] call of line 176 is not guarded: where
    every such call fails, a run that gets as far as its first log
    record ends with the exception of that call. *)
Theorem a_failing_batch_log_ends_training a e w ex :
  (forall g samples, o_train_log (env_oracle e g samples) = Some ex) ->
  log_steps (events_of (train_model a e) w) <> [] ->
  (train_model a e w).1 = Raise ex.
Proof.
  intros Hall. rewrite events_of_train_model. unfold train_model, bind.
  destruct (train_model_steps_cases a e w)
    as [(ex0 & Hpre & _)|(nt & nv & tr & va & u & Hs & _ & Hbs & _ & Hm & _ & Hloop)].
  - by rewrite (events_of_unchanged _ _ _ Hpre).
  - rewrite Hloop in *. destruct (for_each _ _ _ _) as [r w'] eqn:Hl.
    eapply (for_each_post _ (fun _ => True) (fun r t => log_steps t = [] \/ r = Raise ex)) in Hl;
      [|by left|apply log_fails_seq|intros; by eapply train_epoch_log_fails|done].
    destruct Hl as (_ & t & Ht & HP).
    rewrite (events_of_app _ _ t) by (by rewrite Hloop).
    intros Hlog. destruct HP as [HP| ->]; [done|]. reflexivity.
Qed.

(** *** A validation percent that is not a number *)

Lemma float_of_int_length (len : Z) :
  0 <= len < 2 ^ 63 ->
  float_of_int len = Ok (S754_zero false) /\ len = 0
  \/ exists m ex, float_of_int len = Ok (S754_finite false m ex) /\ 0 < len.
Proof.
  intros Hlen. unfold float_of_int. destruct len as [|l|l]; [by left| |lia].
  right. destruct (Z_lt_ge_dec (Zpos l) (2 ^ 53)) as [Hs|Hl].
  - destruct (binary_normalize_small l Hs) as (mx & ex & -> & _). by exists mx, ex.
  - destruct (binary_normalize_large l) as (mx & ex & k & -> & _); [lia|]. by exists mx, ex.
Qed.

(** X2. A [val_percent] that is not a number ends [train_model] at
    line 50, before anything else is done: [int] of the product raises
    [ValueError] for NaN and, for an infinity, [OverflowError] (with an
    empty dataset the product [0 * inf] is NaN again). The division by
    100 of [__main__] passes NaN and the infinities on as they are. *)
Theorem a_validation_percent_that_is_no_number_raises a e w :
  Z.of_nat (ds_len (env_dataset e)) < 2 ^ 63 ->
  (val_percent a = S754_nan ->
   train_model a e w = (Raise (ValueError "cannot convert float NaN to integer"), w))
  /\ (forall s, val_percent a = S754_infinity s ->
        train_model a e w
        = (if (0 <? Z.of_nat (ds_len (env_dataset e)))
           then Raise (OverflowError "cannot convert float infinity to integer")
           else Raise (ValueError "cannot convert float NaN to integer"), w))
  /\ (forall c : cli,
        (cli_val c = S754_nan -> val_percent (train_args c) = S754_nan)
        /\ (forall s, cli_val c = S754_infinity s ->
                      val_percent (train_args c) = S754_infinity s)).
Proof.
  intros Hlen.
  assert (Hrun : forall ex,
             split_sizes (Z.of_nat (ds_len (env_dataset e))) (val_percent a) = Raise ex ->
             train_model a e w = (Raise ex, w)).
  { intros ex Hs. unfold train_model, train_model_steps, split_dataset, bind, lift.
    by rewrite Hs. }
  split; [|split].
  - intros Hvp. apply Hrun. unfold split_sizes, int_mul_float. rewrite Hvp.
    destruct (float_of_int_length (Z.of_nat (ds_len (env_dataset e))))
      as [[-> _]|(m & ex & -> & _)]; [lia|done..].
  - intros s Hvp. unfold split_sizes, int_mul_float in Hrun. rewrite Hvp in Hrun.
    destruct (float_of_int_length (Z.of_nat (ds_len (env_dataset e))))
      as [[Hf H0]|(m & ex & Hf & Hpos)]; [lia| |]; rewrite Hf in Hrun.
    + rewrite H0. simpl. by apply Hrun.
    + destruct (0 <? _) eqn:Hlt; [|apply Z.ltb_ge in Hlt; lia]. by apply Hrun.
  - intros c. split.
    + intros Hv. simpl. by rewrite Hv.
    + intros s Hv. simpl. rewrite Hv. unfold percent.
      assert (H100 : binary_normalize prec emax 100 0 false
                     = S754_finite false 7036874417766400 (-46)) by (vm_compute; reflexivity).
      rewrite H100. simpl. by destruct s.
Qed.

(** *** The validation percent of the command line *)

(** X1. A validation percentage [v] of the command line that is a float
    with [0 <= v < 100] reaches [train_model] as [v / 100], a float in
    [[0, 1)]; so for every dataset of fewer than [2^63] samples the split
    succeeds, with [0 <= n_val <= len], [n_train = len - n_val] and two
    subsets of these sizes that together hold every sample once. *)
Theorem a_validation_percent_below_100_splits (c : cli) (ds : dataset) :
  valid_binary prec emax (cli_val c) = true ->
  SFleb (S754_zero false) (cli_val c) = true ->
  SFltb (cli_val c) float_100 = true ->
  Z.of_nat (ds_len ds) < 2 ^ 63 ->
  let vp := val_percent (train_args c) in
  valid_binary prec emax vp = true
  /\ SFleb (S754_zero false) vp = true
  /\ SFltb vp float_one = true
  /\ exists n_train n_val train_set val_set,
      split_dataset (gen:=gen) ds vp = Ok (n_train, n_val, train_set, val_set)
      /\ 0 <= n_val <= Z.of_nat (ds_len ds)
      /\ n_train = Z.of_nat (ds_len ds) - n_val
      /\ Z.of_nat (length train_set) = n_train
      /\ Z.of_nat (length val_set) = n_val
      /\ train_set ++ val_set ≡ₚ seq 0 (ds_len ds).
Proof.
  intros Hvalid H0 H100 Hlen vp. subst vp. simpl val_percent.
  destruct (percent_fraction (cli_val c) Hvalid H0 H100) as (Hv & Hp0 & Hp1).
  split; [done|]. split; [done|]. split; [done|].
  destruct (int_mul_float_unit (Z.of_nat (ds_len ds)) (percent (cli_val c)))
    as (p & n & Hp & _ & Hn & Hb); [lia|done..|].
  set (perm := randperm (manual_seed 0) (ds_len ds)).
  assert (Hperm : perm ≡ₚ seq 0 (ds_len ds)) by apply randperm_perm.
  assert (Hplen : length perm = ds_len ds)
    by (rewrite (Permutation_length Hperm); apply length_seq).
  exists (Z.of_nat (ds_len ds) - n), n,
    (take (Z.to_nat (Z.of_nat (ds_len ds) - n)) perm),
    (drop (Z.to_nat (Z.of_nat (ds_len ds) - n)) perm).
  split.
  { unfold split_dataset, split_sizes. rewrite Hp, Hn.
    rewrite random_split_two by lia. done. }
  split; [done|]. split; [done|].
  split; [rewrite length_take; lia|]. split; [rewrite length_drop; lia|].
  by rewrite take_drop.
Qed.
End Facts.

(** ** Runs in concrete surroundings *)

Import Example.

(** C2. The recovery wrapper does not do what it is meant to. A
    [RuntimeError] of the first training run whose message is not about
    memory is caught and dropped, so [__main__] ends as if training had
    succeeded; and on memory exhaustion the handler logs and empties the
    cache, but [model.use_checkpointing()] is called on the
    [DataParallel] wrapper, raises, and the second [train_model] is never
    started. *)
Theorem recovery_wrapper_drops_errors_and_never_retries :
  main (gen:=Z) (some_cli 1 1 None) (net 2) device_assert_env (quiet_env 10) blank
  = (Ok tt, {| w_model := DataParallel (UNet (net 2)); w_files := ∅;
               w_trace := [EvEpoch 1; EvForward 1 [3%nat]] |})
  /\ main (gen:=Z) (some_cli 1 1 None) (net 2) oom_env (quiet_env 10) blank
     = (Raise (AttributeError "use_checkpointing"),
        {| w_model := DataParallel (UNet (net 2)); w_files := ∅;
           w_trace := [EvEpoch 1; EvForward 1 [3%nat]; EvLogError; EvEmptyCache] |}).
Proof. split; vm_compute; reflexivity. Qed.

(** C6. A checkpoint written by this script is not loaded by it: the
    state dictionary saved is the wrapper's, whose keys start with
    ["module."], and the load path restores into the network before it
    is wrapped, whose keys do not; [load_state_dict] raises. *)
Theorem checkpoint_of_wrapped_model_does_not_load :
  w_files after_first_run !! "checkpoints/checkpoint_epoch1.pth"
  = Some (<["mask_values" := MaskValues [0; 1]]>
            {[ "module.inc.weight" := Tensor (Var "w") ]})
  /\ fst (main (gen:=Z) (some_cli 1 1 (Some "checkpoints/checkpoint_epoch1.pth"))
               (net 2) (quiet_env 2) (quiet_env 2) after_first_run)
     = Raise (RuntimeError "Error(s) in loading state_dict: Missing or unexpected key(s)").
Proof. split; vm_compute; reflexivity. Qed.

(** C7 as stated fails. In these surroundings the only call that raises
    is the building of the histograms; it is made in the validation
    round of the first batch, and [train_model] ends there with its
    exception, after one of 200 batches. *)
Lemma histogram_failure_aborts_training :
  (forall g samples,
      o_forward (env_oracle no_histograms_env g samples) = Ok (Var "masks_pred")
      /\ o_train_log (env_oracle no_histograms_env g samples) = None
      /\ o_evaluate (env_oracle no_histograms_env g samples) = None
      /\ o_diag_log (env_oracle no_histograms_env g samples) = None)
  /\ fst (train_model (gen:=Z) (some_args 1 1 f0) no_histograms_env (start 2))
     = Raise (OtherError "TypeError")
  /\ log_steps (events_of (train_model (gen:=Z) (some_args 1 1 f0) no_histograms_env)
                          (start 2)) = [1]
  /\ validation_calls (events_of (train_model (gen:=Z) (some_args 1 1 f0) no_histograms_env)
                                 (start 2)) = [(Histograms, 1)].
Proof. split; [done|]. repeat split; vm_compute; reflexivity. Qed.

(** *** The theorems at work *)

Lemma training_loss_witness :
  w_model (start 2) = DataParallel (UNet (net 2))
  /\ forall loss g epoch,
      EvTrainLog loss g epoch
        ∈ events_of (train_model (gen:=Z) (some_args 1 4 f0) (quiet_env 10)) (start 2) ->
      exists samples before after,
        events_of (train_model (gen:=Z) (some_args 1 4 f0) (quiet_env 10)) (start 2)
        = before ++ EvForward epoch samples :: EvOptimizerStep
                 :: EvTrainLog loss g epoch :: after
        /\ loss = Add (CE (Var "masks_pred") (Var "true_masks"))
                      (Dice (ToFloat (Softmax1 (Var "masks_pred")))
                            (ToFloat (Permute0312 (OneHot (Var "true_masks") 2))) true).
Proof.
  split; [reflexivity|]. intros loss g epoch Hin.
  destruct (training_loss_is_classification_plus_dice
              (some_args 1 4 f0) (quiet_env 10) (start 2) (net 2) eq_refl loss g epoch Hin)
    as (samples & masks_pred & before & after & Ht & [= <-] & _ & Hmulti).
  exists samples, before, after. split; [exact Ht|]. apply Hmulti. reflexivity.
Defined.

Lemma split_sizes_witness :
  valid_binary prec emax (percent f10) = true
  /\ SFleb (S754_zero false) (percent f10) = true
  /\ SFltb (percent f10) float_one = true
  /\ Z.of_nat 100 < 2 ^ 63
  /\ exists product n_train n_val train_set val_set,
      int_mul_float 100 (percent f10) = Ok product
      /\ split_dataset (gen:=Z) {| ds_len := 100; mask_values := [0; 1] |} (percent f10)
         = Ok (n_train, n_val, train_set, val_set)
      /\ n_val = Qfloor (float_value product)
      /\ n_train + n_val = 100
      /\ train_set ++ val_set ≡ₚ seq 0 100.
Proof.
  assert (H1 : valid_binary prec emax (percent f10) = true) by (vm_compute; reflexivity).
  assert (H2 : SFleb (S754_zero false) (percent f10) = true) by (vm_compute; reflexivity).
  assert (H3 : SFltb (percent f10) float_one = true) by (vm_compute; reflexivity).
  assert (H4 : Z.of_nat 100 < 2 ^ 63) by (vm_compute; reflexivity).
  repeat (split; [assumption|]).
  destruct (split_sizes_and_partition (gen:=Z) {| ds_len := 100; mask_values := [0; 1] |}
              (percent f10) H1 H2 H3 H4)
    as (p & n_train & n_val & tr & va & Hp & Hs & Hf & _ & Hsum & _ & _ & _ & _ & Hperm & _).
  exists p, n_train, n_val, tr, va. repeat split; assumption.
Defined.

Lemma split_deterministic_witness :
  ds_len (env_dataset (quiet_env 10)) = ds_len (env_dataset gray_env)
  /\ val_percent (some_args 1 1 (percent f10)) = val_percent (some_args 5 2 (percent f10))
  /\ split_dataset (gen:=Z) (env_dataset (quiet_env 10)) (val_percent (some_args 1 1 (percent f10)))
     = Ok (9, 1, [3; 4; 5; 6; 7; 8; 9; 0; 1]%nat, [2%nat])
  /\ split_dataset (gen:=Z) (env_dataset gray_env) (val_percent (some_args 5 2 (percent f10)))
     = Ok (9, 1, [3; 4; 5; 6; 7; 8; 9; 0; 1]%nat, [2%nat])
  /\ [3; 4; 5; 6; 7; 8; 9; 0; 1]%nat = slice (randperm (manual_seed 0) 10) 0 9
  /\ [2%nat] = slice (randperm (manual_seed 0) 10) 9 (9 + 1).
Proof.
  assert (Hs : split_dataset (gen:=Z) (env_dataset (quiet_env 10))
                 (val_percent (some_args 1 1 (percent f10)))
               = Ok (9, 1, [3; 4; 5; 6; 7; 8; 9; 0; 1]%nat, [2%nat])) by (vm_compute; reflexivity).
  destruct (split_is_deterministic (gen:=Z) (some_args 1 1 (percent f10))
              (some_args 5 2 (percent f10)) (quiet_env 10) gray_env eq_refl eq_refl)
    as (Heq & Hslices & _).
  split; [reflexivity|]. split; [reflexivity|]. split; [exact Hs|].
  split; [rewrite <- Heq; exact Hs|]. exact (Hslices _ _ _ _ Hs).
Defined.

Lemma validation_cadence_witness :
  split_dataset (gen:=Z) (env_dataset (quiet_env 400)) (val_percent (some_args 1 1 f0))
  = Ok (400, 0, rotate 3 400, [])
  /\ forall c g,
      (c, g) ∈ validation_calls
                 (events_of (train_model (gen:=Z) (some_args 1 1 f0) (quiet_env 400)) (start 2)) ->
      0 < 400 / (200 * 1) /\ exists k, 0 < k /\ g = k * (400 / (200 * 1)).
Proof.
  assert (Hs : split_dataset (gen:=Z) (env_dataset (quiet_env 400))
                 (val_percent (some_args 1 1 f0)) = Ok (400, 0, rotate 3 400, []))
    by (vm_compute; reflexivity).
  split; [exact Hs|].
  exact (proj1 (validation_round_at_multiples_of_division_step
                  (some_args 1 1 f0) (quiet_env 400) (start 2) 400 0 (rotate 3 400) [] Hs)).
Defined.

Lemma channel_mismatch_witness :
  get_module (w_model (start 2)) = Ok (UNet (net 2))
  /\ get_n_channels (UNet (net 2)) = Ok 3
  /\ train_batch (some_args 1 1 f0) gray_env 9 CrossEntropyLoss
                 (val_loader_of (some_args 1 1 f0) [9%nat]) 1 0 [0%nat] (start 2)
     = (Raise (AttributeError "n_channels"), start 2).
Proof.
  split; [reflexivity|]. split; [reflexivity|].
  refine (proj1 (proj1 (channel_mismatch_fails_before_forward
                          (some_args 1 1 f0) gray_env 9 CrossEntropyLoss
                          (val_loader_of (some_args 1 1 f0) [9%nat]) 1 0 [0%nat] (start 2)
                          (UNet (net 2)) 3 eq_refl eq_refl) _)).
  simpl. lia.
Defined.

(** 810 samples, half of them for validation, in batches of two: 405
    training samples make 202 full batches and one of a single sample;
    of the 405 validation samples the last one is never evaluated. *)
Lemma loaders_witness :
  split_dataset (gen:=Z) (env_dataset (quiet_env 810)) (val_percent (some_args 1 2 fhalf))
  = Ok (405, 405, take 405 (rotate 3 810), drop 405 (rotate 3 810))
  /\ (forall i l, env_shuffle (quiet_env 810) i l ≡ₚ l)
  /\ (train_model_steps (gen:=Z) (some_args 1 2 fhalf) (quiet_env 810) (start 2)).1 = Ok 203
  /\ length (evaluations
               (events_of (train_model (gen:=Z) (some_args 1 2 fhalf) (quiet_env 810))
                          (start 2))) = 203%nat
  /\ (forall g val_batches,
         EvEvaluate g val_batches
           ∈ events_of (train_model (gen:=Z) (some_args 1 2 fhalf) (quiet_env 810)) (start 2) ->
         Forall (fun b => length b = 2%nat) val_batches
         /\ length val_batches = 202%nat
         /\ concat val_batches `prefix_of` drop 405 (rotate 3 810))
  /\ exists full rest,
      forward_batches 1 (events_of (train_model (gen:=Z) (some_args 1 2 fhalf) (quiet_env 810))
                                   (start 2))
      = full ++ [rest]
      /\ Forall (fun b => length b = 2%nat) full
      /\ length full = 202%nat /\ length rest = 1%nat.
Proof.
  assert (Hs : split_dataset (gen:=Z) (env_dataset (quiet_env 810))
                 (val_percent (some_args 1 2 fhalf))
               = Ok (405, 405, take 405 (rotate 3 810), drop 405 (rotate 3 810)))
    by (vm_compute; reflexivity).
  assert (Hperm : forall i l, env_shuffle (quiet_env 810) i l ≡ₚ l)
    by (intros i l; symmetry; apply Permutation_rev).
  assert (Hok : (train_model_steps (gen:=Z) (some_args 1 2 fhalf) (quiet_env 810) (start 2)).1
                = Ok 203) by (vm_compute; reflexivity).
  assert (Hev : length (evaluations
                          (events_of (train_model (gen:=Z) (some_args 1 2 fhalf) (quiet_env 810))
                                     (start 2))) = 203%nat) by (vm_compute; reflexivity).
  assert (Htr : length (take 405 (rotate 3 810)) = 405%nat) by (vm_compute; reflexivity).
  assert (Hva : length (drop 405 (rotate 3 810)) = 405%nat) by (vm_compute; reflexivity).
  split; [exact Hs|]. split; [exact Hperm|]. split; [exact Hok|]. split; [exact Hev|].
  destruct (loaders_keep_and_drop_the_last_batch
              (some_args 1 2 fhalf) (quiet_env 810) (start 2) _ _ _ _ _ _ Hs Hperm
              (surjective_pairing _)) as [Hval Htrain].
  split.
  - intros g val_batches Hin. destruct (Hval g val_batches Hin) as (Hfull & Hlen & Hpre).
    rewrite Hva in Hlen. split; [exact Hfull|]. split; [exact Hlen|exact Hpre].
  - destruct (Htrain 1) as (full & rest & Hfull & Hn & Hr & _ & _ & _ & Hret).
    rewrite Htr in Hn, Hr.
    destruct (Hret 203 Hok ltac:(simpl; lia)) as [Hfw _].
    exists full, rest. split; [|split; [exact Hfull|split; [exact Hn|exact Hr]]].
    rewrite Hfw, Hr. reflexivity.
Defined.

(** *** The further theorems at work *)

Lemma validation_percent_witness :
  valid_binary prec emax (cli_val default_cli) = true
  /\ SFleb (S754_zero false) (cli_val default_cli) = true
  /\ SFltb (cli_val default_cli) float_100 = true
  /\ Z.of_nat 100 < 2 ^ 63
  /\ exists n_train n_val train_set val_set,
      split_dataset (gen:=Z) {| ds_len := 100; mask_values := [0; 1] |}
                    (val_percent (train_args default_cli))
      = Ok (n_train, n_val, train_set, val_set)
      /\ 0 <= n_val <= 100
      /\ train_set ++ val_set ≡ₚ seq 0 100.
Proof.
  assert (H1 : valid_binary prec emax (cli_val default_cli) = true)
    by (vm_compute; reflexivity).
  assert (H2 : SFleb (S754_zero false) (cli_val default_cli) = true)
    by (vm_compute; reflexivity).
  assert (H3 : SFltb (cli_val default_cli) float_100 = true)
    by (vm_compute; reflexivity).
  assert (H4 : Z.of_nat 100 < 2 ^ 63) by (vm_compute; reflexivity).
  repeat (split; [assumption|]).
  destruct (a_validation_percent_below_100_splits (gen:=Z) default_cli
              {| ds_len := 100; mask_values := [0; 1] |} H1 H2 H3 H4)
    as (_ & _ & _ & nt & nv & tr & va & Hs & Hb & _ & _ & _ & Hperm).
  exists nt, nv, tr, va. split; [exact Hs|]. split; [exact Hb|exact Hperm].
Defined.

Lemma nan_percent_witness :
  Z.of_nat (ds_len (env_dataset (quiet_env 10))) < 2 ^ 63
  /\ val_percent (some_args 1 1 S754_nan) = S754_nan
  /\ train_model (gen:=Z) (some_args 1 1 S754_nan) (quiet_env 10) (start 2)
     = (Raise (ValueError "cannot convert float NaN to integer"), start 2).
Proof.
  assert (H1 : Z.of_nat (ds_len (env_dataset (quiet_env 10))) < 2 ^ 63)
    by (vm_compute; reflexivity).
  split; [exact H1|]. split; [reflexivity|].
  exact (proj1 (a_validation_percent_that_is_no_number_raises (gen:=Z)
                  (some_args 1 1 S754_nan) (quiet_env 10) (start 2) H1) eq_refl).
Defined.

Lemma batch_size_witness :
  split_dataset (gen:=Z) (env_dataset (quiet_env 10)) (val_percent (some_args 1 0 f0))
  = Ok (10, 0, rotate 3 10, [])
  /\ batch_size (some_args 1 0 f0) <= 0
  /\ exists msg, train_model (gen:=Z) (some_args 1 0 f0) (quiet_env 10) (start 2)
                 = (Raise (ValueError msg), start 2).
Proof.
  assert (Hs : split_dataset (gen:=Z) (env_dataset (quiet_env 10))
                 (val_percent (some_args 1 0 f0)) = Ok (10, 0, rotate 3 10, []))
    by (vm_compute; reflexivity).
  assert (Hbs : batch_size (some_args 1 0 f0) <= 0) by (simpl; lia).
  split; [exact Hs|]. split; [exact Hbs|].
  exact (nonpositive_batch_size_is_rejected (some_args 1 0 f0) (quiet_env 10) (start 2)
           10 0 (rotate 3 10) [] Hs Hbs).
Defined.

Lemma no_epochs_witness :
  split_dataset (gen:=Z) (env_dataset (quiet_env 10)) (val_percent (some_args 0 1 f0))
  = Ok (10, 0, rotate 3 10, [])
  /\ rotate 3 10 <> []
  /\ 0 < batch_size (some_args 0 1 f0)
  /\ w_model (start 2) = DataParallel (UNet (net 2))
  /\ epochs (some_args 0 1 f0) <= 0
  /\ SFleb (S754_zero false) (learning_rate (some_args 0 1 f0)) = true
  /\ SFleb (S754_zero false) (momentum (some_args 0 1 f0)) = true
  /\ SFleb (S754_zero false) (weight_decay (some_args 0 1 f0)) = true
  /\ parameters (net 2) <> ∅
  /\ train_model (gen:=Z) (some_args 0 1 f0) (quiet_env 10) (start 2) = (Ok tt, start 2)
  /\ SFleb (S754_zero false) (learning_rate (negative_rate_args 0 1 f0)) = false
  /\ train_model (gen:=Z) (negative_rate_args 0 1 f0) (quiet_env 10) (start 2)
     = (Raise (ValueError "Invalid learning rate"), start 2).
Proof.
  assert (Hs : split_dataset (gen:=Z) (env_dataset (quiet_env 10))
                 (val_percent (some_args 0 1 f0)) = Ok (10, 0, rotate 3 10, []))
    by (vm_compute; reflexivity).
  assert (Hne : rotate 3 10 <> []) by (vm_compute; discriminate).
  assert (Hbs : 0 < batch_size (some_args 0 1 f0)) by (simpl; lia).
  assert (He : epochs (some_args 0 1 f0) <= 0) by (simpl; lia).
  assert (Hpar : parameters (net 2) <> ∅) by apply insert_non_empty.
  split; [exact Hs|]. split; [exact Hne|]. split; [exact Hbs|]. split; [reflexivity|].
  split; [exact He|]. split; [reflexivity|]. split; [reflexivity|]. split; [reflexivity|].
  split; [exact Hpar|]. split.
  - exact (proj1 (no_epochs_no_training (some_args 0 1 f0) (quiet_env 10) (start 2)
                    10 0 (rotate 3 10) [] (net 2) Hs Hne Hbs eq_refl He)
                 eq_refl eq_refl eq_refl Hpar).
  - split; [reflexivity|].
    exact (proj2 (no_epochs_no_training (negative_rate_args 0 1 f0) (quiet_env 10) (start 2)
                    10 0 (rotate 3 10) [] (net 2) Hs Hne Hbs eq_refl He) eq_refl).
Defined.

Lemma bare_network_witness :
  (forall u, w_model blank <> DataParallel (UNet u))
  /\ split_dataset (gen:=Z) (env_dataset (quiet_env 10)) (val_percent (some_args 1 1 f0))
     = Ok (10, 0, rotate 3 10, [])
  /\ RMSprop (w_model blank) (learning_rate (some_args 1 1 f0))
             (weight_decay (some_args 1 1 f0)) (momentum (some_args 1 1 f0)) = Ok tt
  /\ train_model (gen:=Z) (some_args 1 1 f0) (quiet_env 10) blank
     = (Raise (AttributeError "module"), blank).
Proof.
  assert (Hnot : forall u, w_model blank <> DataParallel (UNet u))
    by (intros u Hu; discriminate Hu).
  assert (Hs : split_dataset (gen:=Z) (env_dataset (quiet_env 10))
                 (val_percent (some_args 1 1 f0)) = Ok (10, 0, rotate 3 10, []))
    by (vm_compute; reflexivity).
  assert (Hne : rotate 3 10 <> []) by (vm_compute; discriminate).
  assert (Hbs : 0 < batch_size (some_args 1 1 f0)) by (simpl; lia).
  assert (Hopt : RMSprop (w_model blank) (learning_rate (some_args 1 1 f0))
                         (weight_decay (some_args 1 1 f0)) (momentum (some_args 1 1 f0))
                 = Ok tt) by (vm_compute; reflexivity).
  split; [exact Hnot|]. split; [exact Hs|]. split; [exact Hopt|].
  exact (proj1 (proj2 (train_model_needs_the_wrapped_network (gen:=Z)
                         (some_args 1 1 f0) (quiet_env 10) blank Hnot)
                      10 0 (rotate 3 10) [] Hs Hne Hbs Hopt) (net 2) eq_refl).
Defined.

Lemma forwarded_witness :
  split_dataset (gen:=Z) (env_dataset (quiet_env 10)) (val_percent (some_args 1 4 f0))
  = Ok (10, 0, rotate 3 10, [])
  /\ (forall ep l, env_shuffle (quiet_env 10) ep l ≡ₚ l)
  /\ forwarded 1 (events_of (train_model (gen:=Z) (some_args 1 4 f0) (quiet_env 10)) (start 2))
     = rev (rotate 3 10).
Proof.
  assert (Hs : split_dataset (gen:=Z) (env_dataset (quiet_env 10))
                 (val_percent (some_args 1 4 f0)) = Ok (10, 0, rotate 3 10, []))
    by (vm_compute; reflexivity).
  assert (Hperm : forall ep l, env_shuffle (quiet_env 10) ep l ≡ₚ l)
    by (intros ep l; symmetry; apply Permutation_rev).
  split; [exact Hs|]. split; [exact Hperm|].
  assert (Hok : (train_model_steps (gen:=Z) (some_args 1 4 f0) (quiet_env 10) (start 2)).1
                = Ok 3) by (vm_compute; reflexivity).
  exact (proj1 (proj2 (each_epoch_forwards_the_training_set_once
                         (some_args 1 4 f0) (quiet_env 10) (start 2) _ _
                         10 0 (rotate 3 10) [] Hs Hperm
                         (surjective_pairing _)) 3 Hok 1 ltac:(simpl; lia))).
Defined.

Lemma no_leak_witness :
  split_dataset (gen:=Z) (env_dataset (quiet_env 10)) (val_percent (some_args 1 4 fhalf))
  = Ok (5, 5, take 5 (rotate 3 10), drop 5 (rotate 3 10))
  /\ 0 <= 5
  /\ (forall ep l, env_shuffle (quiet_env 10) ep l ≡ₚ l)
  /\ forall ep samples i,
      EvForward ep samples
        ∈ events_of (train_model (gen:=Z) (some_args 1 4 fhalf) (quiet_env 10)) (start 2) ->
      i ∈ samples ->
      i ∈ take 5 (rotate 3 10) /\ i ∉ drop 5 (rotate 3 10).
Proof.
  assert (Hs : split_dataset (gen:=Z) (env_dataset (quiet_env 10))
                 (val_percent (some_args 1 4 fhalf))
               = Ok (5, 5, take 5 (rotate 3 10), drop 5 (rotate 3 10)))
    by (vm_compute; reflexivity).
  assert (H5 : 0 <= 5) by lia.
  assert (Hperm : forall ep l, env_shuffle (quiet_env 10) ep l ≡ₚ l)
    by (intros ep l; symmetry; apply Permutation_rev).
  split; [exact Hs|]. split; [exact H5|]. split; [exact Hperm|].
  exact (validation_samples_are_never_trained_on
           (some_args 1 4 fhalf) (quiet_env 10) (start 2) 5 5 _ _ Hs H5 H5 Hperm).
Defined.

Lemma steps_witness :
  split_dataset (gen:=Z) (env_dataset (quiet_env 10)) (val_percent (some_args 2 4 f0))
  = Ok (10, 0, rotate 3 10, [])
  /\ (forall ep l, length (env_shuffle (quiet_env 10) ep l) = length l)
  /\ (train_model_steps (gen:=Z) (some_args 2 4 f0) (quiet_env 10) (start 2)).1 = Ok 6
  /\ 6 = Z.max 0 2 * ((Z.of_nat (length (rotate 3 10)) + 4 - 1) / 4).
Proof.
  assert (Hs : split_dataset (gen:=Z) (env_dataset (quiet_env 10))
                 (val_percent (some_args 2 4 f0)) = Ok (10, 0, rotate 3 10, []))
    by (vm_compute; reflexivity).
  assert (Hlen : forall ep l, length (env_shuffle (quiet_env 10) ep l) = length l)
    by (intros ep l; apply length_rev).
  assert (Hok : (train_model_steps (gen:=Z) (some_args 2 4 f0) (quiet_env 10) (start 2)).1
                = Ok 6) by (vm_compute; reflexivity).
  split; [exact Hs|]. split; [exact Hlen|]. split; [exact Hok|].
  assert (Hrun : train_model_steps (gen:=Z) (some_args 2 4 f0) (quiet_env 10) (start 2)
                 = (Ok 6, (train_model_steps (gen:=Z) (some_args 2 4 f0) (quiet_env 10)
                                             (start 2)).2)).
  { rewrite <- Hok. apply surjective_pairing. }
  exact (proj1 (a_run_that_returns_has_made_epochs_times_batches_steps
                  (some_args 2 4 f0) (quiet_env 10) (start 2) 6 _
                  10 0 (rotate 3 10) [] Hs Hlen Hrun)).
Defined.

Lemma checkpoints_witness :
  save_checkpoint (some_args 2 4 f0) = true
  /\ exists k : nat,
      Z.of_nat k <= Z.max 0 (epochs (some_args 2 4 f0))
      /\ checkpoints (events_of (train_model (gen:=Z) (some_args 2 4 f0) (quiet_env 10))
                                (start 2))
         = map (fun ep => (ep, checkpoint_path ep)) (epoch_range (Z.of_nat k)).
Proof.
  split; [reflexivity|].
  destruct (checkpoints_are_on_disk (gen:=Z) (some_args 2 4 f0) (quiet_env 10) (start 2)
              _ _ eq_refl (surjective_pairing _)) as (k & Hk & _ & Hc & _).
  exists k. split; [exact Hk|exact Hc].
Defined.

Lemma load_witness :
  cli_load (some_cli 1 1 (Some "weights.pth")) = Some "weights.pth"
  /\ "weights.pth" <> ""
  /\ w_files (with_file "weights.pth" (Tensor <$> bare_weights)) !! "weights.pth"
     = Some (Tensor <$> bare_weights)
  /\ (Tensor <$> bare_weights : gmap string (entry term)) !! "mask_values" = None
  /\ main (gen:=Z) (some_cli 1 1 (Some "weights.pth")) (net 2) (quiet_env 10) (quiet_env 10)
          (with_file "weights.pth" (Tensor <$> bare_weights))
     = (Raise (KeyError "mask_values"),
        {| w_model := UNet (net 2);
           w_files := w_files (with_file "weights.pth" (Tensor <$> bare_weights));
           w_trace := w_trace (with_file "weights.pth" (Tensor <$> bare_weights)) |}).
Proof.
  assert (Hne : "weights.pth" <> "") by discriminate.
  assert (Hf : w_files (with_file "weights.pth" (Tensor <$> bare_weights)) !! "weights.pth"
               = Some (Tensor <$> bare_weights)) by (vm_compute; reflexivity).
  assert (Hd : (Tensor <$> bare_weights : gmap string (entry term)) !! "mask_values" = None)
    by (vm_compute; reflexivity).
  split; [reflexivity|]. split; [exact Hne|]. split; [exact Hf|]. split; [exact Hd|].
  exact (proj2 (load_needs_the_file_and_its_mask_values (gen:=Z)
                  (some_cli 1 1 (Some "weights.pth")) (net 2) (quiet_env 10) (quiet_env 10)
                  (with_file "weights.pth" (Tensor <$> bare_weights)) "weights.pth"
                  eq_refl Hne) _ Hf Hd).
Defined.

Lemma bare_checkpoint_witness :
  cli_load (some_cli 1 1 (Some "weights.pth")) = Some "weights.pth"
  /\ "weights.pth" <> ""
  /\ w_files (with_file "weights.pth" bare_checkpoint) !! "weights.pth"
     = Some (<["mask_values" := MaskValues [0; 1]]> (Tensor <$> bare_weights))
  /\ bare_weights !! "mask_values" = None
  /\ dom bare_weights = dom (parameters (net 2))
  /\ (forall k (x p : term),
         bare_weights !! k = Some x -> parameters (net 2) !! k = Some p -> shape x = shape p)
  /\ main (gen:=Z) (some_cli 1 1 (Some "weights.pth")) (net 2) (quiet_env 10) (quiet_env 10)
          (with_file "weights.pth" bare_checkpoint)
     = recovery_wrapper (gen:=Z) (some_cli 1 1 (Some "weights.pth")) (quiet_env 10) (quiet_env 10)
         {| w_model := DataParallel (UNet {| n_channels := 3; n_classes := 2;
                                             bilinear := false; parameters := bare_weights;
                                             checkpointing := false |});
            w_files := w_files (with_file "weights.pth" bare_checkpoint);
            w_trace := [EvModelLoaded "weights.pth"] |}
  /\ shape (Weight "w1" [64; 1; 3; 3]) <> shape (Var "w")
  /\ main (gen:=Z) (some_cli 1 1 (Some "weights.pth")) (net 2) (quiet_env 10) (quiet_env 10)
          (with_file "weights.pth" gray_checkpoint)
     = (Raise (RuntimeError "Error(s) in loading state_dict: size mismatch"),
        with_file "weights.pth" gray_checkpoint).
Proof.
  assert (Hne : "weights.pth" <> "") by discriminate.
  assert (Hf : w_files (with_file "weights.pth" bare_checkpoint) !! "weights.pth"
               = Some (<["mask_values" := MaskValues [0; 1]]> (Tensor <$> bare_weights)))
    by (vm_compute; reflexivity).
  assert (Hfree : bare_weights !! "mask_values" = None) by (vm_compute; reflexivity).
  assert (Hdom : dom bare_weights = dom (parameters (net 2))) by (vm_compute; reflexivity).
  assert (Hshape : forall k (x p : term),
             bare_weights !! k = Some x -> parameters (net 2) !! k = Some p ->
             shape x = shape p).
  { intros k x p Hx Hp. unfold bare_weights in Hx.
    change (parameters (net 2)) with ({[ "inc.weight" := Var "w" ]} : gmap string term) in Hp.
    apply lookup_singleton_Some in Hx as [_ <-].
    apply lookup_singleton_Some in Hp as [_ <-]. reflexivity. }
  assert (Hdiff : shape (Weight "w1" [64; 1; 3; 3]) <> shape (Var "w")) by discriminate.
  split; [reflexivity|]. split; [exact Hne|]. split; [exact Hf|]. split; [exact Hfree|].
  split; [exact Hdom|]. split; [exact Hshape|]. split.
  - exact (proj1 (a_checkpoint_of_the_bare_network_is_loaded (gen:=Z)
                    (some_cli 1 1 (Some "weights.pth")) (net 2) (quiet_env 10) (quiet_env 10)
                    (with_file "weights.pth" bare_checkpoint) "weights.pth" bare_weights [0; 1]
                    eq_refl Hne Hf Hfree Hdom) Hshape).
  - split; [exact Hdiff|].
    assert (Hg : w_files (with_file "weights.pth" gray_checkpoint) !! "weights.pth"
                 = Some (<["mask_values" := MaskValues [0; 1]]> (Tensor <$> gray_weights)))
      by (vm_compute; reflexivity).
    assert (Hgfree : gray_weights !! "mask_values" = None) by (vm_compute; reflexivity).
    assert (Hgdom : dom gray_weights = dom (parameters (net 2))) by (vm_compute; reflexivity).
    exact (proj2 (a_checkpoint_of_the_bare_network_is_loaded (gen:=Z)
                    (some_cli 1 1 (Some "weights.pth")) (net 2) (quiet_env 10) (quiet_env 10)
                    (with_file "weights.pth" gray_checkpoint) "weights.pth" gray_weights [0; 1]
                    eq_refl Hne Hg Hgfree Hgdom)
                 "inc.weight" (Weight "w1" [64; 1; 3; 3]) (Var "w") eq_refl eq_refl Hdiff).
Defined.

Lemma own_checkpoint_witness :
  cli_load (some_cli 1 1 (Some "checkpoints/checkpoint_epoch1.pth"))
  = Some "checkpoints/checkpoint_epoch1.pth"
  /\ w_files after_first_run !! "checkpoints/checkpoint_epoch1.pth"
     = Some (checkpoint_file (env_dataset (quiet_env 2)) (DataParallel (UNet (net 2))))
  /\ parameters (net 2) <> ∅
  /\ exists msg,
      main (gen:=Z) (some_cli 1 1 (Some "checkpoints/checkpoint_epoch1.pth")) (net 2)
           (quiet_env 2) (quiet_env 2) after_first_run
      = (Raise (RuntimeError msg),
         {| w_model := UNet (net 2); w_files := w_files after_first_run;
            w_trace := w_trace after_first_run |}).
Proof.
  assert (Hne : "checkpoints/checkpoint_epoch1.pth" <> "") by discriminate.
  assert (Hf : w_files after_first_run !! "checkpoints/checkpoint_epoch1.pth"
               = Some (checkpoint_file (env_dataset (quiet_env 2))
                                       (DataParallel (UNet (net 2)))))
    by (vm_compute; reflexivity).
  assert (Hpar : parameters (net 2) <> ∅) by apply insert_non_empty.
  split; [reflexivity|]. split; [exact Hf|]. split; [exact Hpar|].
  exact (a_checkpoint_of_the_script_is_rejected (gen:=Z)
           (some_cli 1 1 (Some "checkpoints/checkpoint_epoch1.pth")) (net 2)
           (quiet_env 2) (quiet_env 2) after_first_run "checkpoints/checkpoint_epoch1.pth"
           (env_dataset (quiet_env 2)) (net 2) eq_refl Hne Hf Hpar eq_refl).
Defined.

Lemma dropped_error_witness :
  w_model (start 2) = DataParallel (UNet (net 2))
  /\ (train_model (gen:=Z) (train_args (some_cli 1 1 None)) device_assert_env (start 2)).1
     = Raise (RuntimeError "CUDA error: device-side assert triggered")
  /\ (~ exists pre post,
        "CUDA error: device-side assert triggered"
        = String.append pre (String.append "out of memory" post))
  /\ recovery_wrapper (gen:=Z) (some_cli 1 1 None) device_assert_env (quiet_env 10) (start 2)
     = (Ok tt,
        (train_model (gen:=Z) (train_args (some_cli 1 1 None)) device_assert_env (start 2)).2).
Proof.
  assert (Hr : (train_model (gen:=Z) (train_args (some_cli 1 1 None)) device_assert_env
                            (start 2)).1
               = Raise (RuntimeError "CUDA error: device-side assert triggered"))
    by (vm_compute; reflexivity).
  assert (Hno : ~ exists pre post,
             "CUDA error: device-side assert triggered"
             = String.append pre (String.append "out of memory" post)).
  { intros Hex. apply contains_spec in Hex. vm_compute in Hex. discriminate Hex. }
  split; [reflexivity|]. split; [exact Hr|]. split; [exact Hno|].
  assert (Hrun : train_model (gen:=Z) (train_args (some_cli 1 1 None)) device_assert_env
                             (start 2)
                 = (Raise (RuntimeError "CUDA error: device-side assert triggered"),
                    (train_model (gen:=Z) (train_args (some_cli 1 1 None)) device_assert_env
                                 (start 2)).2)).
  { rewrite <- Hr. apply surjective_pairing. }
  exact (proj1 (proj2 (proj2 (recovery_wrapper_outcome (gen:=Z) (some_cli 1 1 None)
                                device_assert_env (quiet_env 10) (start 2) _ _ (UNet (net 2))
                                eq_refl Hrun)))
               _ eq_refl Hno).
Defined.

Lemma failing_log_witness :
  (forall g samples,
      o_train_log (env_oracle failing_log_env g samples) = Some (OtherError "CommError"))
  /\ log_steps (events_of (train_model (gen:=Z) (some_args 1 1 f0) failing_log_env) (start 2))
     <> []
  /\ (train_model (gen:=Z) (some_args 1 1 f0) failing_log_env (start 2)).1
     = Raise (OtherError "CommError").
Proof.
  assert (Hall : forall g samples,
             o_train_log (env_oracle failing_log_env g samples) = Some (OtherError "CommError"))
    by reflexivity.
  assert (Hlog : log_steps (events_of (train_model (gen:=Z) (some_args 1 1 f0) failing_log_env)
                                      (start 2)) <> [])
    by (vm_compute; discriminate).
  split; [exact Hall|]. split; [exact Hlog|].
  exact (a_failing_batch_log_ends_training (gen:=Z) (some_args 1 1 f0) failing_log_env
           (start 2) (OtherError "CommError") Hall Hlog).
Defined.
